(** * The Evergreen device agent: orchestration core

    A shallow embedding of the parts of [evergreen-os/device-agent] that the
    specification's properties are about: the durable event queue, the
    configuration validator, credential persistence, the maintenance-window
    scheduler and rollback gate of the update manager, the security
    reconciler and the policy reconciliation pipeline.

    Conventions of the embedding.
    - A Go [int]/[int64] is a [Z]; none of the modelled arithmetic comes
      near the 64-bit bounds, so no wrap-around is written out.
    - A Go [string] is a byte string ([string] of the Standard Library);
      [strings.TrimSpace], [strings.Fields] and [strings.ToLower] are
      modelled on ASCII.
    - A Go [error] is a small tree ([error]) that keeps what [errors.Is] and
      [errors.As] look at: the sentinels ([os.ErrNotExist],
      [context.Canceled], [api.ErrNotModified]), a process exit code, and
      the [%w] wrapping chain.
    - Everything outside the process lives in a [World]: the wall clock,
      the file system, the host commands with their outcomes, and the log
      of commands that were run.  Code with effects is a function
      [World -> A * World], written with a small state monad. *)

From Stdlib Require Import ZArith List Bool Lia.
From Stdlib Require Import Strings.Ascii Strings.String.
From Stdlib Require Import Numbers.DecimalString Numbers.DecimalZ.
From stdpp Require Import base option strings gmap sorting.

Open Scope Z_scope.

(* ===================================================================== *)
(** * Errors *)
(* ===================================================================== *)

(** [ErrWrap pre cause post] is [fmt.Errorf(pre + "%w" + post, cause)]. *)
Inductive error : Type :=
| ErrNotExist
| ErrCanceled
| ErrNotModified
| ErrExit (code : Z)
| ErrMsg (msg : string)
| ErrWrap (pre : string) (cause : error) (post : string).

Module GoErrors.

(** [err.Error()]. *)
Fixpoint Error (e : error) : string :=
  match e with
  | ErrNotExist => "file does not exist"
  | ErrCanceled => "context canceled"
  | ErrNotModified => "policy not modified"
  | ErrExit _ => "exit status"
  | ErrMsg m => m
  | ErrWrap pre c post => pre +:+ Error c +:+ post
  end.

(** [errors.Is(e, os.ErrNotExist)]. *)
Fixpoint IsNotExist (e : error) : bool :=
  match e with
  | ErrNotExist => true
  | ErrWrap _ c _ => IsNotExist c
  | _ => false
  end.

(** [errors.Is(e, context.Canceled)]. *)
Fixpoint IsCanceled (e : error) : bool :=
  match e with
  | ErrCanceled => true
  | ErrWrap _ c _ => IsCanceled c
  | _ => false
  end.

(** [errors.Is(e, api.ErrNotModified)]. *)
Fixpoint IsNotModified (e : error) : bool :=
  match e with
  | ErrNotModified => true
  | ErrWrap _ c _ => IsNotModified c
  | _ => false
  end.

(** [errors.As(e, &exitErr)] followed by [exitErr.ExitCode()]. *)
Fixpoint AsExit (e : error) : option Z :=
  match e with
  | ErrExit c => Some c
  | ErrWrap _ c _ => AsExit c
  | _ => None
  end.

End GoErrors.

(* ===================================================================== *)
(** * The [strings] and [strconv] functions the agent calls *)
(* ===================================================================== *)

Module GoStrings.

Definition isEmpty (s : string) : bool :=
  match s with EmptyString => true | String _ _ => false end.

(** ASCII white space, as [unicode.IsSpace] restricted to one byte. *)
Definition isSpace (c : ascii) : bool :=
  let n := nat_of_ascii c in
  (Nat.eqb n 32 || Nat.eqb n 9 || Nat.eqb n 10 || Nat.eqb n 11
   || Nat.eqb n 12 || Nat.eqb n 13)%bool.

(** Pieces of [s] around the bytes satisfying [sep], empty pieces kept. *)
Fixpoint splitOn (sep : ascii -> bool) (s : string) : list string :=
  match s with
  | EmptyString => [EmptyString]
  | String c r =>
      if sep c then EmptyString :: splitOn sep r
      else match splitOn sep r with
           | p :: ps => String c p :: ps
           | [] => [String c EmptyString]
           end
  end.

(** [strings.Split(s, sep)] for a one-byte separator. *)
Definition Split (s : string) (sep : ascii) : list string :=
  splitOn (Ascii.eqb sep) s.

(** [strings.Fields(s)]. *)
Definition Fields (s : string) : list string :=
  List.filter (fun p => negb (isEmpty p)) (splitOn isSpace s).

Fixpoint trimLeft (s : string) : string :=
  match s with
  | EmptyString => EmptyString
  | String c r => if isSpace c then trimLeft r else s
  end.

Fixpoint trimRight (s : string) : string :=
  match s with
  | EmptyString => EmptyString
  | String c r =>
      let r' := trimRight r in
      if (isSpace c && isEmpty r')%bool then EmptyString else String c r'
  end.

(** [strings.TrimSpace(s)]. *)
Definition TrimSpace (s : string) : string := trimRight (trimLeft s).

Fixpoint mapBytes (f : ascii -> ascii) (s : string) : string :=
  match s with
  | EmptyString => EmptyString
  | String c r => String (f c) (mapBytes f r)
  end.

Definition lowerByte (c : ascii) : ascii :=
  let n := nat_of_ascii c in
  if (Nat.leb 65 n && Nat.leb n 90)%bool then ascii_of_nat (n + 32) else c.

(** [strings.ToLower(s)]. *)
Definition ToLower (s : string) : string := mapBytes lowerByte s.

(** [strings.ReplaceAll(s, old, new)] for one-byte [old] and [new]. *)
Definition ReplaceAll (s : string) (old new : ascii) : string :=
  mapBytes (fun c => if Ascii.eqb c old then new else c) s.

(** [strings.Join(parts, sep)]. *)
Fixpoint Join (parts : list string) (sep : string) : string :=
  match parts with
  | [] => EmptyString
  | [p] => p
  | p :: ps => p +:+ sep +:+ Join ps sep
  end.

(** [strings.Contains(s, sub)]. *)
Fixpoint Contains (s sub : string) : bool :=
  (String.prefix sub s
   || match s with
      | EmptyString => false
      | String _ r => Contains r sub
      end)%bool.

(** [strings.SplitN(s, sep, 2)] for a one-byte separator: cut at the
    first occurrence. *)
Fixpoint cut (s : string) (sep : ascii) : option (string * string) :=
  match s with
  | EmptyString => None
  | String c r =>
      if Ascii.eqb c sep then Some (EmptyString, r)
      else match cut r sep with
           | Some (a, b) => Some (String c a, b)
           | None => None
           end
  end.

Definition SplitN2 (s : string) (sep : ascii) : list string :=
  match cut s sep with
  | Some (a, b) => [a; b]
  | None => [s]
  end.

Definition digitVal (c : ascii) : option Z :=
  let n := nat_of_ascii c in
  if (Nat.leb 48 n && Nat.leb n 57)%bool then Some (Z.of_nat n - 48) else None.

Fixpoint parseDigits (s : string) (acc : Z) : option Z :=
  match s with
  | EmptyString => Some acc
  | String c r =>
      match digitVal c with
      | Some d => parseDigits r (10 * acc + d)
      | None => None
      end
  end.

(** [strconv.Atoi(s)]: an optional sign and at least one decimal digit.
    [None] is the syntax error.  (The range error of Go for values that
    do not fit an [int] is not modelled: the callers reject those values
    by their own range checks.) *)
Definition Atoi (s : string) : option Z :=
  match s with
  | EmptyString => None
  | String c r =>
      if Ascii.eqb c "+" then
        if isEmpty r then None else parseDigits r 0
      else if Ascii.eqb c "-" then
        if isEmpty r then None else option_map Z.opp (parseDigits r 0)
      else parseDigits s 0
  end.

(** [fmt.Sprintf("%d", n)] and [strconv.Itoa(n)]. *)
Definition Itoa (n : Z) : string := NilZero.string_of_int (Z.to_int n).

(** A decimal rendering left-padded with zeros to [width] digits, as
    the [time] layouts print calendar fields (non-negative values). *)
Fixpoint zeros (n : nat) : string :=
  match n with O => EmptyString | S k => String "0" (zeros k) end.

Definition pad (width : nat) (n : Z) : string :=
  let s := Itoa n in
  zeros (width - String.length s) +:+ s.

(** [%q] of [fmt]: the operand between double quotes (the escaping of
    special bytes inside it is not modelled). *)
Definition quote (s : string) : string :=
  String (ascii_of_nat 34) (s +:+ String (ascii_of_nat 34) EmptyString).

End GoStrings.

Import GoStrings.


(* ===================================================================== *)
(** * The [time] package *)
(* ===================================================================== *)

(** A [time.Time]: an instant (nanoseconds since the Unix epoch) and the
    offset of its location in seconds east of UTC.  The location decides
    the calendar fields ([Weekday], [Hour], [Minute]) and the zone that
    [Format] prints; [UTC()] sets the offset to zero. *)
Record Time : Type := mkTime { unixNano : Z; zoneOffset : Z }.

Module GoTime.

Definition Second : Z := 1000000000.
Definition Minute : Z := 60 * Second.
Definition Hour : Z := 60 * Minute.

Definition UnixNano (t : Time) : Z := unixNano t.
Definition UTC (t : Time) : Time := mkTime (unixNano t) 0.
Definition Add (t : Time) (d : Z) : Time := mkTime (unixNano t + d) (zoneOffset t).

(** [t.Truncate(d)] for [d > 0]: rounds the instant down to a multiple of
    [d] since the zero time; the zero time lies a whole number of
    minutes before the Unix epoch, so for [d] dividing a minute that is
    rounding down the Unix time. *)
Definition Truncate (t : Time) (d : Z) : Time :=
  mkTime (unixNano t - unixNano t mod d) (zoneOffset t).

(** Seconds since the epoch on the wall clock of the location. *)
Definition wallSeconds (t : Time) : Z := unixNano t / Second + zoneOffset t.

Definition Weekday (t : Time) : Z := (wallSeconds t / 86400 + 4) mod 7.
Definition HourOf (t : Time) : Z := (wallSeconds t mod 86400) / 3600.
Definition MinuteOf (t : Time) : Z := (wallSeconds t mod 3600) / 60.
Definition SecondOf (t : Time) : Z := wallSeconds t mod 60.

(** Days since the epoch of a proleptic Gregorian date, and back. *)
Definition daysFromCivil (y m d : Z) : Z :=
  let y' := if m <=? 2 then y - 1 else y in
  let era := y' / 400 in
  let yoe := y' - era * 400 in
  let mp := if 2 <? m then m - 3 else m + 9 in
  let doy := (153 * mp + 2) / 5 + d - 1 in
  let doe := yoe * 365 + yoe / 4 - yoe / 100 + doy in
  era * 146097 + doe - 719468.

Definition civilFromDays (days : Z) : Z * Z * Z :=
  let z := days + 719468 in
  let era := z / 146097 in
  let doe := z - era * 146097 in
  let yoe := (doe - doe / 1460 + doe / 36524 - doe / 146096) / 365 in
  let doy := doe - (365 * yoe + yoe / 4 - yoe / 100) in
  let mp := (5 * doy + 2) / 153 in
  let d := doy - (153 * mp + 2) / 5 + 1 in
  let m := if mp <? 10 then mp + 3 else mp - 9 in
  let y := yoe + era * 400 + (if m <=? 2 then 1 else 0) in
  (y, m, d).

(** [time.Date(y, m, d, hh, mm, ss, 0, time.UTC)]. *)
Definition Date (y m d hh mm ss : Z) : Time :=
  mkTime ((daysFromCivil y m d * 86400 + hh * 3600 + mm * 60 + ss) * Second) 0.

(** [t.Format(time.RFC3339)]. *)
Definition FormatRFC3339 (t : Time) : string :=
  let '(y, m, d) := civilFromDays (wallSeconds t / 86400) in
  let zone :=
    if zoneOffset t =? 0 then "Z"
    else
      let mins := Z.quot (zoneOffset t) 60 in
      (if mins <? 0 then "-" else "+")
        +:+ pad 2 (Z.abs mins / 60) +:+ ":" +:+ pad 2 (Z.abs mins mod 60) in
  pad 4 y +:+ "-" +:+ pad 2 m +:+ "-" +:+ pad 2 d +:+ "T"
    +:+ pad 2 (HourOf t) +:+ ":" +:+ pad 2 (MinuteOf t) +:+ ":"
    +:+ pad 2 (SecondOf t) +:+ zone.

End GoTime.

(* ===================================================================== *)
(** * [pkg/api]: the wire types *)
(* ===================================================================== *)

(** [api.Event].  Every call site of [events.NewEvent] passes a
    [map[string]string] as payload; it is kept as an association list. *)
Record Event : Type := mkEvent {
  ev_ID : string;
  ev_Type : string;
  ev_Timestamp : Time;
  ev_Payload : list (string * string)
}.

Record AppDefinition : Type := mkAppDefinition {
  app_ID : string; app_Branch : string; app_Source : string
}.

Record AppsPolicy : Type := mkAppsPolicy { Required : list AppDefinition }.

Record UpdatePolicy : Type := mkUpdatePolicy {
  up_Channel : string;
  up_RebootRequired : bool;
  up_Maintenance : list string
}.

Record Bookmark : Type := mkBookmark { bm_Name : string; bm_URL : string }.

Record BrowserPolicy : Type := mkBrowserPolicy {
  Homepage : string;
  Extensions : list string;
  AllowDevTools : bool;
  ManagedBookmarks : list Bookmark
}.

Record WiFiNetwork : Type := mkWiFiNetwork {
  SSID : string; Passphrase : string; wifi_Security : string;
  Hidden : bool; Metered : bool; EAP : list (string * string)
}.

Record VPNProfile : Type := mkVPNProfile {
  vpn_Name : string; ServiceType : string;
  vpn_Data : list (string * string); Secrets : list (string * string);
  AutoConnect : bool
}.

Record NetworkPolicy : Type := mkNetworkPolicy {
  WiFi : list WiFiNetwork; VPNs : list VPNProfile; VPNDNS : list string
}.

Record SecurityPolicy : Type := mkSecurityPolicy {
  SELinuxEnforce : bool;
  SSHEnabled : bool;
  USBGuard : bool;
  USBGuardRules : list string;
  AllowRootLogin : bool
}.

Record PolicyDocument : Type := mkPolicyDocument {
  pd_Apps : AppsPolicy;
  pd_Updates : UpdatePolicy;
  pd_Browser : BrowserPolicy;
  pd_Network : NetworkPolicy;
  pd_Security : SecurityPolicy
}.

Record PolicyEnvelope : Type := mkPolicyEnvelope {
  env_Version : string;
  env_Signature : string;
  env_Policy : PolicyDocument;
  env_DeviceToken : string
}.

(** [enroll.Credentials]. *)
Record Credentials : Type := mkCredentials {
  cred_DeviceID : string;
  cred_DeviceToken : string;
  cred_Version : string
}.

(** A generic JSON value, for [map[string]any] payloads. *)
#[warnings="-register-all"]
Inductive JSON : Type :=
| JNull
| JBool (b : bool)
| JNumber (n : Z)
| JString (s : string)
| JArray (items : list JSON)
| JObject (fields : list (string * JSON)).

(* ===================================================================== *)
(** * The world outside the process *)
(* ===================================================================== *)

(** What a persisted file holds.  The agent writes its files with
    [json.MarshalIndent] and reads them back with [json.Unmarshal]; the
    bytes of such a file are represented by the document they encode
    ([Json]).  Any other content, the zero-byte file included, is [Text]. *)
Inductive Document : Type :=
| DocEvents (items : list Event)
| DocEnvelope (envelope : PolicyEnvelope)
| DocStored (cred : Credentials) (policy : PolicyEnvelope).

Inductive FileData : Type :=
| Text (s : string)
| Json (d : Document).

Inductive FsOp : Type :=
| OpRead | OpMkdirAll | OpWrite | OpChmod | OpRename | OpRemove.

Global Instance FsOp_eq_dec : EqDecision FsOp.
Proof. solve_decision. Defined.

(** The outcome of a host command: its exit error (if any) and its output,
    either plain text or, for commands asked for JSON, the decoded object
    ([None] when the output is not a JSON object). *)
Record CmdResult : Type := mkCmdResult {
  cr_err : option error;
  cr_text : string;
  cr_json : option JSON
}.

(** What the process did to the host, in order: the commands it ran and the
    policy adapters it invoked. *)
Inductive Adapter : Type :=
| AdApps | AdBrowser | AdUpdates | AdNetwork | AdSecurity.

Global Instance Adapter_eq_dec : EqDecision Adapter.
Proof. solve_decision. Defined.

Inductive Effect : Type :=
| EffExec (argv : list string)
| EffAdapter (a : Adapter).

Record World : Type := mkWorld {
  (** the wall clock: the reading, in nanoseconds since the epoch, of the
      n-th call of [time.Now] *)
  w_clock : nat -> Z;
  w_ticks : nat;
  (** offset of the local time zone, seconds east of UTC *)
  w_zone : Z;
  (** regular files by path *)
  w_files : gmap string FileData;
  (** file-system operations that fail: operation and path *)
  w_faults : list (FsOp * string);
  (** executables that [exec.LookPath] finds *)
  w_bins : list string;
  (** outcome of running a command, given how many effects came before *)
  w_host : nat -> list string -> CmdResult;
  w_trace : list Effect
}.

Definition set_files (f : gmap string FileData) (w : World) : World :=
  mkWorld (w_clock w) (w_ticks w) (w_zone w) f (w_faults w) (w_bins w)
          (w_host w) (w_trace w).

Definition set_ticks (n : nat) (w : World) : World :=
  mkWorld (w_clock w) n (w_zone w) (w_files w) (w_faults w) (w_bins w)
          (w_host w) (w_trace w).

Definition set_trace (t : list Effect) (w : World) : World :=
  mkWorld (w_clock w) (w_ticks w) (w_zone w) (w_files w) (w_faults w)
          (w_bins w) (w_host w) t.

(** ** The state monad over the world *)

Definition M (A : Type) : Type := World -> A * World.

Definition ret {A} (a : A) : M A := fun w => (a, w).

Definition bind {A B} (c : M A) (k : A -> M B) : M B :=
  fun w => let '(a, w') := c w in k a w'.

Declare Scope go_scope.
Delimit Scope go_scope with go.
Notation "'let*' x ':=' c 'in' k" := (bind c (fun x => k))
  (at level 10, x name, c at level 100, k at level 200) : go_scope.
Notation "'let*' ' p ':=' c 'in' k" := (bind c (fun x => match x with p => k end))
  (at level 10, p pattern, c at level 100, k at level 200) : go_scope.
Open Scope go_scope.

Inductive result (A : Type) : Type :=
| Ok (a : A)
| Fail (e : error).
Arguments Ok {A} a.
Arguments Fail {A} e.

(** ** Primitive effects *)

Module Host.

Definition faulty (op : FsOp) (path : string) (w : World) : bool :=
  bool_decide ((op, path) ∈ w_faults w).

(** [time.Now()]. *)
Definition Now : M Time :=
  fun w => (mkTime (w_clock w (w_ticks w)) (w_zone w),
            set_ticks (S (w_ticks w)) w).

(** [os.ReadFile(path)]. *)
Definition ReadFile (path : string) : M (result FileData) :=
  fun w =>
    if faulty OpRead path w then (Fail (ErrMsg "read: permission denied"), w)
    else match w_files w !! path with
         | Some d => (Ok d, w)
         | None => (Fail (ErrWrap "open: " ErrNotExist EmptyString), w)
         end.

(** [os.WriteFile(path, data, perm)]. *)
Definition WriteFile (path : string) (data : FileData) : M (option error) :=
  fun w =>
    if faulty OpWrite path w then (Some (ErrMsg "write: permission denied"), w)
    else (None, set_files (<[path := data]> (w_files w)) w).

(** [os.Chmod(path, perm)]. *)
Definition Chmod (path : string) : M (option error) :=
  fun w =>
    if faulty OpChmod path w then (Some (ErrMsg "chmod: operation not permitted"), w)
    else match w_files w !! path with
         | Some _ => (None, w)
         | None => (Some (ErrWrap "chmod: " ErrNotExist EmptyString), w)
         end.

(** [os.Rename(old, new)]. *)
Definition Rename (old new : string) : M (option error) :=
  fun w =>
    if faulty OpRename old w then (Some (ErrMsg "rename: permission denied"), w)
    else match w_files w !! old with
         | Some d => (None, set_files (<[new := d]> (delete old (w_files w))) w)
         | None => (Some (ErrWrap "rename: " ErrNotExist EmptyString), w)
         end.

(** [os.Remove(path)]. *)
Definition Remove (path : string) : M (option error) :=
  fun w =>
    if faulty OpRemove path w then (Some (ErrMsg "remove: permission denied"), w)
    else match w_files w !! path with
         | Some _ => (None, set_files (delete path (w_files w)) w)
         | None => (Some (ErrWrap "remove: " ErrNotExist EmptyString), w)
         end.

(** [os.MkdirAll(dir, perm)]; directories are not tracked. *)
Definition MkdirAll (dir : string) : M (option error) :=
  fun w =>
    if faulty OpMkdirAll dir w then (Some (ErrMsg "mkdir: permission denied"), w)
    else (None, w).

(** [exec.LookPath(name)]. *)
Definition LookPath (name : string) : M (option error) :=
  fun w =>
    if bool_decide (name ∈ w_bins w) then (None, w)
    else (Some (ErrMsg "executable file not found in $PATH"), w).

(** Running a command to completion ([cmd.Run], [cmd.Output],
    [cmd.CombinedOutput]). *)
Definition Run (argv : list string) : M CmdResult :=
  fun w => (w_host w (length (w_trace w)) argv,
            set_trace (w_trace w ++ [EffExec argv]) w).

(** [filepath.Dir(path)] on slash-separated paths that are already
    clean: everything before the last slash. *)
Fixpoint dirAux (s : string) : option string :=
  match s with
  | EmptyString => None
  | String c r =>
      match dirAux r with
      | Some d => Some (String c d)
      | None => if Ascii.eqb c "/" then Some EmptyString else None
      end
  end.

Definition Dir (path : string) : string :=
  match dirAux path with
  | None => "."
  | Some EmptyString => "/"
  | Some d => d
  end.

End Host.

(* ===================================================================== *)
(** * [internal/util]: directories and secret files *)
(* ===================================================================== *)

Module Util.

(** [EnsureDir(path, perm)]. *)
Definition EnsureDir (path : string) : M (option error) :=
  if isEmpty path then ret (Some (ErrMsg "path cannot be empty"))
  else
    let* r := Host.MkdirAll path in
    match r with
    | Some e => ret (Some (ErrWrap ("create dir " +:+ path +:+ ": ") e EmptyString))
    | None => ret None
    end.

(** [EnsureParentDir(filePath, perm)]. *)
Definition EnsureParentDir (filePath : string) : M (option error) :=
  let dir := Host.Dir filePath in
  if (String.eqb dir "." || isEmpty dir)%bool then ret None
  else EnsureDir dir.

(** [WriteSecretFile(path, data)]. *)
Definition WriteSecretFile (path : string) (data : FileData) : M (option error) :=
  if isEmpty path then ret (Some (ErrMsg "path cannot be empty"))
  else
    let* r := EnsureParentDir path in
    match r with
    | Some e => ret (Some e)
    | None =>
        let tmpFile := path +:+ ".tmp" in
        let* r := Host.WriteFile tmpFile data in
        match r with
        | Some e => ret (Some (ErrWrap "write temp secret: " e EmptyString))
        | None =>
            let* r := Host.Chmod tmpFile in
            match r with
            | Some e => ret (Some (ErrWrap "chmod temp secret: " e EmptyString))
            | None =>
                let* r := Host.Rename tmpFile path in
                match r with
                | Some e => ret (Some (ErrWrap "rename secret: " e EmptyString))
                | None => ret None
                end
            end
        end
    end.

(** [ReadSecretFile(path)]. *)
Definition ReadSecretFile (path : string) : M (result FileData) :=
  Host.ReadFile path.

End Util.

(* ===================================================================== *)
(** * [internal/events]: the durable event queue *)
(* ===================================================================== *)

Module Events.

(** [Queue]: the path of its file (the mutex serialises callers and has
    no state of its own). *)
Record Queue : Type := mkQueue { path : string }.

Definition NewQueue (p : string) : Queue := mkQueue p.

(** [json.Unmarshal(data, &events)] on the content of a file. *)
Definition unmarshalEvents (data : FileData) : result (list Event) :=
  match data with
  | Json (DocEvents items) => Ok items
  | Json _ => Fail (ErrMsg "json: cannot unmarshal object into Go value of type []api.Event")
  | Text _ => Fail (ErrMsg "invalid character looking for beginning of value")
  end.

Definition isZeroBytes (data : FileData) : bool :=
  match data with
  | Text s => isEmpty s
  | Json _ => false
  end.

(** [Queue.Load]. *)
Definition Load (q : Queue) : M (result (list Event)) :=
  let* r := Host.ReadFile (path q) in
  match r with
  | Fail err =>
      if GoErrors.IsNotExist err then ret (Ok [])
      else ret (Fail (ErrWrap "read events: " err EmptyString))
  | Ok data =>
      if isZeroBytes data then ret (Ok [])
      else match unmarshalEvents data with
           | Fail err => ret (Fail (ErrWrap "decode events: " err EmptyString))
           | Ok events => ret (Ok events)
           end
  end.

(** [Queue.readLocked]. *)
Definition readLocked (q : Queue) : M (result (list Event)) :=
  let* r := Host.ReadFile (path q) in
  match r with
  | Fail err =>
      if GoErrors.IsNotExist err then ret (Ok [])
      else ret (Fail (ErrWrap "read events: " err EmptyString))
  | Ok data =>
      if isZeroBytes data then ret (Ok [])
      else match unmarshalEvents data with
           | Fail err => ret (Fail (ErrWrap "decode events: " err EmptyString))
           | Ok events => ret (Ok events)
           end
  end.

(** [Queue.writeLocked]. *)
Definition writeLocked (q : Queue) (events : list Event) : M (option error) :=
  let data := Json (DocEvents events) in
  let* r := Util.EnsureParentDir (path q) in
  match r with
  | Some err => ret (Some err)
  | None =>
      let tmpPath := path q +:+ ".tmp" in
      let* r := Host.WriteFile tmpPath data in
      match r with
      | Some err => ret (Some (ErrWrap "write temp events: " err EmptyString))
      | None =>
          let* r := Host.Rename tmpPath (path q) in
          match r with
          | Some err => ret (Some (ErrWrap "rename events: " err EmptyString))
          | None => ret None
          end
      end
  end.

(** [Queue.Append]. *)
Definition Append (q : Queue) (events : list Event) : M (option error) :=
  match events with
  | [] => ret None
  | _ =>
      let* r := readLocked q in
      match r with
      | Fail err => ret (Some err)
      | Ok existing => writeLocked q (existing ++ events)
      end
  end.

(** [Queue.Replace]. *)
Definition Replace (q : Queue) (events : list Event) : M (option error) :=
  writeLocked q events.

(** [NewEvent(eventType, payload)]: the id is the first clock reading in
    decimal, the timestamp is a second reading, in UTC. *)
Definition NewEvent (eventType : string) (payload : list (string * string)) : M Event :=
  let* t1 := Host.Now in
  let* t2 := Host.Now in
  ret (mkEvent (Itoa (GoTime.UnixNano t1)) eventType (GoTime.UTC t2) payload).

End Events.

(* ===================================================================== *)
(** * [internal/config] *)
(* ===================================================================== *)

Module Config.

Record Enrollment : Type := mkEnrollment {
  PreSharedKey : string;
  ConfigPath : string
}.

(** A [Duration] is its number of nanoseconds. *)
Record Intervals : Type := mkIntervals {
  PolicyPoll : Z;
  StateReport : Z;
  EventFlush : Z;
  RetryBackoff : Z;
  RetryMaxDelay : Z
}.

Record Logging : Type := mkLogging { Level : string }.

(** [Config].  The struct in [config.go] declares no [StateQueuePath];
    the field is here because [agent.New] reads [cfg.StateQueuePath] and
    the sample configuration and the loader's test carry the key
    [state_queue_path]. *)
Record Config : Type := mkConfig {
  BackendURL : string;
  DeviceTokenPath : string;
  PolicyCachePath : string;
  EventQueuePath : string;
  StateQueuePath : string;
  PolicyPublicKey : string;
  Enrollment_ : Enrollment;
  Intervals_ : Intervals;
  Logging_ : Logging
}.

(** [Config.Validate]. *)
Definition Validate (c : Config) : option error :=
  if isEmpty (BackendURL c) then Some (ErrMsg "backend_url is required")
  else if isEmpty (DeviceTokenPath c) then Some (ErrMsg "device_token_path is required")
  else if isEmpty (PolicyCachePath c) then Some (ErrMsg "policy_cache_path is required")
  else if isEmpty (EventQueuePath c) then Some (ErrMsg "event_queue_path is required")
  else if isEmpty (PolicyPublicKey c) then Some (ErrMsg "policy_public_key is required")
  else if PolicyPoll (Intervals_ c) =? 0 then Some (ErrMsg "intervals.policy_poll must be >0")
  else if StateReport (Intervals_ c) =? 0 then Some (ErrMsg "intervals.state_report must be >0")
  else if EventFlush (Intervals_ c) =? 0 then Some (ErrMsg "intervals.event_flush must be >0")
  else None.

End Config.

(* ===================================================================== *)
(** * [internal/updates]: maintenance windows *)
(* ===================================================================== *)

Module Updates.

Definition minutesPerDay : Z := 24 * 60.
Definition minutesPerWeek : Z := 7 * minutesPerDay.

Record maintenanceWindowSegment : Type := mkSegment {
  seg_start : Z;
  seg_end : Z
}.

(** [weekdayLookup]; [time.Sunday] is 0. *)
Definition weekdayLookup : list (string * Z) :=
  [ ("sun", 0); ("sunday", 0);
    ("mon", 1); ("monday", 1);
    ("tue", 2); ("tues", 2); ("tuesday", 2);
    ("wed", 3); ("weds", 3); ("wednesday", 3);
    ("thu", 4); ("thur", 4); ("thurs", 4); ("thursday", 4);
    ("fri", 5); ("friday", 5);
    ("sat", 6); ("saturday", 6) ].

Fixpoint assoc {A} (k : string) (l : list (string * A)) : option A :=
  match l with
  | [] => None
  | (k', v) :: r => if String.eqb k k' then Some v else assoc k r
  end.

Definition parseWeekday (token : string) : result Z :=
  match assoc (ToLower token) weekdayLookup with
  | Some day => Ok day
  | None => Fail (ErrMsg ("invalid weekday " +:+ quote token))
  end.

(** [parseClock]: the duration since midnight, in nanoseconds. *)
Definition parseClock (value : string) : result Z :=
  match Split value ":" with
  | [h; m] =>
      match Atoi h with
      | None => Fail (ErrMsg ("invalid hour " +:+ quote h))
      | Some hour =>
          if (hour <? 0) || (23 <? hour) then Fail (ErrMsg ("invalid hour " +:+ quote h))
          else match Atoi m with
               | None => Fail (ErrMsg ("invalid minute " +:+ quote m))
               | Some minute =>
                   if (minute <? 0) || (59 <? minute)
                   then Fail (ErrMsg ("invalid minute " +:+ quote m))
                   else Ok (hour * GoTime.Hour + minute * GoTime.Minute)
               end
      end
  | _ => Fail (ErrMsg ("invalid time value " +:+ quote value))
  end.

Definition parseTimeRange (value : string) : result (Z * Z) :=
  match Split value "-" with
  | [a; b] =>
      match parseClock a with
      | Fail err => Fail err
      | Ok start =>
          match parseClock b with
          | Fail err => Fail err
          | Ok end_ => Ok (start, end_)
          end
      end
  | _ => Fail (ErrMsg ("invalid time range " +:+ quote value))
  end.

Definition seen (days : list Z) (wd : Z) : bool := bool_decide (wd ∈ days).

(** The loop [for i := 0; i < 7; i++] of a day range, from iteration
    [7 - fuel] on. *)
Fixpoint rangeDays (fuel : nat) (i start end_ : Z) (days : list Z) : list Z :=
  match fuel with
  | O => days
  | S fuel' =>
      let day := (start + i) mod 7 in
      let days' := if seen days day then days else days ++ [day] in
      if day =? end_ then days' else rangeDays fuel' (i + 1) start end_ days'
  end.

Fixpoint parseDayTokens (tokens : list string) (days : list Z) : result (list Z) :=
  match tokens with
  | [] => Ok days
  | token0 :: rest =>
      let token := TrimSpace token0 in
      if isEmpty token then parseDayTokens rest days
      else if Contains token "-" then
        match SplitN2 token "-" with
        | [lo; hi] =>
            match parseWeekday lo with
            | Fail err => Fail err
            | Ok start =>
                match parseWeekday hi with
                | Fail err => Fail err
                | Ok end_ => parseDayTokens rest (rangeDays 7 0 start end_ days)
                end
            end
        | _ => Fail (ErrMsg ("invalid day range " +:+ quote token))
        end
      else
        match parseWeekday token with
        | Fail err => Fail err
        | Ok day =>
            parseDayTokens rest (if seen days day then days else days ++ [day])
        end
  end.

(** [parseDays]; the empty list is Go's [nil]: every day. *)
Definition parseDays (value : string) : result (list Z) :=
  let trimmed := TrimSpace value in
  if (isEmpty trimmed || String.eqb trimmed "*")%bool then Ok []
  else parseDayTokens (Split (ReplaceAll trimmed " " ",") ",") [].

Fixpoint segmentsFor (days : list Z) (minutesStart minutesEnd : Z)
  : list maintenanceWindowSegment :=
  match days with
  | [] => []
  | day :: rest =>
      let base := day * minutesPerDay in
      let here :=
        if minutesStart =? minutesEnd then [mkSegment base (base + minutesPerDay)]
        else if minutesStart <? minutesEnd
             then [mkSegment (base + minutesStart) (base + minutesEnd)]
             else
               let nextDay := (day + 1) mod 7 in
               [mkSegment (base + minutesStart) (base + minutesPerDay);
                mkSegment (nextDay * minutesPerDay) (nextDay * minutesPerDay + minutesEnd)] in
      here ++ segmentsFor rest minutesStart minutesEnd
  end.

Definition buildSegments (days : list Z) (start end_ : Z)
  : list maintenanceWindowSegment :=
  let minutesStart := Z.quot start GoTime.Minute in
  let minutesEnd := Z.quot end_ GoTime.Minute in
  let days := match days with
              | [] => [0; 1; 2; 3; 4; 5; 6]
              | _ => days
              end in
  segmentsFor days minutesStart minutesEnd.

Definition parseMaintenanceWindow (entry : string)
  : result (list maintenanceWindowSegment) :=
  let parts := Fields entry in
  match List.rev parts with
  | [] => Fail (ErrMsg "maintenance window entry empty")
  | timePart :: revDays =>
      match parseTimeRange timePart with
      | Fail err =>
          Fail (ErrWrap ("parse maintenance window " +:+ quote entry +:+ ": ") err EmptyString)
      | Ok (start, end_) =>
          match revDays with
          | [] => Ok (buildSegments [] start end_)
          | _ =>
              match parseDays (Join (List.rev revDays) " ") with
              | Fail err =>
                  Fail (ErrWrap ("parse maintenance window " +:+ quote entry +:+ ": ")
                                err EmptyString)
              | Ok days => Ok (buildSegments days start end_)
              end
          end
      end
  end.

Fixpoint parseLoop (entries : list string) (segments : list maintenanceWindowSegment)
  : result (list maintenanceWindowSegment) :=
  match entries with
  | [] => Ok segments
  | entry :: rest =>
      let trimmed := TrimSpace entry in
      if isEmpty trimmed then parseLoop rest segments
      else match parseMaintenanceWindow trimmed with
           | Fail err => Fail err
           | Ok parsed => parseLoop rest (segments ++ parsed)
           end
  end.

Definition parseMaintenanceWindows (entries : list string)
  : result (list maintenanceWindowSegment) :=
  parseLoop entries [].

Definition minuteOfWeek (t : Time) : Z :=
  let tt := GoTime.Truncate t GoTime.Minute in
  GoTime.Weekday tt * minutesPerDay + GoTime.HourOf tt * 60 + GoTime.MinuteOf tt.

Definition inSegment (minute : Z) (seg : maintenanceWindowSegment) : bool :=
  (seg_start seg <=? minute) && (minute <? seg_end seg).

Definition maintenanceAllowsNow (segments : list maintenanceWindowSegment) (now : Time) : bool :=
  match segments with
  | [] => true
  | _ => existsb (inSegment (minuteOfWeek now)) segments
  end.

Definition segmentDelta (minute : Z) (seg : maintenanceWindowSegment) : Z :=
  let start := seg_start seg in
  if minute <? start then start - minute else minutesPerWeek - minute + start.

Fixpoint bestDeltaLoop (minute : Z) (segments : list maintenanceWindowSegment)
                       (bestDelta : Z) : Z :=
  match segments with
  | [] => bestDelta
  | seg :: rest =>
      let delta := segmentDelta minute seg in
      if delta =? 0 then bestDeltaLoop minute rest bestDelta
      else if delta <? bestDelta then bestDeltaLoop minute rest delta
      else bestDeltaLoop minute rest bestDelta
  end.

Definition nextMaintenanceWindow (segments : list maintenanceWindowSegment) (now : Time)
  : option Time :=
  match segments with
  | [] => None
  | _ =>
      let base := GoTime.Truncate now GoTime.Minute in
      let minute := minuteOfWeek base in
      let bestDelta := bestDeltaLoop minute segments (minutesPerWeek * 2) in
      if bestDelta =? minutesPerWeek * 2 then None
      else Some (GoTime.Add base (bestDelta * GoTime.Minute))
  end.

(** ** The rpm-ostree status *)

Record Status : Type := mkStatus {
  Channel : string;
  State : string;
  RebootRequired : bool;
  NeedsRollback : bool;
  RollbackTarget : string;
  BootedChecksum : string
}.

Definition set_Channel (v : string) (s : Status) : Status :=
  mkStatus v (State s) (RebootRequired s) (NeedsRollback s) (RollbackTarget s) (BootedChecksum s).
Definition set_State (v : string) (s : Status) : Status :=
  mkStatus (Channel s) v (RebootRequired s) (NeedsRollback s) (RollbackTarget s) (BootedChecksum s).
Definition set_RebootRequired (v : bool) (s : Status) : Status :=
  mkStatus (Channel s) (State s) v (NeedsRollback s) (RollbackTarget s) (BootedChecksum s).
Definition set_NeedsRollback (v : bool) (s : Status) : Status :=
  mkStatus (Channel s) (State s) (RebootRequired s) v (RollbackTarget s) (BootedChecksum s).
Definition set_RollbackTarget (v : string) (s : Status) : Status :=
  mkStatus (Channel s) (State s) (RebootRequired s) (NeedsRollback s) v (BootedChecksum s).
Definition set_BootedChecksum (v : string) (s : Status) : Status :=
  mkStatus (Channel s) (State s) (RebootRequired s) (NeedsRollback s) (RollbackTarget s) v.

(** [m[key]] on a decoded JSON object (keys are distinct). *)
Definition field (m : list (string * JSON)) (key : string) : option JSON := assoc key m.

(** [m[key].(bool)] with its [ok]. *)
Definition boolField (m : list (string * JSON)) (key : string) : option bool :=
  match field m key with
  | Some (JBool b) => Some b
  | _ => None
  end.

(** [m[key].(map[string]any)] with its [ok]. *)
Definition objectField (m : list (string * JSON)) (key : string)
  : option (list (string * JSON)) :=
  match field m key with
  | Some (JObject f) => Some f
  | _ => None
  end.

Definition stringValue (m : list (string * JSON)) (key : string) : string :=
  match field m key with
  | Some (JString value) => value
  | _ => EmptyString
  end.

Fixpoint firstWith (parts : list string) (sub : string) : option string :=
  match parts with
  | [] => None
  | p :: r => if Contains p sub then Some p else firstWith r sub
  end.

Definition extractChannel (origin : string) : string :=
  if isEmpty origin then EmptyString
  else match firstWith (Fields origin) ":" with
       | Some p => p
       | None => origin
       end.

Definition deploymentNeedsRollback (dep : list (string * JSON)) : bool :=
  if bool_decide (boolField dep "unbootable" = Some true) then true
  else if bool_decide (boolField dep "rollback" = Some true) then true
  else
    let state := ToLower (stringValue dep "state") in
    if (negb (isEmpty state) && (Contains state "rollback" || Contains state "error"))%bool
    then true
    else
      let health := ToLower (stringValue dep "health") in
      if (negb (isEmpty health) && Contains health "degraded")%bool then true
      else match objectField dep "metadata" with
           | Some meta =>
               if bool_decide (boolField meta "ostree.boot-success" = Some false) then true
               else
                 let health := ToLower (stringValue meta "health") in
                 (negb (isEmpty health) && Contains health "degraded")%bool
           | None => false
           end.

(** One iteration of the first loop over the deployments. *)
Definition deploymentStep (status : Status) (raw : JSON) : Status :=
  match raw with
  | JObject dep =>
      let booted := bool_decide (boolField dep "booted" = Some true) in
      let origin := stringValue dep "origin" in
      let status :=
        if (negb (isEmpty origin) && isEmpty (Channel status))%bool
        then set_Channel (extractChannel origin) status else status in
      let checksum := stringValue dep "checksum" in
      let status :=
        if negb (isEmpty checksum) then
          if booted then set_BootedChecksum checksum status
          else if isEmpty (RollbackTarget status) then set_RollbackTarget checksum status
          else status
        else status in
      let status :=
        if bool_decide (boolField dep "staged" = Some true)
        then set_State "staged" status else status in
      if booted then
        let state := stringValue dep "state" in
        let status := if negb (isEmpty state) then set_State (ToLower state) status
                      else status in
        if deploymentNeedsRollback dep then set_NeedsRollback true status else status
      else status
  | _ => status
  end.

(** The second loop: the first non-booted deployment whose checksum is
    not the booted one. *)
Fixpoint fallbackTarget (deployments : list JSON) (bootedChecksum : string) : option string :=
  match deployments with
  | [] => None
  | JObject dep :: rest =>
      if bool_decide (boolField dep "booted" = Some true)
      then fallbackTarget rest bootedChecksum
      else
        let checksum := stringValue dep "checksum" in
        if (negb (isEmpty checksum) && negb (String.eqb checksum bootedChecksum))%bool
        then Some checksum
        else fallbackTarget rest bootedChecksum
  | _ :: rest => fallbackTarget rest bootedChecksum
  end.

(** [parseStatus]; [None] is the nil map. *)
Definition parseStatus (payload : option (list (string * JSON))) : Status :=
  let status := mkStatus EmptyString "idle" false false EmptyString EmptyString in
  match payload with
  | None => status
  | Some payload =>
      let status :=
        match boolField payload "reboot-required" with
        | Some reboot =>
            let status := set_RebootRequired reboot status in
            if reboot then set_State "reboot_required" status else status
        | None => status
        end in
      let status :=
        match field payload "deployments" with
        | Some (JArray deployments) => fold_left deploymentStep deployments status
        | _ => status
        end in
      let status :=
        match objectField payload "transaction" with
        | Some trans =>
            let kind := stringValue trans "kind" in
            let status := if negb (isEmpty kind) then set_State (ToLower kind) status
                          else status in
            if Contains (ToLower (stringValue trans "state")) "fail"
            then set_NeedsRollback true status else status
        | None => status
        end in
      let status :=
        if (NeedsRollback status && isEmpty (RollbackTarget status))%bool then
          match field payload "deployments" with
          | Some (JArray deployments) =>
              match fallbackTarget deployments (BootedChecksum status) with
              | Some checksum => set_RollbackTarget checksum status
              | None => status
              end
          | _ => status
          end
        else status in
      if isEmpty (State status) then set_State "idle" status else status
  end.

(** ** The update manager *)

(** [Manager]: the sticky rollback identifier, the time source and the
    reboot command (the logger and the mutex carry no state). *)
Record Manager : Type := mkManager {
  lastRollbackAttempt : string;
  now : M Time;
  rebootCommand : list string
}.

Definition NewManager : Manager :=
  mkManager EmptyString Host.Now ["systemctl"; "reboot"].

Definition set_lastRollbackAttempt (v : string) (m : Manager) : Manager :=
  mkManager v (now m) (rebootCommand m).

Record Result : Type := mkResult {
  res_Status : string;
  res_RebootRequired : bool;
  res_Events : list Event
}.

Definition add_Event (e : Event) (r : Result) : Result :=
  mkResult (res_Status r) (res_RebootRequired r) (res_Events r ++ [e]).

Definition statusOnly (state : string) : Status :=
  mkStatus EmptyString state false false EmptyString EmptyString.

(** [Manager.fetchStatus]. *)
Definition fetchStatus : M (Status * option (list (string * JSON)) * option error) :=
  let* lp := Host.LookPath "rpm-ostree" in
  match lp with
  | Some err =>
      ret (statusOnly "unavailable", None,
           Some (ErrWrap "rpm-ostree not available: " err EmptyString))
  | None =>
      let* out := Host.Run ["rpm-ostree"; "status"; "--json"] in
      match cr_err out with
      | Some err =>
          ret (statusOnly "error", None, Some (ErrWrap "rpm-ostree status: " err EmptyString))
      | None =>
          match cr_json out with
          | Some (JObject payload) => ret (parseStatus (Some payload), Some payload, None)
          | Some JNull => ret (parseStatus None, None, None)
          | _ =>
              ret (statusOnly "error", None,
                   Some (ErrWrap "parse rpm-ostree status: "
                                 (ErrMsg "json: cannot unmarshal") EmptyString))
          end
      end
  end.

(** [Manager.rebase]. *)
Definition rebase (channel : string) : M (option error) :=
  let* lp := Host.LookPath "rpm-ostree" in
  match lp with
  | Some err => ret (Some (ErrWrap "rpm-ostree not available: " err EmptyString))
  | None =>
      let* out := Host.Run ["rpm-ostree"; "rebase"; channel] in
      match cr_err out with
      | Some err =>
          ret (Some (ErrWrap ("rpm-ostree rebase " +:+ channel +:+ ": ") err
                             (" (" +:+ cr_text out +:+ ")")))
      | None => ret None
      end
  end.

(** [Manager.triggerReboot]. *)
Definition triggerReboot (m : Manager) : M (option error) :=
  match rebootCommand m with
  | [] => ret (Some (ErrMsg "no reboot command configured"))
  | cmd0 :: args =>
      let* lp := Host.LookPath cmd0 in
      match lp with
      | Some err => ret (Some (ErrWrap "reboot command not available: " err EmptyString))
      | None =>
          let* out := Host.Run (cmd0 :: args) in
          match cr_err out with
          | Some err =>
              ret (Some (ErrWrap "reboot command failed: " err
                                 (" (" +:+ TrimSpace (cr_text out) +:+ ")")))
          | None => ret None
          end
      end
  end.

(** [Manager.Apply]. *)
Definition Apply (m : Manager) (policy : UpdatePolicy) : M (Result * option error) :=
  let* '(status, _, err) := fetchStatus in
  match err with
  | Some err => ret (mkResult "unavailable" false [], Some err)
  | None =>
      let result := mkResult (State status) (RebootRequired status) [] in
      match parseMaintenanceWindows (up_Maintenance policy) with
      | Fail err =>
          let* ev := Events.NewEvent "update.reboot.failure" [("error", GoErrors.Error err)] in
          ret (add_Event ev result, Some err)
      | Ok windows =>
          let* rebased :=
            if (negb (isEmpty (up_Channel policy))
                && negb (String.eqb (Channel status) (up_Channel policy)))%bool
            then
              let* r := rebase (up_Channel policy) in
              match r with
              | Some err =>
                  let* ev := Events.NewEvent "update.apply.failure"
                               [("channel", up_Channel policy); ("error", GoErrors.Error err)] in
                  ret (add_Event ev result, Some err)
              | None =>
                  let* ev := Events.NewEvent "update.apply.success"
                               [("channel", up_Channel policy)] in
                  let result := add_Event ev result in
                  let* '(fresh, _, ferr) := fetchStatus in
                  match ferr with
                  | None =>
                      ret (mkResult (State fresh) (RebootRequired fresh) (res_Events result),
                           None)
                  | Some _ => ret (result, None)
                  end
              end
            else ret (result, None) in
          match rebased with
          | (result, Some err) => ret (result, Some err)
          | (result, None) =>
              if (up_RebootRequired policy && res_RebootRequired result)%bool then
                let* now := now m in
                if maintenanceAllowsNow windows now then
                  let* r := triggerReboot m in
                  match r with
                  | Some err =>
                      let* ev := Events.NewEvent "update.reboot.failure"
                                   [("error", GoErrors.Error err)] in
                      ret (add_Event ev result, Some err)
                  | None =>
                      let* ev := Events.NewEvent "update.reboot.triggered"
                                   [("time", GoTime.FormatRFC3339 now)] in
                      ret (add_Event ev result, None)
                  end
                else
                  match nextMaintenanceWindow windows now with
                  | Some next =>
                      let* ev := Events.NewEvent "update.reboot.deferred"
                                   [("scheduled_for", GoTime.FormatRFC3339 next)] in
                      ret (add_Event ev result, None)
                  | None =>
                      let* ev := Events.NewEvent "update.reboot.deferred"
                                   [("reason", "no_window")] in
                      ret (add_Event ev result, None)
                  end
              else ret (result, None)
          end
      end
  end.

(** [Manager.rollback]. *)
Definition rollback : M (option error) :=
  let* lp := Host.LookPath "rpm-ostree" in
  match lp with
  | Some err => ret (Some (ErrWrap "rpm-ostree not available: " err EmptyString))
  | None =>
      let* out := Host.Run ["rpm-ostree"; "rollback"] in
      match cr_err out with
      | Some err =>
          ret (Some (ErrWrap "rpm-ostree rollback: " err
                             (" (" +:+ TrimSpace (cr_text out) +:+ ")")))
      | None => ret None
      end
  end.

(** [Manager.rollbackRequested]. *)
Definition rollbackRequested : M (bool * option error) :=
  let* lp := Host.LookPath "systemctl" in
  match lp with
  | Some _ => ret (false, None)
  | None =>
      let* out := Host.Run ["systemctl"; "is-active"; "--quiet"; "rollback.target"] in
      match cr_err out with
      | Some err =>
          if bool_decide (GoErrors.AsExit err = Some 3) then ret (false, None)
          else ret (false, Some (ErrWrap "systemctl is-active rollback.target: " err
                                         EmptyString))
      | None => ret (true, None)
      end
  end.

(** [Manager.EnsureRollback]; the manager it returns carries the
    updated [lastRollbackAttempt]. *)
Definition EnsureRollback (m : Manager) : M (list Event * option error * Manager) :=
  let* '(status, _, err) := fetchStatus in
  match err with
  | Some err => ret ([], Some err, m)
  | None =>
      let* needsRollback :=
        if NeedsRollback status then ret true
        else
          let* '(pending, derr) := rollbackRequested in
          match derr with
          | Some _ => ret false
          | None => ret pending
          end in
      if negb needsRollback then ret ([], None, set_lastRollbackAttempt EmptyString m)
      else
        let identifier :=
          if isEmpty (BootedChecksum status) then Channel status
          else BootedChecksum status in
        if (negb (isEmpty identifier) && String.eqb identifier (lastRollbackAttempt m))%bool
        then ret ([], None, m)
        else
          let m := set_lastRollbackAttempt identifier m in
          let* r := rollback in
          match r with
          | Some err =>
              let* event := Events.NewEvent "update.rollback.failure"
                              [("error", GoErrors.Error err)] in
              ret ([event], Some err, m)
          | None =>
              let payload :=
                if negb (isEmpty (RollbackTarget status))
                then [("target", RollbackTarget status)] else [] in
              let* event := Events.NewEvent "update.rollback.triggered" payload in
              ret ([event], None, m)
          end
  end.

End Updates.

(* ===================================================================== *)
(** * [internal/security] *)
(* ===================================================================== *)

Module Security.

Record Manager : Type := mkManager { usbGuardRulesPath : string }.

Definition NewManager : Manager := mkManager "/etc/usbguard/rules.conf".

(** [len(current) > 0 && current[0] == should]. *)
Definition firstByteIs (data : FileData) (should : ascii) : bool :=
  match data with
  | Text (String c _) => Ascii.eqb c should
  | _ => false
  end.

(** [Manager.ensureSELinux]. *)
Definition ensureSELinux (enforce : bool) : M (option error) :=
  let path := "/sys/fs/selinux/enforce" in
  let* r := Host.ReadFile path in
  match r with
  | Fail err => ret (Some (ErrWrap "read selinux enforce: " err EmptyString))
  | Ok current =>
      let should := if enforce then "1"%char else "0"%char in
      if firstByteIs current should then ret None
      else
        let* lp := Host.LookPath "setenforce" in
        match lp with
        | Some err => ret (Some (ErrWrap "setenforce not available: " err EmptyString))
        | None =>
            let mode := if enforce then "1" else "0" in
            let* out := Host.Run ["setenforce"; mode] in
            match cr_err out with
            | Some err =>
                ret (Some (ErrWrap ("setenforce " +:+ mode +:+ ": ") err
                                   (" (" +:+ TrimSpace (cr_text out) +:+ ")")))
            | None => ret None
            end
        end
  end.

(** [Manager.toggleService]. *)
Definition toggleService (service : string) (enable : bool) : M (option error) :=
  let* lp := Host.LookPath "systemctl" in
  match lp with
  | Some err => ret (Some (ErrWrap "systemctl not available: " err EmptyString))
  | None =>
      let args := if enable then ["enable"; "--now"; service]
                  else ["disable"; "--now"; service] in
      let* out := Host.Run ("systemctl" :: args) in
      match cr_err out with
      | Some err =>
          ret (Some (ErrWrap ("systemctl " +:+ hd EmptyString args +:+ " " +:+ service +:+ ": ")
                             err (" (" +:+ TrimSpace (cr_text out) +:+ ")")))
      | None => ret None
      end
  end.

(** [Manager.writeUSBGuardRules]. *)
Definition writeUSBGuardRules (m : Manager) (rules : list string) : M (option error) :=
  let* r := Util.EnsureParentDir (usbGuardRulesPath m) in
  match r with
  | Some err => ret (Some err)
  | None =>
      let nl := String (ascii_of_nat 10) EmptyString in
      let header := "# Managed by evergreen device agent" +:+ nl in
      let content :=
        match rules with
        | [] => header
        | _ => header +:+ Join rules nl +:+ nl
        end in
      let tmp := usbGuardRulesPath m +:+ ".tmp" in
      let* r := Host.WriteFile tmp (Text content) in
      match r with
      | Some err => ret (Some (ErrWrap "write usbguard rules: " err EmptyString))
      | None =>
          let* r := Host.Rename tmp (usbGuardRulesPath m) in
          match r with
          | Some err => ret (Some (ErrWrap "commit usbguard rules: " err EmptyString))
          | None => ret None
          end
      end
  end.

(** [Manager.removeUSBGuardRules]. *)
Definition removeUSBGuardRules (m : Manager) : M (option error) :=
  let* r := Host.Remove (usbGuardRulesPath m) in
  match r with
  | Some err => if GoErrors.IsNotExist err then ret None else ret (Some err)
  | None => ret None
  end.

(** [Manager.configureSSH]. *)
Definition configureSSH (allowRoot : bool) : M (option error) :=
  let path := "/etc/ssh/sshd_config.d/evergreen.conf" in
  let* r := Util.EnsureParentDir path in
  match r with
  | Some err => ret (Some err)
  | None =>
      let mode := if allowRoot then "yes" else "no" in
      let nl := String (ascii_of_nat 10) EmptyString in
      let content := "# Managed by evergreen device agent" +:+ nl
                     +:+ "PermitRootLogin " +:+ mode +:+ nl in
      let tmp := path +:+ ".tmp" in
      let* r := Host.WriteFile tmp (Text content) in
      match r with
      | Some err => ret (Some (ErrWrap "write ssh config: " err EmptyString))
      | None =>
          let* r := Host.Rename tmp path in
          match r with
          | Some err => ret (Some (ErrWrap "commit ssh config: " err EmptyString))
          | None => ret None
          end
      end
  end.

(** [Manager.Apply]. *)
Definition Apply (m : Manager) (policy : SecurityPolicy) : M (list Event * option error) :=
  let eventsOut := [] in
  let* r := ensureSELinux (SELinuxEnforce policy) in
  let* ev :=
    match r with
    | Some err => Events.NewEvent "security.selinux.failure" [("error", GoErrors.Error err)]
    | None =>
        let state := if SELinuxEnforce policy then "enforcing" else "permissive" in
        Events.NewEvent "security.selinux.success" [("state", state)]
    end in
  let eventsOut := eventsOut ++ [ev] in
  let* r := configureSSH (AllowRootLogin policy) in
  let* ev :=
    match r with
    | Some err => Events.NewEvent "security.ssh.config.failure" [("error", GoErrors.Error err)]
    | None =>
        let mode := if AllowRootLogin policy then "enabled" else "disabled" in
        Events.NewEvent "security.ssh.config.success" [("root_login", mode)]
    end in
  let eventsOut := eventsOut ++ [ev] in
  let* r := toggleService "sshd" (SSHEnabled policy) in
  let* ev :=
    match r with
    | Some err => Events.NewEvent "security.ssh.failure" [("error", GoErrors.Error err)]
    | None =>
        let state := if SSHEnabled policy then "enabled" else "disabled" in
        Events.NewEvent "security.ssh.success" [("state", state)]
    end in
  let eventsOut := eventsOut ++ [ev] in
  let* eventsOut :=
    if USBGuard policy then
      let* r := writeUSBGuardRules m (USBGuardRules policy) in
      match r with
      | Some err =>
          let* ev := Events.NewEvent "security.usbguard.failure"
                       [("error", GoErrors.Error err)] in
          ret (eventsOut ++ [ev])
      | None =>
          let* ev := Events.NewEvent "security.usbguard.rules"
                       [("count", Itoa (Z.of_nat (length (USBGuardRules policy))))] in
          ret (eventsOut ++ [ev])
      end
    else
      let* _ := removeUSBGuardRules m in
      ret eventsOut in
  let* r := toggleService "usbguard" (USBGuard policy) in
  let* ev :=
    match r with
    | Some err => Events.NewEvent "security.usbguard.failure" [("error", GoErrors.Error err)]
    | None =>
        let state := if USBGuard policy then "enabled" else "disabled" in
        Events.NewEvent "security.usbguard.success" [("state", state)]
    end in
  ret (eventsOut ++ [ev], None).

End Security.

(* ===================================================================== *)
(** * [internal/policy]: verification and the reconciliation pipeline *)
(* ===================================================================== *)

Module Policy.

(** [Verifier]: the pinned key.  The two library functions [Verify]
    calls are carried along: [base64.StdEncoding.DecodeString] and
    [ed25519.Verify] applied to the key, the canonical serialisation of
    the policy document and the signature. *)
Record Verifier : Type := mkVerifier {
  pub : string;
  base64_DecodeString : string -> result string;
  ed25519_Verify : string -> PolicyDocument -> string -> bool
}.

(** [Verifier.Verify]. *)
Definition Verify (v : Verifier) (envelope : PolicyEnvelope) : option error :=
  if isEmpty (pub v) then Some (ErrMsg "public key not loaded")
  else if isEmpty (env_Signature envelope) then Some (ErrMsg "policy signature missing")
  else match base64_DecodeString v (env_Signature envelope) with
       | Fail err => Some (ErrWrap "decode signature: " err EmptyString)
       | Ok sig =>
           if negb (ed25519_Verify v (pub v) (env_Policy envelope) sig)
           then Some (ErrMsg "invalid policy signature")
           else None
       end.

(** [Manager].  Each of the five sub-managers is represented by its
    [Apply] method. *)
Record Manager : Type := mkManager {
  verifier : option Verifier;
  cache : string;
  apps : AppsPolicy -> M (list Event * option error);
  browser : BrowserPolicy -> M (list Event * option error);
  updates : UpdatePolicy -> M (Updates.Result * option error);
  network : NetworkPolicy -> M (list Event * option error);
  security : SecurityPolicy -> M (list Event * option error);
  lastVersion : string
}.

Definition set_lastVersion (v : string) (m : Manager) : Manager :=
  mkManager (verifier m) (cache m) (apps m) (browser m) (updates m) (network m)
            (security m) v.

(** [Manager.persist]. *)
Definition persist (m : Manager) (envelope : PolicyEnvelope) : M (option error) :=
  let data := Json (DocEnvelope envelope) in
  let* r := Util.EnsureParentDir (cache m) in
  match r with
  | Some err => ret (Some err)
  | None =>
      let tmp := cache m +:+ ".tmp" in
      let* r := Host.WriteFile tmp data in
      match r with
      | Some err => ret (Some (ErrWrap "write policy cache: " err EmptyString))
      | None =>
          let* r := Host.Rename tmp (cache m) in
          match r with
          | Some err => ret (Some (ErrWrap "rename policy cache: " err EmptyString))
          | None => ret None
          end
      end
  end.

(** [Manager.Apply]; the manager it returns carries the updated
    [lastVersion]. *)
Definition Apply (m : Manager) (envelope : PolicyEnvelope)
  : M (list Event * option error * Manager) :=
  match match verifier m with
        | Some v => Verify v envelope
        | None => None
        end with
  | Some err => ret ([], Some (ErrWrap "verify policy: " err EmptyString), m)
  | None =>
      let* r := persist m envelope in
      match r with
      | Some err => ret ([], Some err, m)
      | None =>
          let generated := [] in
          let* '(events, err) := apps m (pd_Apps (env_Policy envelope)) in
          let generated := generated ++ events in
          match err with
          | Some err => ret (generated, Some err, m)
          | None =>
          let* '(events, err) := browser m (pd_Browser (env_Policy envelope)) in
          let generated := generated ++ events in
          match err with
          | Some err => ret (generated, Some err, m)
          | None =>
          let* '(result, err) := updates m (pd_Updates (env_Policy envelope)) in
          let generated := generated ++ Updates.res_Events result in
          match err with
          | Some err => ret (generated, Some err, m)
          | None =>
          let* '(events, err) := network m (pd_Network (env_Policy envelope)) in
          let generated := generated ++ events in
          match err with
          | Some err => ret (generated, Some err, m)
          | None =>
          let* '(events, err) := security m (pd_Security (env_Policy envelope)) in
          let generated := generated ++ events in
          match err with
          | Some err => ret (generated, Some err, m)
          | None =>
              let m := set_lastVersion (env_Version envelope) m in
              let* ev := Events.NewEvent "policy.apply.success"
                           [("version", env_Version envelope)] in
              ret (generated ++ [ev], None, m)
          end end end end end
      end
  end.

(** [Manager.CachedPolicy].  A file that holds another kind of document
    is taken as undecodable. *)
Definition CachedPolicy (m : Manager) : M (result PolicyEnvelope) :=
  let* r := Host.ReadFile (cache m) in
  match r with
  | Fail err => ret (Fail err)
  | Ok (Json (DocEnvelope env)) => ret (Ok env)
  | Ok _ => ret (Fail (ErrWrap "decode cached policy: " (ErrMsg "json: cannot unmarshal")
                               EmptyString))
  end.

(** [Manager.LastVersion]. *)
Definition LastVersion (m : Manager) : string := lastVersion m.

(** An adapter as the pipeline sees an external collaborator: the
    invocation is recorded in the trace and the outcome is the host's. *)
Definition collaborator {A} (a : Adapter) (outcome : A) : M A :=
  fun w => (outcome, set_trace (w_trace w ++ [EffAdapter a]) w).

End Policy.

(* ===================================================================== *)
(** * [internal/enroll]: credential persistence *)
(* ===================================================================== *)

Module Enroll.

Record Manager : Type := mkManager {
  cfg : Config.Config;
  credentialsPath : string
}.

Definition NewManager (cfg : Config.Config) : Manager :=
  mkManager cfg (Config.DeviceTokenPath cfg).

(** [Manager.loadCredentials]. *)
Definition loadCredentials (m : Manager) : M (result (Credentials * PolicyEnvelope)) :=
  let* r := Util.ReadSecretFile (credentialsPath m) in
  match r with
  | Fail err =>
      if GoErrors.IsNotExist err then ret (Fail err)
      else ret (Fail (ErrWrap "read credentials: " err EmptyString))
  | Ok (Json (DocStored cred policy)) => ret (Ok (cred, policy))
  | Ok _ => ret (Fail (ErrWrap "decode credentials: " (ErrMsg "json: cannot unmarshal")
                               EmptyString))
  end.

(** [Manager.saveCredentials]. *)
Definition saveCredentials (m : Manager) (cred : Credentials) (policy : PolicyEnvelope)
  : M (option error) :=
  let data := Json (DocStored cred policy) in
  let* r := Util.WriteSecretFile (credentialsPath m) data in
  match r with
  | Some err => ret (Some (ErrWrap "write credentials: " err EmptyString))
  | None => ret None
  end.

(** Modelled from the spec: [Manager.Persist], which [agent.go] calls and
    the enrollment manager under [src/] does not define.  The
    specification says: a separate persist(credentials, envelope)
    operation is exposed for the policy loop's token-rotation path, and
    all writes go through the secure-file discipline.  It is the exported
    face of [saveCredentials]. *)
Definition Persist (m : Manager) (cred : Credentials) (envelope : PolicyEnvelope)
  : M (option error) :=
  saveCredentials m cred envelope.

(** ** Enrollment *)

(** [util.HardwareFacts]; the counts are numbers. *)
Record HardwareFacts : Type := mkHardwareFacts {
  hw_SerialNumber : string;
  hw_Model : string;
  hw_CPUModel : string;
  hw_CPUCount : Z;
  hw_TotalRAM : Z;
  hw_HasTPM : bool
}.

(** [api.EnrollDeviceRequest]. *)
Record EnrollDeviceRequest : Type := mkEnrollDeviceRequest {
  req_SerialNumber : string;
  req_Model : string;
  req_CPUModel : string;
  req_CPUCount : Z;
  req_TotalRAM : Z;
  req_HasTPM : bool;
  req_PreSharedKey : string
}.

(** [api.EnrollDeviceResponse]. *)
Record EnrollDeviceResponse : Type := mkEnrollDeviceResponse {
  resp_DeviceID : string;
  resp_DeviceToken : string;
  resp_Policy : PolicyEnvelope
}.

(** What [EnsureEnrollment] calls outside the manager: [json.Unmarshal]
    of the handoff file into its payload (device id, device token,
    policy), [util.CollectHardwareFacts], and the client's
    [EnrollDevice]. *)
Record Outside : Type := mkOutside {
  unmarshalHandoff : FileData -> result (string * string * PolicyEnvelope);
  CollectHardwareFacts : result HardwareFacts;
  EnrollDevice : EnrollDeviceRequest -> result EnrollDeviceResponse
}.

(** [Manager.loadEnrollmentConfig]. *)
Definition loadEnrollmentConfig (m : Manager) (o : Outside)
  : M (result (Credentials * PolicyEnvelope)) :=
  let configPath := Config.ConfigPath (Config.Enrollment_ (cfg m)) in
  if isEmpty configPath then ret (Fail ErrNotExist)
  else
    let* r := Host.ReadFile configPath in
    match r with
    | Fail err => ret (Fail err)
    | Ok data =>
        match unmarshalHandoff o data with
        | Fail err => ret (Fail (ErrWrap "decode enrollment config: " err EmptyString))
        | Ok (deviceID, deviceToken, policy) =>
            if (isEmpty deviceID || isEmpty deviceToken)%bool
            then ret (Fail (ErrMsg "enrollment config missing credentials"))
            else ret (Ok (mkCredentials deviceID deviceToken (env_Version policy), policy))
        end
    end.

(** [Manager.clearEnrollmentConfig]. *)
Definition clearEnrollmentConfig (m : Manager) : M (option error) :=
  let configPath := Config.ConfigPath (Config.Enrollment_ (cfg m)) in
  if isEmpty configPath then ret None
  else
    let* r := Host.Remove configPath in
    match r with
    | Some err =>
        if negb (GoErrors.IsNotExist err)
        then ret (Some (ErrWrap "remove enrollment config: " err EmptyString))
        else ret None
    | None => ret None
    end.

(** The last part of [EnsureEnrollment]: enrollment with the backend. *)
Definition enrollWithBackend (m : Manager) (o : Outside)
  : M (result (Credentials * PolicyEnvelope)) :=
  match CollectHardwareFacts o with
  | Fail err => ret (Fail (ErrWrap "collect hardware facts: " err EmptyString))
  | Ok facts =>
      let req := mkEnrollDeviceRequest
                   (hw_SerialNumber facts) (hw_Model facts) (hw_CPUModel facts)
                   (hw_CPUCount facts) (hw_TotalRAM facts) (hw_HasTPM facts)
                   (Config.PreSharedKey (Config.Enrollment_ (cfg m))) in
      match EnrollDevice o req with
      | Fail err => ret (Fail (ErrWrap "enroll device: " err EmptyString))
      | Ok resp =>
          let cred := mkCredentials (resp_DeviceID resp) (resp_DeviceToken resp)
                                    (env_Version (resp_Policy resp)) in
          let* r := saveCredentials m cred (resp_Policy resp) in
          match r with
          | Some err => ret (Fail err)
          | None => ret (Ok (cred, resp_Policy resp))
          end
      end
  end.

(** [Manager.EnsureEnrollment]. *)
Definition EnsureEnrollment (m : Manager) (o : Outside)
  : M (result (Credentials * PolicyEnvelope)) :=
  let* stored := loadCredentials m in
  let enrolled :=
    match stored with
    | Ok (cred, policy) =>
        if negb (isEmpty (cred_DeviceToken cred)) then Some (cred, policy) else None
    | Fail _ => None
    end in
  match enrolled with
  | Some (cred, policy) => ret (Ok (cred, policy))
  | None =>
      let* config := loadEnrollmentConfig m o in
      let handoff :=
        match config with
        | Ok (configCred, configPolicy) =>
            if negb (isEmpty (cred_DeviceToken configCred))
            then Some (configCred, configPolicy) else None
        | Fail _ => None
        end in
      match handoff with
      | Some (configCred, configPolicy) =>
          let* r := saveCredentials m configCred configPolicy in
          match r with
          | Some err => ret (Fail err)
          | None =>
              let* r := clearEnrollmentConfig m in
              match r with
              | Some err => ret (Fail err)
              | None => ret (Ok (configCred, configPolicy))
              end
          end
      | None =>
          match config with
          | Fail cfgErr =>
              if negb (GoErrors.IsNotExist cfgErr) then ret (Fail cfgErr)
              else enrollWithBackend m o
          | Ok _ => enrollWithBackend m o
          end
      end
  end.

End Enroll.

(* ===================================================================== *)
(** * [internal/state]: the queue of state snapshots *)
(* ===================================================================== *)

Module State.

(** The queue persists a list of [api.DeviceState].  A snapshot is taken
    as a value of a type [S]; [json.MarshalIndent] and [json.Unmarshal] of
    the list are the two functions of a [Codec]. *)
Record Codec (S : Type) : Type := mkCodec {
  marshal : list S -> FileData;
  unmarshal : FileData -> result (list S)
}.
Arguments mkCodec {S} marshal unmarshal.
Arguments marshal {S} c states.
Arguments unmarshal {S} c data.

(** [Queue]: the path of its file. *)
Record Queue : Type := mkQueue { path : string }.

Definition NewQueue (p : string) : Queue := mkQueue p.

Section Snapshots.

Context {S : Type} (codec : Codec S).

(** [Queue.readLocked]. *)
Definition readLocked (q : Queue) : M (result (list S)) :=
  let* r := Host.ReadFile (path q) in
  match r with
  | Fail err =>
      if GoErrors.IsNotExist err then ret (Ok [])
      else ret (Fail (ErrWrap "read state queue: " err EmptyString))
  | Ok data =>
      if Events.isZeroBytes data then ret (Ok [])
      else match unmarshal codec data with
           | Fail err => ret (Fail (ErrWrap "decode state queue: " err EmptyString))
           | Ok states => ret (Ok states)
           end
  end.

(** [Queue.writeLocked]. *)
Definition writeLocked (q : Queue) (states : list S) : M (option error) :=
  let data := marshal codec states in
  let* r := Util.EnsureParentDir (path q) in
  match r with
  | Some err => ret (Some err)
  | None =>
      let tmp := path q +:+ ".tmp" in
      let* r := Host.WriteFile tmp data in
      match r with
      | Some err => ret (Some (ErrWrap "write state queue: " err EmptyString))
      | None =>
          let* r := Host.Rename tmp (path q) in
          match r with
          | Some err => ret (Some (ErrWrap "commit state queue: " err EmptyString))
          | None => ret None
          end
      end
  end.

(** [Queue.Load]. *)
Definition Load (q : Queue) : M (result (list S)) := readLocked q.

(** [Queue.Append]. *)
Definition Append (q : Queue) (state : S) : M (option error) :=
  let* r := readLocked q in
  match r with
  | Fail err => ret (Some err)
  | Ok states => writeLocked q (states ++ [state])
  end.

(** [Queue.Replace]. *)
Definition Replace (q : Queue) (states : list S) : M (option error) :=
  writeLocked q states.

End Snapshots.

End State.

(* ===================================================================== *)
(** * [internal/attestation]: TPM attestation *)
(* ===================================================================== *)

Module Attestation.

(** [Manager]: the digest last submitted, the time of the last attempt
    ([None] for the zero time) and the minimum interval, in nanoseconds. *)
Record Manager : Type := mkManager {
  lastDigest : string;
  lastAttempt : option Time;
  minInterval : Z
}.

Definition NewManager : Manager := mkManager EmptyString None GoTime.Hour.

(** [attest.PCR], by its index and the hexadecimal form of its digest. *)
Record PCR : Type := mkPCR { pcr_Index : Z; pcr_DigestHex : string }.

(** [attest.Quote], by the name of its TPM version and the base64 forms
    of the quote and of the signature. *)
Record Quote : Type := mkQuote {
  q_Version : string;
  q_Quote : string;
  q_Signature : string
}.

(** What [tpm.AttestPlatform] returns. *)
Record PlatformParameters : Type := mkPlatformParameters {
  att_PCRs : list PCR;
  att_Quotes : list Quote
}.

(** The outcome of [attest.OpenTPM]; [ErrTPMNotAvailable] is its own
    case. *)
Inductive OpenOutcome : Type :=
| Opened
| NotAvailable
| OpenFailed (err : error).

(** The TPM and the libraries around it: [attest.OpenTPM], [tpm.NewAK]
    with the base64 form of the public part of the key, [rand.Read] with
    the base64 form of the nonce, [tpm.AttestPlatform], and SHA-256 in
    hexadecimal. *)
Record Tpm : Type := mkTpm {
  OpenTPM : OpenOutcome;
  NewAK : result string;
  rand_Read : result string;
  AttestPlatform : string -> result PlatformParameters;
  sha256_hex : string -> string
}.

(** [api.AttestationEvidence] and [api.AttestBootRequest]. *)
Record AttestationEvidence : Type := mkEvidence {
  ev_Nonce : string;
  ev_AKPublic : string;
  ev_Quotes : list Quote;
  ev_PCRs : gmap string string
}.

Record AttestBootRequest : Type := mkAttestBootRequest {
  ab_DeviceID : string;
  ab_Evidence : AttestationEvidence
}.

(** [now.Sub(earlier)]: the difference, kept within [int64]. *)
Definition Sub (now earlier : Time) : Z :=
  Z.max (- 2 ^ 63) (Z.min (2 ^ 63 - 1) (unixNano now - unixNano earlier)).

(** [Manager.ready]; the manager it returns carries the interval it may
    have reset. *)
Definition ready (m : Manager) (now : Time) : bool * Manager :=
  match lastAttempt m with
  | None => (true, m)
  | Some last =>
      let m := if minInterval m <=? 0
               then mkManager (lastDigest m) (lastAttempt m) GoTime.Hour else m in
      (minInterval m <=? Sub now last, m)
  end.

(** [os.Stat(path)] succeeds. *)
Definition exists_ (path : string) : M bool :=
  fun w => (bool_decide (is_Some (w_files w !! path)), w).

(** [Manager.hasTPM]. *)
Definition hasTPM : M bool :=
  let* a := exists_ "/dev/tpmrm0" in
  if a then ret true
  else
    let* b := exists_ "/dev/tpm0" in
    ret b.

(** [sort.Strings]. *)
Definition sortStrings (keys : list string) : list string :=
  merge_sort (fun a b => Is_true (String.leb a b)) keys.

(** [hashPCRs]. *)
Definition hashPCRs (t : Tpm) (pcrs : gmap string string) : string :=
  if bool_decide (pcrs = ∅) then EmptyString
  else
    let keys := sortStrings (map fst (map_to_list pcrs)) in
    sha256_hex t
      (fold_left (fun written k =>
                    written +:+ k +:+ "=" +:+ default EmptyString (pcrs !! k) +:+ ";")
                 keys EmptyString).

(** The map of the PCRs of an attestation, by index in decimal. *)
Definition pcrMap (pcrs : list PCR) : gmap string string :=
  fold_left (fun acc p => <[Itoa (pcr_Index p) := pcr_DigestHex p]> acc) pcrs ∅.

(** [Manager.Attest].  [AttestBoot] is the client's call of that name,
    given the device token and the request; the manager that is returned
    carries the digest and the time of the attempt. *)
Definition Attest (m : Manager) (t : Tpm)
    (AttestBoot : string -> AttestBootRequest -> option error)
    (token deviceID : string) : M (list Event * option error * Manager) :=
  let* present := hasTPM in
  if negb present then ret ([], None, m)
  else
    let* now := Host.Now in
    let '(isReady, m) := ready m now in
    if negb isReady then ret ([], None, m)
    else
      match OpenTPM t with
      | NotAvailable => ret ([], None, m)
      | OpenFailed err => ret ([], Some (ErrWrap "open tpm: " err EmptyString), m)
      | Opened =>
          match NewAK t with
          | Fail err =>
              let* event := Events.NewEvent "attestation.boot.failure"
                              [("error", GoErrors.Error err)] in
              ret ([event], Some (ErrWrap "create ak: " err EmptyString), m)
          | Ok akPublic =>
              match rand_Read t with
              | Fail err => ret ([], Some (ErrWrap "nonce: " err EmptyString), m)
              | Ok nonce =>
                  match AttestPlatform t nonce with
                  | Fail err =>
                      let* event := Events.NewEvent "attestation.boot.failure"
                                      [("error", GoErrors.Error err)] in
                      ret ([event],
                           Some (ErrWrap "attest platform: " err EmptyString), m)
                  | Ok att =>
                      let pcrs := pcrMap (att_PCRs att) in
                      let digest := hashPCRs t pcrs in
                      if String.eqb digest (lastDigest m)
                      then ret ([], None, mkManager (lastDigest m) (Some now) (minInterval m))
                      else
                        let req := mkAttestBootRequest deviceID
                                     (mkEvidence nonce akPublic (att_Quotes att) pcrs) in
                        match AttestBoot token req with
                        | Some err =>
                            let* event := Events.NewEvent "attestation.boot.failure"
                                            [("error", GoErrors.Error err)] in
                            ret ([event], Some err, m)
                        | None =>
                            let m := mkManager digest (Some now) (minInterval m) in
                            let* event :=
                              Events.NewEvent "attestation.boot.success"
                                [("nonce", nonce);
                                 ("quote_count",
                                  Itoa (Z.of_nat (length (att_Quotes att))))] in
                            ret ([event], None, m)
                        end
                  end
              end
          end
      end.

End Attestation.

(* ===================================================================== *)
(** * [internal/apps]: Flatpak applications *)
(* ===================================================================== *)

Module Apps.

(** [api.InstalledApp]. *)
Record InstalledApp : Type := mkInstalledApp {
  ia_ID : string;
  ia_Version : string;
  ia_Branch : string
}.

(** [bufio.MaxScanTokenSize]. *)
Definition maxScanTokenSize : Z := 65536.

(** [bufio.ErrTooLong]. *)
Definition ErrTooLong : error := ErrMsg "bufio.Scanner: token too long".

(** [dropCR] of [bufio]: a line without its final carriage return. *)
Fixpoint dropCR (s : string) : string :=
  match s with
  | EmptyString => EmptyString
  | String c r =>
      if (Ascii.eqb c (ascii_of_nat 13) && isEmpty r)%bool then EmptyString
      else String c (dropCR r)
  end.

(** The tokens of a [bufio.Scanner] with its default split function
    ([bufio.ScanLines]) and buffer, given the pieces of the input between
    line feeds: a final empty piece is no line, and a line that does not
    fit the buffer ends the scan with [ErrTooLong]. *)
Fixpoint scanPieces (pieces : list string) : list string * option error :=
  match pieces with
  | [] => ([], None)
  | p :: rest =>
      if (match rest with [] => isEmpty p | _ => false end) then ([], None)
      else if maxScanTokenSize <=? Z.of_nat (String.length p) then ([], Some ErrTooLong)
      else let '(lines, err) := scanPieces rest in (dropCR p :: lines, err)
  end.

Definition scanLines (text : string) : list string * option error :=
  scanPieces (Split text (ascii_of_nat 10)).

(** The body of the scanning loop of [ListInstalled]: the application a
    line of the listing describes, if any. *)
Definition parseLine (text : string) : option InstalledApp :=
  let line := TrimSpace text in
  if isEmpty line then None
  else
    let parts := Split line (ascii_of_nat 9) in
    let parts := if (length parts <? 3)%nat then Fields line else parts in
    match parts with
    | id :: branch :: version :: _ => Some (mkInstalledApp id version branch)
    | _ => None
    end.

Definition listArgv : list string :=
  ["flatpak"; "list"; "--app"; "--columns=application,branch,commit"].

(** [Manager.ListInstalled]: the applications read and [scanner.Err()]. *)
Definition ListInstalled : M (list InstalledApp * option error) :=
  let* lp := Host.LookPath "flatpak" in
  match lp with
  | Some err => ret ([], Some (ErrWrap "flatpak not available: " err EmptyString))
  | None =>
      let* out := Host.Run listArgv in
      match cr_err out with
      | Some err => ret ([], Some (ErrWrap "flatpak list: " err EmptyString))
      | None =>
          let '(lines, err) := scanLines (cr_text out) in
          ret (omap parseLine lines, err)
      end
  end.

(** The arguments [installFlatpak] gives [flatpak]. *)
Definition installArgs (def : AppDefinition) : list string :=
  let args := ["install"; "-y"] in
  let args := if isEmpty (app_Source def) then args else args ++ [app_Source def] in
  args ++ [app_ID def].

(** [Manager.installFlatpak]. *)
Definition installFlatpak (def : AppDefinition) : M (option error) :=
  if isEmpty (app_ID def) then ret (Some (ErrMsg "app id missing"))
  else
    let* lp := Host.LookPath "flatpak" in
    match lp with
    | Some err => ret (Some (ErrWrap "flatpak not available: " err EmptyString))
    | None =>
        let* out := Host.Run ("flatpak" :: installArgs def) in
        match cr_err out with
        | Some err =>
            ret (Some (ErrWrap ("flatpak install " +:+ app_ID def +:+ ": ") err
                               (" (" +:+ cr_text out +:+ ")")))
        | None => ret None
        end
    end.

(** [Manager.removeFlatpak]. *)
Definition removeFlatpak (id : string) : M (option error) :=
  let* lp := Host.LookPath "flatpak" in
  match lp with
  | Some err => ret (Some (ErrWrap "flatpak not available: " err EmptyString))
  | None =>
      let* out := Host.Run ["flatpak"; "uninstall"; "-y"; id] in
      match cr_err out with
      | Some err =>
          ret (Some (ErrWrap ("flatpak uninstall " +:+ id +:+ ": ") err
                             (" (" +:+ cr_text out +:+ ")")))
      | None => ret None
      end
  end.

(** The first loop of [Apply], over the entries of [desired] in the
    order the runtime visits them. *)
Fixpoint installMissing (installedSet : gmap string InstalledApp)
    (entries : list (string * AppDefinition)) (generated : list Event)
    : M (list Event) :=
  match entries with
  | [] => ret generated
  | (id, def) :: rest =>
      match installedSet !! id with
      | Some _ => installMissing installedSet rest generated
      | None =>
          let* r := installFlatpak def in
          match r with
          | Some err =>
              let* ev := Events.NewEvent "app.install.failure"
                           [("app", id); ("error", GoErrors.Error err)] in
              installMissing installedSet rest (generated ++ [ev])
          | None =>
              let* ev := Events.NewEvent "app.install.success" [("app", id)] in
              installMissing installedSet rest (generated ++ [ev])
          end
      end
  end.

(** The second loop of [Apply], over the keys of [installedSet]. *)
Fixpoint removeExtra (desired : gmap string AppDefinition)
    (ids : list string) (generated : list Event) : M (list Event) :=
  match ids with
  | [] => ret generated
  | id :: rest =>
      match desired !! id with
      | Some _ => removeExtra desired rest generated
      | None =>
          let* r := removeFlatpak id in
          match r with
          | Some err =>
              let* ev := Events.NewEvent "app.remove.failure"
                           [("app", id); ("error", GoErrors.Error err)] in
              removeExtra desired rest (generated ++ [ev])
          | None =>
              let* ev := Events.NewEvent "app.remove.success" [("app", id)] in
              removeExtra desired rest (generated ++ [ev])
          end
      end
  end.

(** [Manager.Apply].  Go leaves the order in which [range] visits a map
    unspecified; [order] is the choice of the runtime, some arrangement
    of the map's entries. *)
Definition Apply (order : forall V : Type, list (string * V) -> list (string * V))
    (policy : AppsPolicy) : M (list Event * option error) :=
  let* '(installed, err) := ListInstalled in
  match err with
  | Some err => ret ([], Some err)
  | None =>
      let desired : gmap string AppDefinition :=
        foldl (fun m app => <[app_ID app := app]> m) ∅ (Required policy) in
      let installedSet : gmap string InstalledApp :=
        foldl (fun m app => <[ia_ID app := app]> m) ∅ installed in
      let* generated :=
        installMissing installedSet (order _ (map_to_list desired)) [] in
      let* generated :=
        removeExtra desired (map fst (order _ (map_to_list installedSet))) generated in
      ret (generated, None)
  end.

End Apps.

(* ===================================================================== *)
(** * [internal/agent]: the policy tick *)
(* ===================================================================== *)

Module Agent.

(** [api.Client], by the one call the policy tick makes:
    [PullPolicy(ctx, token, currentVersion)]. *)
Record Client : Type := mkClient {
  PullPolicy : string -> string -> result PolicyEnvelope
}.

Record Agent : Type := mkAgent {
  client : Client;
  enrollManager : Enroll.Manager;
  policyManager : Policy.Manager;
  eventQueue : Events.Queue;
  credentials : Credentials
}.

Definition set_policyManager (p : Policy.Manager) (a : Agent) : Agent :=
  mkAgent (client a) (enrollManager a) p (eventQueue a) (credentials a).

Definition set_credentials (c : Credentials) (a : Agent) : Agent :=
  mkAgent (client a) (enrollManager a) (policyManager a) (eventQueue a) c.

(** [Agent.appendEvents]: a failure to persist is only logged. *)
Definition appendEvents (a : Agent) (events : list Event) : M unit :=
  match events with
  | [] => ret tt
  | _ =>
      let* _ := Events.Append (eventQueue a) events in
      ret tt
  end.

(** [Agent.pullAndApplyPolicy]. *)
Definition pullAndApplyPolicy (a : Agent) : M (option error * Agent) :=
  let version := Policy.LastVersion (policyManager a) in
  let* version :=
    if isEmpty version then
      let* cached := Policy.CachedPolicy (policyManager a) in
      match cached with
      | Ok cached => ret (env_Version cached)
      | Fail _ => ret version
      end
    else ret version in
  match PullPolicy (client a) (cred_DeviceToken (credentials a)) version with
  | Fail err =>
      if GoErrors.IsNotModified err then ret (None, a) else ret (Some err, a)
  | Ok envelope =>
      let* '(events, err, pm) := Policy.Apply (policyManager a) envelope in
      let a := set_policyManager pm a in
      let* _ := appendEvents a events in
      match err with
      | Some err => ret (Some err, a)
      | None =>
          let a :=
            if (negb (isEmpty (env_DeviceToken envelope))
                && negb (String.eqb (env_DeviceToken envelope)
                                    (cred_DeviceToken (credentials a))))%bool
            then set_credentials
                   (mkCredentials (cred_DeviceID (credentials a))
                                  (env_DeviceToken envelope)
                                  (cred_Version (credentials a))) a
            else a in
          let a := set_credentials
                     (mkCredentials (cred_DeviceID (credentials a))
                                    (cred_DeviceToken (credentials a))
                                    (env_Version envelope)) a in
          let* r := Enroll.Persist (enrollManager a) (credentials a) envelope in
          match r with
          | Some err => ret (Some (ErrWrap "persist credentials: " err EmptyString), a)
          | None => ret (None, a)
          end
      end
  end.

(** ** The event loop and the retry loop *)

(** [Agent.flushEvents].  [ReportEvents] is the client's call of that
    name, given the device token, the device id and the batch. *)
Definition flushEvents (a : Agent)
    (ReportEvents : string -> string -> list Event -> option error) : M (option error) :=
  let* r := Events.Load (eventQueue a) in
  match r with
  | Fail err => ret (Some err)
  | Ok pending =>
      match pending with
      | [] => ret None
      | _ =>
          match ReportEvents (cred_DeviceToken (credentials a))
                             (cred_DeviceID (credentials a)) pending with
          | Some err => ret (Some err)
          | None => Events.Replace (eventQueue a) []
          end
      end
  end.

(** The fields of [Agent] that [backoffLoop] reads, in nanoseconds. *)
Record Retry : Type := mkRetry {
  retryBackoff : Z;
  retryMaxDelay : Z
}.

(** The arithmetic of [time.Duration], an [int64]. *)
Definition wrap64 (z : Z) : Z := (z + 2 ^ 63) mod 2 ^ 64 - 2 ^ 63.

(** The body of the loop of [backoffLoop], from the state [wait], [delay].
    The loop has no exit of its own; it is run against a script that
    gives, for each pass, the outcome of [a.wait] (the context's error if
    it is done before the timer fires; consulted only when the loop
    waits) and the outcome of [work].  The result is the durations the
    loop waited for, in order, and what it returned; [None] when the
    script ends with the loop still running. *)
Fixpoint backoffPasses (interval maxDelay baseBackoff : Z)
                       (script : list (option error * option error))
                       (wait delay : Z) : list Z * option error :=
  match script with
  | [] => ([], None)
  | (waitErr, workErr) :: rest =>
      let waited := if 0 <? wait then [wait] else [] in
      match (if 0 <? wait then waitErr else None) with
      | Some err => (waited, Some err)
      | None =>
          match workErr with
          | Some err =>
              if GoErrors.IsCanceled err then (waited, Some err)
              else
                let wait := delay in
                let delay :=
                  if delay <? maxDelay then
                    let delay := wrap64 (delay * 2) in
                    if maxDelay <? delay then maxDelay else delay
                  else delay in
                let '(more, r) :=
                  backoffPasses interval maxDelay baseBackoff rest wait delay in
                (waited ++ more, r)
          | None =>
              let '(more, r) :=
                backoffPasses interval maxDelay baseBackoff rest interval baseBackoff in
              (waited ++ more, r)
          end
      end
  end.

(** [Agent.backoffLoop]. *)
Definition backoffLoop (a : Retry) (interval : Z)
                       (script : list (option error * option error))
  : list Z * option error :=
  let interval := if interval <=? 0 then GoTime.Second else interval in
  let baseBackoff := if retryBackoff a <=? 0 then GoTime.Second else retryBackoff a in
  let maxDelay := if retryMaxDelay a <=? 0 then wrap64 (baseBackoff * 16)
                  else retryMaxDelay a in
  backoffPasses interval maxDelay baseBackoff script 0 baseBackoff.

(** ** The state report *)

(** The loop of [reportState]: send the head of the queue, drop it, and
    go on until the queue is empty.  The loop has no bound of its own;
    [fuel] bounds the number of passes, and [None] is the answer when it
    runs out. *)
Fixpoint drainStates {S : Type} (codec : State.Codec S) (a : Agent) (q : State.Queue)
    (ReportState : string -> string -> S -> option error) (fuel : nat)
  : M (option (option error)) :=
  match fuel with
  | O => ret None
  | Datatypes.S fuel' =>
      let* r := State.Load codec q in
      match r with
      | Fail err => ret (Some (Some err))
      | Ok pending =>
          match pending with
          | [] => ret (Some None)
          | current :: rest =>
              match ReportState (cred_DeviceToken (credentials a))
                                (cred_DeviceID (credentials a)) current with
              | Some err => ret (Some (Some err))
              | None =>
                  let* r := State.Replace codec q rest in
                  match r with
                  | Some err => ret (Some (Some err))
                  | None => drainStates codec a q ReportState fuel'
                  end
              end
          end
      end
  end.

(** [Agent.reportState].  [stateQueue] is the agent's state queue ([None]
    for nil), [Snapshot] the collector's method and [ReportState] the
    client's, given the device token, the device id and the snapshot. *)
Definition reportState {S : Type} (codec : State.Codec S) (a : Agent)
    (stateQueue : option State.Queue) (Snapshot : M (result S))
    (ReportState : string -> string -> S -> option error) (fuel : nat)
  : M (option (option error)) :=
  let* r := Snapshot in
  match r with
  | Fail err => ret (Some (Some err))
  | Ok snapshot =>
      match stateQueue with
      | Some q =>
          let* r := State.Append codec q snapshot in
          match r with
          | Some err => ret (Some (Some (ErrWrap "persist state snapshot: " err EmptyString)))
          | None => drainStates codec a q ReportState fuel
          end
      | None =>
          match ReportState (cred_DeviceToken (credentials a))
                            (cred_DeviceID (credentials a)) snapshot with
          | Some err => ret (Some (Some err))
          | None => ret (Some None)
          end
      end
  end.

(** ** Start-up *)

(** [Agent.Run], up to the start of the loops: enrollment, the initial
    policy, the queued events.  The result is the agent as the loops find
    it, or the error [Run] returns. *)
Definition Run (a : Agent) (o : Enroll.Outside) : M (result Agent) :=
  let* r := Enroll.EnsureEnrollment (enrollManager a) o in
  match r with
  | Fail err => ret (Fail err)
  | Ok (cred, initialPolicy) =>
      let a := set_credentials cred a in
      let* applied :=
        if negb (isEmpty (env_Version initialPolicy)) then
          let* '(events, err, pm) := Policy.Apply (policyManager a) initialPolicy in
          let a := set_policyManager pm a in
          let* _ := appendEvents a events in
          match err with
          | Some err => ret (Fail (ErrWrap "apply initial policy: " err EmptyString))
          | None => ret (Ok a)
          end
        else ret (Ok a) in
      match applied with
      | Fail err => ret (Fail err)
      | Ok a =>
          let* _ := Events.Load (eventQueue a) in
          ret (Ok a)
      end
  end.

End Agent.

(* ===================================================================== *)
(** * Vocabulary of the properties *)
(* ===================================================================== *)

(** The wall clock of [t], in a zone whose offset is a whole number of
    minutes, reads weekday [wd] (Sunday is 0) at [hh]:[mm]. *)
Definition wallClock (t : Time) (wd hh mm : Z) : Prop :=
  zoneOffset t mod 60 = 0 /\
  GoTime.Weekday t = wd /\ GoTime.HourOf t = hh /\ GoTime.MinuteOf t = mm.

Definition Sunday : Z := 0.
Definition Monday : Z := 1.

(** The configuration of the loader's test, with a given state-queue
    path. *)
Definition configWith (stateQueuePath : string) : Config.Config :=
  Config.mkConfig
    "https://example.com" "/etc/evergreen/token" "/var/lib/evergreen/policy.json"
    "/var/lib/evergreen/events.json" stateQueuePath "/etc/evergreen/policy.pem"
    (Config.mkEnrollment "secret" "/etc/evergreen/enroll.json")
    (Config.mkIntervals (30 * GoTime.Second) (60 * GoTime.Second) (15 * GoTime.Second)
                        (5 * GoTime.Second) (300 * GoTime.Second))
    (Config.mkLogging "debug").

Definition sampleConfig : Config.Config := configWith "/var/lib/evergreen/state.json".

(** A configuration that sets every key of the sample file except
    [state_queue_path]. *)
Definition cfgWithoutStateQueue : Config.Config := configWith EmptyString.

(** What [Validate] looks at. *)
Definition validatedFieldMissing (c : Config.Config) : Prop :=
  Config.BackendURL c = EmptyString \/ Config.DeviceTokenPath c = EmptyString \/
  Config.PolicyCachePath c = EmptyString \/ Config.EventQueuePath c = EmptyString \/
  Config.PolicyPublicKey c = EmptyString \/
  Config.PolicyPoll (Config.Intervals_ c) = 0 \/
  Config.StateReport (Config.Intervals_ c) = 0 \/
  Config.EventFlush (Config.Intervals_ c) = 0.

(** What an event says: its type and payload. *)
Definition describe (ev : Event) : string * list (string * string) :=
  (ev_Type ev, ev_Payload ev).

(** ** The policy pipeline among external collaborators *)

(** The outcomes the five adapters return when invoked. *)
Record Outcomes : Type := mkOutcomes {
  o_apps : list Event * option error;
  o_browser : list Event * option error;
  o_updates : Updates.Result * option error;
  o_network : list Event * option error;
  o_security : list Event * option error
}.

Definition outcomeOf (o : Outcomes) (a : Adapter) : list Event * option error :=
  match a with
  | AdApps => o_apps o
  | AdBrowser => o_browser o
  | AdUpdates => (Updates.res_Events (fst (o_updates o)), snd (o_updates o))
  | AdNetwork => o_network o
  | AdSecurity => o_security o
  end.

(** A policy manager wired to five collaborators with given outcomes. *)
Definition pipelineOf (v : option Policy.Verifier) (cache : string) (o : Outcomes)
                      (last : string) : Policy.Manager :=
  Policy.mkManager v cache
    (fun _ => Policy.collaborator AdApps (o_apps o))
    (fun _ => Policy.collaborator AdBrowser (o_browser o))
    (fun _ => Policy.collaborator AdUpdates (o_updates o))
    (fun _ => Policy.collaborator AdNetwork (o_network o))
    (fun _ => Policy.collaborator AdSecurity (o_security o))
    last.

(** The fixed order of the fan-out. *)
Definition fanOutOrder : list Adapter :=
  [AdApps; AdBrowser; AdUpdates; AdNetwork; AdSecurity].

(** The fan-out in the specification's words: adapters are invoked in
    order, events are collected from each, and the first failure stops it.
    The result is the adapters invoked, the events collected and the
    failure, if any. *)
Fixpoint fanOut (outcome : Adapter -> list Event * option error) (order : list Adapter)
  : list Adapter * list Event * option error :=
  match order with
  | [] => ([], [], None)
  | a :: rest =>
      match outcome a with
      | (events, Some err) => ([a], events, Some err)
      | (events, None) =>
          let '(invoked, more, err) := fanOut outcome rest in
          (a :: invoked, events ++ more, err)
      end
  end.

(** The verdict of the configured verifier, if any. *)
Definition verdict (v : option Policy.Verifier) (envelope : PolicyEnvelope) : option error :=
  match v with
  | Some v => Policy.Verify v envelope
  | None => None
  end.

(** The world after [data] was written to [path + ".tmp"] and renamed
    over [path]. *)
Definition replaced (path : string) (data : FileData) (w : World) : World :=
  set_files (<[path := data]>
               (delete (path +:+ ".tmp") (<[path +:+ ".tmp" := data]> (w_files w)))) w.

(** ** The security reconciler's report *)

(** The event that reports one control: the failure event carrying the
    error, or the success event. *)
Definition controlEvent (outcome : option error) (failure : string)
                        (success : string * list (string * string))
  : string * list (string * string) :=
  match outcome with
  | Some err => (failure, [("error", GoErrors.Error err)])
  | None => success
  end.

(** What [Security.Apply] reports for the outcomes of its five controls:
    SELinux, the SSH drop-in, the SSH service, the USBGuard rules (written
    only when USBGuard is enabled) and the USBGuard service. *)
Definition securityReport (p : SecurityPolicy)
    (selinux sshConfig sshService usbRules usbService : option error)
  : list (string * list (string * string)) :=
  [ controlEvent selinux "security.selinux.failure"
      ("security.selinux.success",
       [("state", if SELinuxEnforce p then "enforcing" else "permissive")]);
    controlEvent sshConfig "security.ssh.config.failure"
      ("security.ssh.config.success",
       [("root_login", if AllowRootLogin p then "enabled" else "disabled")]);
    controlEvent sshService "security.ssh.failure"
      ("security.ssh.success",
       [("state", if SSHEnabled p then "enabled" else "disabled")]) ]
  ++ (if USBGuard p
      then [ controlEvent usbRules "security.usbguard.failure"
               ("security.usbguard.rules",
                [("count", Itoa (Z.of_nat (length (USBGuardRules p))))]) ]
      else [])
  ++ [ controlEvent usbService "security.usbguard.failure"
         ("security.usbguard.success",
          [("state", if USBGuard p then "enabled" else "disabled")]) ].

(** ** The update manager on a host *)

Definition statusCmd : list string := ["rpm-ostree"; "status"; "--json"].
Definition rollbackCmd : list string := ["rpm-ostree"; "rollback"].

Definition succeeded : CmdResult := mkCmdResult None EmptyString None.

Definition reports (payload : list (string * JSON)) : CmdResult :=
  mkCmdResult None EmptyString (Some (JObject payload)).

(** A host on which every command succeeds and [rpm-ostree status] reports
    a pending reboot; the clock starts on Monday 1 January 2024, 04:00 UTC. *)
Definition rebootPendingWorld : World :=
  mkWorld (fun n => unixNano (GoTime.Date 2024 1 1 4 0 0) + Z.of_nat n) 0 0 ∅ []
          ["rpm-ostree"; "systemctl"]
          (fun _ argv =>
             if bool_decide (argv = statusCmd)
             then reports [("reboot-required", JBool true)]
             else succeeded)
          [].

(** An update policy that requires a reboot and lists no window. *)
Definition policyNoWindows : UpdatePolicy := mkUpdatePolicy EmptyString true [].

(** The events of the channel step of [Updates.Apply]. *)
Definition channelEvent (ev : Event) : Prop :=
  ev_Type ev = "update.apply.failure" \/ ev_Type ev = "update.apply.success".

(** [Apply] deferred the reboot for want of a window: it emitted
    [update.reboot.deferred] with [reason=no_window] and did not run the
    reboot command. *)
Definition deferredNoWindow (m : Updates.Manager)
    (out : Updates.Result * option error * World) : Prop :=
  let '(res, _, w') := out in
  (exists ev, ev ∈ Updates.res_Events res /\
              describe ev = ("update.reboot.deferred", [("reason", "no_window")])) /\
  EffExec (Updates.rebootCommand m) ∉ w_trace w'.

(** ** A pipeline around the security reconciler *)

(** A security policy, and an envelope that carries it. *)
Definition strictSecurity : SecurityPolicy :=
  mkSecurityPolicy true false true ["allow id 1"] false.

Definition envelopeV1 : PolicyEnvelope :=
  mkPolicyEnvelope "v1" "c2ln"
    (mkPolicyDocument (mkAppsPolicy []) (mkUpdatePolicy EmptyString false [])
                      (mkBrowserPolicy EmptyString [] false [])
                      (mkNetworkPolicy [] [] []) strictSecurity)
    EmptyString.

(** A policy manager without verifier whose first four adapters have
    nothing to do and whose security adapter is the security reconciler. *)
Definition securityPipeline : Policy.Manager :=
  Policy.mkManager None "/var/lib/evergreen/policy.json"
    (fun _ => ret ([], None))
    (fun _ => ret ([], None))
    (fun _ => ret (Updates.mkResult "idle" false [], None))
    (fun _ => ret ([], None))
    (Security.Apply Security.NewManager)
    EmptyString.

(** ** Rollback orchestration over successive ticks *)

Global Instance Effect_eq_dec : EqDecision Effect.
Proof. solve_decision. Defined.

(** How many times [rpm-ostree rollback] was run. *)
Definition rollbacks (t : list Effect) : nat :=
  length (filter (fun e => e = EffExec rollbackCmd) t).

(** The identifier [EnsureRollback] computes: the booted checksum, falling
    back to the channel. *)
Definition identifierOf (st : Updates.Status) : string :=
  if isEmpty (Updates.BootedChecksum st) then Updates.Channel st
  else Updates.BootedChecksum st.

(** The status a command result decodes to. *)
Definition statusOf (r : CmdResult) : Updates.Status :=
  match cr_json r with
  | Some (JObject payload) => Updates.parseStatus (Some payload)
  | _ => Updates.parseStatus None
  end.

(** [n] successive ticks of the state loop, each calling [EnsureRollback]
    on the manager the previous one left; the events are collected. *)
Fixpoint ensureRollbackN (n : nat) (m : Updates.Manager)
  : M (list Event * Updates.Manager) :=
  match n with
  | O => ret ([], m)
  | S k =>
      let* '(events, _, m') := Updates.EnsureRollback m in
      let* '(more, m'') := ensureRollbackN k m' in
      ret (events ++ more, m'')
  end.

(** The host keeps reporting the status [payload], which demands a rollback
    and whose identifier is the non-empty [id]. *)
Definition reportsUnhealthy (w : World) (payload : list (string * JSON)) (id : string)
  : Prop :=
  "rpm-ostree" ∈ w_bins w /\
  (forall n, cr_err (w_host w n statusCmd) = None /\
             cr_json (w_host w n statusCmd) = Some (JObject payload)) /\
  Updates.NeedsRollback (Updates.parseStatus (Some payload)) = true /\
  identifierOf (Updates.parseStatus (Some payload)) = id /\
  id <> EmptyString.

(** Deployment X is booted and unbootable, Y is the previous one. *)
Definition unbootableX : list (string * JSON) :=
  [("deployments",
    JArray [JObject [("booted", JBool true); ("checksum", JString "X");
                     ("unbootable", JBool true)];
            JObject [("checksum", JString "Y")]])].

(** Deployment X is booted and healthy. *)
Definition healthyX : list (string * JSON) :=
  [("deployments",
    JArray [JObject [("booted", JBool true); ("checksum", JString "X")];
            JObject [("checksum", JString "Y")]])].

(** A booted deployment that is unbootable and reports neither checksum
    nor origin. *)
Definition unbootableAnonymous : list (string * JSON) :=
  [("deployments", JArray [JObject [("booted", JBool true); ("unbootable", JBool true)]])].

Definition hostWorld (host : nat -> list string -> CmdResult) : World :=
  mkWorld (fun n => unixNano (GoTime.Date 2024 1 1 4 0 0) + Z.of_nat n) 0 0 ∅ []
          ["rpm-ostree"] host [].

(** The host reports X unbootable at every status query. *)
Definition unbootableWorld : World :=
  hostWorld (fun _ argv => if bool_decide (argv = statusCmd) then reports unbootableX
                           else succeeded).

(** The host reports X unbootable, except at the status query of the
    second tick (the third command run), where X looks healthy. *)
Definition flappingWorld : World :=
  hostWorld (fun n argv =>
               if bool_decide (argv = statusCmd)
               then if Nat.eqb n 2 then reports healthyX else reports unbootableX
               else succeeded).

Definition anonymousWorld : World :=
  hostWorld (fun _ argv => if bool_decide (argv = statusCmd) then reports unbootableAnonymous
                           else succeeded).

(** Appending the events of a list one call at a time, stopping at the
    first failure. *)
Fixpoint appendEach (q : Events.Queue) (xs : list Event) : M (option error) :=
  match xs with
  | [] => ret None
  | x :: rest =>
      let* r := Events.Append q [x] in
      match r with
      | Some err => ret (Some err)
      | None => appendEach q rest
      end
  end.

(** Creating each event with [NewEvent] and appending it to the queue, as
    the reconcilers and loops do. *)
Fixpoint emitAll (q : Events.Queue) (specs : list (string * list (string * string)))
  : M (option error) :=
  match specs with
  | [] => ret None
  | (ty, payload) :: rest =>
      let* ev := Events.NewEvent ty payload in
      let* r := Events.Append q [ev] in
      match r with
      | Some err => ret (Some err)
      | None => emitAll q rest
      end
  end.

(** The timestamp of [ev] is a reading of the wall clock, in UTC. *)
Definition utcClockReading (w : World) (ev : Event) : Prop :=
  zoneOffset (ev_Timestamp ev) = 0 /\
  exists n, unixNano (ev_Timestamp ev) = w_clock w n.

(** The id of [ev] is the decimal rendering of an earlier clock reading. *)
Definition minted (w : World) (ev : Event) : Prop :=
  exists k, (k < w_ticks w)%nat /\ ev_ID ev = Itoa (w_clock w k).

(** The token in force after an envelope was applied: the rotated token
    if the envelope carries one. *)
Definition adoptedToken (current : Credentials) (envelope : PolicyEnvelope) : string :=
  if isEmpty (env_DeviceToken envelope) then cred_DeviceToken current
  else env_DeviceToken envelope.

(** ** Hosts, queues and agents of the examples *)

Definition eventQueue : Events.Queue := Events.NewQueue "/var/lib/evergreen/events.json".

(** The events of the queue test. *)
Definition eventOne : Event :=
  mkEvent "1" "test" (mkTime (1700000000 * GoTime.Second) 0) [("k", "v")].
Definition eventTwo : Event :=
  mkEvent "2" "second" (mkTime (1700000100 * GoTime.Second) 0) [].

(** A host whose event queue file holds [eventOne]. *)
Definition queuedWorld : World :=
  mkWorld (fun n => unixNano (GoTime.Date 2024 1 1 4 0 0) + Z.of_nat n) 0 0
          {[ "/var/lib/evergreen/events.json" := Json (DocEvents [eventOne]) ]} []
          ["rpm-ostree"; "systemctl"] (fun _ _ => succeeded) [].

(** A host whose clock only advances every fourth reading. *)
Definition coarseClockWorld : World :=
  mkWorld (fun n => unixNano (GoTime.Date 2024 1 1 4 0 0)
                    + 1000000 * Z.of_nat (Nat.div n 4))
          0 0 ∅ [] ["systemctl"] (fun _ _ => succeeded) [].

(** The server rotates the token to [t2] with version [v2]. *)
Definition envelopeV2 : PolicyEnvelope :=
  mkPolicyEnvelope "v2" "c2ln" (env_Policy envelopeV1) "t2".

(** An enrolled agent (device [d1], token [t1], version [v1]) whose
    backend answers every poll with [envelopeV2]. *)
Definition rotatingAgent : Agent.Agent :=
  Agent.mkAgent (Agent.mkClient (fun _ _ => Ok envelopeV2))
                (Enroll.NewManager sampleConfig)
                securityPipeline eventQueue
                (mkCredentials "d1" "t1" "v1").

(** Two events of reconcilers. *)
Definition twoEvents : list (string * list (string * string)) :=
  [("app.install.success", [("app", "org.mozilla.firefox")]);
   ("browser.policy.updated", [("path", "/etc/firefox/policies.json")])].

(** A segment that starts within the week. *)
Definition wellFormed (seg : Updates.maintenanceWindowSegment) : Prop :=
  0 <= Updates.seg_start seg < Updates.minutesPerWeek.

(** A [time.Weekday]. *)
Definition dayInWeek (d : Z) : Prop := 0 <= d < 7.

(** ** Maintenance windows within the week *)

(** A segment lies within the week, does not end before it starts and
    spans at most a day. *)
Definition withinWeek (seg : Updates.maintenanceWindowSegment) : Prop :=
  0 <= Updates.seg_start seg <= Updates.seg_end seg /\
  Updates.seg_start seg < Updates.minutesPerWeek /\
  Updates.seg_end seg <= Updates.minutesPerWeek /\
  Updates.seg_end seg - Updates.seg_start seg <= Updates.minutesPerDay.

(** [c] with other intervals. *)
Definition withIntervals (i : Config.Intervals) (c : Config.Config) : Config.Config :=
  Config.mkConfig (Config.BackendURL c) (Config.DeviceTokenPath c)
    (Config.PolicyCachePath c) (Config.EventQueuePath c) (Config.StateQueuePath c)
    (Config.PolicyPublicKey c) (Config.Enrollment_ c) i (Config.Logging_ c).

(** ** Update policies of the examples *)

(** A reboot-requiring policy whose window entry has an hour out of range. *)
Definition policyBadWindow : UpdatePolicy :=
  mkUpdatePolicy "evergreenos:beta" true ["Mon 25:00-03:00"].

(** A reboot-requiring policy with a window on Monday from 02:00 to 03:00. *)
Definition policyMondayWindow : UpdatePolicy :=
  mkUpdatePolicy EmptyString true ["Mon 02:00-03:00"].

(** The error of a result that failed. *)
Definition errorOf {A} (r : result A) : error :=
  match r with
  | Fail e => e
  | Ok _ => ErrMsg EmptyString
  end.

(** ** Hosts of the rollback examples *)

Definition activeCmd : list string :=
  ["systemctl"; "is-active"; "--quiet"; "rollback.target"].

(** The host reports X unbootable and its rollback command fails. *)
Definition failingRollbackWorld : World :=
  hostWorld (fun _ argv =>
               if bool_decide (argv = statusCmd) then reports unbootableX
               else if bool_decide (argv = rollbackCmd)
                    then mkCmdResult (Some (ErrExit 1)) "error: no previous deployment" None
                    else succeeded).

(** The host reports X healthy and the rollback target inactive:
    [systemctl is-active] exits with code 3. *)
Definition healthyWorld : World :=
  mkWorld (fun n => unixNano (GoTime.Date 2024 1 1 4 0 0) + Z.of_nat n) 0 0 ∅ []
          ["rpm-ostree"; "systemctl"]
          (fun _ argv =>
             if bool_decide (argv = statusCmd) then reports healthyX
             else if bool_decide (argv = activeCmd)
                  then mkCmdResult (Some (ErrExit 3)) EmptyString None
                  else succeeded)
          [].

(** A manager that remembers an attempted rollback of [id]. *)
Definition attempted (id : string) : Updates.Manager :=
  Updates.set_lastRollbackAttempt id Updates.NewManager.

(** ** Writing a file through a temporary one *)

(** The discipline the agent's writers share: make sure the parent
    directory exists, write [path + ".tmp"], rename it over [path];
    [onWrite] and [onRename] wrap the error of the step that failed. *)
Definition writeThenRename (path : string) (data : FileData)
                           (onWrite onRename : error -> error) : M (option error) :=
  let* r := Util.EnsureParentDir path in
  match r with
  | Some err => ret (Some err)
  | None =>
      let tmp := path +:+ ".tmp" in
      let* r := Host.WriteFile tmp data in
      match r with
      | Some err => ret (Some (onWrite err))
      | None =>
          let* r := Host.Rename tmp path in
          match r with
          | Some err => ret (Some (onRename err))
          | None => ret None
          end
      end
  end.

(** [w1] differs from [w] at most in the file [path + ".tmp"]. *)
Definition sameButTmp (path : string) (w w1 : World) : Prop :=
  exists files, w1 = set_files files w /\
    forall p, p <> path +:+ ".tmp" -> files !! p = w_files w !! p.

(** What can be read back from the file at [path]. *)
Definition contentAt (path : string) (w : World) : option FileData := w_files w !! path.

(** A host whose event queue file is not JSON. *)
Definition corruptQueueWorld : World :=
  mkWorld (fun n => unixNano (GoTime.Date 2024 1 1 4 0 0) + Z.of_nat n) 0 0
          {[ "/var/lib/evergreen/events.json" := Text "<<<<<<< HEAD" ]} []
          ["rpm-ostree"; "systemctl"] (fun _ _ => succeeded) [].

(** ** Agents of the policy-tick examples *)

(** A verifier with a pinned key whose library functions accept every
    well-formed signature. *)
Definition lenientVerifier : Policy.Verifier :=
  Policy.mkVerifier "cGluS2V5" (fun s => Ok s) (fun _ _ _ => true).

(** An envelope that carries no signature. *)
Definition unsignedEnvelope : PolicyEnvelope :=
  mkPolicyEnvelope "v3" EmptyString (env_Policy envelopeV1) "stolen".

(** The security pipeline behind a verifier. *)
Definition verifyingPipeline : Policy.Manager :=
  Policy.mkManager (Some lenientVerifier) "/var/lib/evergreen/policy.json"
    (fun _ => ret ([], None))
    (fun _ => ret ([], None))
    (fun _ => ret (Updates.mkResult "idle" false [], None))
    (fun _ => ret ([], None))
    (Security.Apply Security.NewManager)
    EmptyString.

(** An enrolled agent that verifies envelopes and whose backend answers
    every poll with [answer]. *)
Definition agentAnswered (answer : result PolicyEnvelope) : Agent.Agent :=
  Agent.mkAgent (Agent.mkClient (fun _ _ => answer))
                (Enroll.NewManager sampleConfig)
                verifyingPipeline eventQueue
                (mkCredentials "d1" "t1" "v1").

(** The backend's answer to a poll that presents the current version, as
    the client passes it on. *)
Definition notModified : error := ErrWrap "pull policy: " ErrNotModified EmptyString.

(** ** What an operation may touch *)

(** [w'] has the faults of [w] and, outside the paths [ps], its files. *)
Definition touchesOnly (ps : list string) (w w' : World) : Prop :=
  w_faults w' = w_faults w /\
  forall p, p ∉ ps -> contentAt p w' = contentAt p w.

(** The first step of the policy tick: the version it presents to the
    backend is the last applied one or, when there is none, that of the
    cached policy. *)
Definition presentedVersion (a : Agent.Agent) : M string :=
  let version := Policy.LastVersion (Agent.policyManager a) in
  if isEmpty version then
    let* cached := Policy.CachedPolicy (Agent.policyManager a) in
    match cached with
    | Ok cached => ret (env_Version cached)
    | Fail _ => ret version
    end
  else ret version.

(** The agent after a restart of the process that did not apply a policy:
    its policy manager has applied no version yet. *)
Definition forgetful (a : Agent.Agent) : Agent.Agent :=
  Agent.set_policyManager (Policy.set_lastVersion EmptyString (Agent.policyManager a)) a.

(** An enrolled agent among collaborators that succeed, whose backend
    answers every poll with [envelopeV2]. *)
Definition collaboratingAgent : Agent.Agent :=
  Agent.mkAgent (Agent.mkClient (fun _ _ => Ok envelopeV2))
                (Enroll.NewManager sampleConfig)
                (pipelineOf None "/var/lib/evergreen/policy.json"
                   (mkOutcomes ([], None) ([], None)
                               (Updates.mkResult "idle" false [], None)
                               ([], None) ([], None))
                   EmptyString)
                eventQueue
                (mkCredentials "d1" "t1" "v1").

(** ** The footprint of a computation *)

(** [w'] extends the trace of [w] by commands whose executable is one of
    [names], and by nothing else. *)
Definition runsOnly (names : list string) (w w' : World) : Prop :=
  exists added,
    w_trace w' = w_trace w ++ added /\
    Forall (fun e => exists argv, e = EffExec argv /\ hd EmptyString argv ∈ names) added.

(** From [w] to [w'], files changed only at the paths [ps] and only
    commands of [names] were run. *)
Definition confinedTo (ps names : list string) (w w' : World) : Prop :=
  touchesOnly ps w w' /\ runsOnly names w w'.

(** Whatever the host, the computation [c] stays within that footprint. *)
Definition confined (ps names : list string) {A : Type} (c : M A) : Prop :=
  forall w, confinedTo ps names w (snd (c w)).

Definition sshDropIn : string := "/etc/ssh/sshd_config.d/evergreen.conf".

(** ** Text files, line by line *)

Definition newline : string := String (ascii_of_nat 10) EmptyString.

(** The text whose lines are [ls], each ended by a newline. *)
Fixpoint linesOf (ls : list string) : string :=
  match ls with
  | [] => EmptyString
  | l :: rest => l +:+ newline +:+ linesOf rest
  end.

(** The header of the files the agent manages. *)
Definition managedHeader : string := "# Managed by evergreen device agent".

(** ** The retry schedule *)

(** The wait the schedule prescribes before a pass that follows [k]
    consecutive failures: the interval after a success, else the base
    delay doubled [k - 1] times, capped. *)
Definition scheduledWait (interval baseBackoff maxDelay : Z) (k : nat) : Z :=
  match k with
  | O => interval
  | S j => Z.min (baseBackoff * 2 ^ Z.of_nat j) maxDelay
  end.

(** The waits the schedule prescribes before the passes of a script, the
    pass before which [k] failures accumulated coming first. *)
Fixpoint scheduledWaits (interval baseBackoff maxDelay : Z)
                        (outcomes : list (option error)) (k : nat) : list Z :=
  match outcomes with
  | [] => []
  | o :: rest =>
      let k' := match o with
                | Some _ => S k
                | None => O
                end in
      match rest with
      | [] => []
      | _ => scheduledWait interval baseBackoff maxDelay k'
             :: scheduledWaits interval baseBackoff maxDelay rest k'
      end
  end.

(** A script in which no wait is interrupted. *)
Definition undisturbed (outcomes : list (option error))
  : list (option error * option error) :=
  map (fun o => (None, o)) outcomes.

(** No outcome is a cancellation. *)
Definition noneCanceled (outcomes : list (option error)) : Prop :=
  Forall (fun o => match o with
                   | Some err => GoErrors.IsCanceled err = false
                   | None => True
                   end) outcomes.

Definition timeout : error := ErrMsg "perform request: context deadline exceeded".

(** The settings [backoffLoop] works with: non-positive ones are
    replaced by defaults. *)
Definition effectiveInterval (interval : Z) : Z :=
  if interval <=? 0 then GoTime.Second else interval.

Definition effectiveBackoff (a : Agent.Retry) : Z :=
  if Agent.retryBackoff a <=? 0 then GoTime.Second else Agent.retryBackoff a.

Definition effectiveMaxDelay (a : Agent.Retry) : Z :=
  if Agent.retryMaxDelay a <=? 0 then effectiveBackoff a * 16 else Agent.retryMaxDelay a.

(** The retry settings of the sample configuration. *)
Definition sampleRetry : Agent.Retry :=
  Agent.mkRetry (Config.RetryBackoff (Config.Intervals_ sampleConfig))
                (Config.RetryMaxDelay (Config.Intervals_ sampleConfig)).

(** Every outcome is a failure. *)
Definition allFail (outcomes : list (option error)) : Prop :=
  Forall (fun o => o <> None) outcomes.

(** ** Enrollment at start-up *)

(** The credentials file does not hold usable credentials: it cannot be
    loaded, or the stored token is empty. *)
Definition notEnrolled (m : Enroll.Manager) (w : World) : Prop :=
  match fst (Enroll.loadCredentials m w) with
  | Ok (cred, _) => cred_DeviceToken cred = EmptyString
  | Fail _ => True
  end.

Definition handoffPath (m : Enroll.Manager) : string :=
  Config.ConfigPath (Config.Enrollment_ (Enroll.cfg m)).

(** The request [EnsureEnrollment] builds from the hardware facts and the
    pre-shared key of the configuration. *)
Definition enrollRequest (m : Enroll.Manager) (facts : Enroll.HardwareFacts)
  : Enroll.EnrollDeviceRequest :=
  Enroll.mkEnrollDeviceRequest
    (Enroll.hw_SerialNumber facts) (Enroll.hw_Model facts) (Enroll.hw_CPUModel facts)
    (Enroll.hw_CPUCount facts) (Enroll.hw_TotalRAM facts) (Enroll.hw_HasTPM facts)
    (Config.PreSharedKey (Config.Enrollment_ (Enroll.cfg m))).

(** The enrollment manager of the sample configuration. *)
Definition sampleEnroll : Enroll.Manager := Enroll.NewManager sampleConfig.

(** Hardware facts of a laptop. *)
Definition laptop : Enroll.HardwareFacts :=
  Enroll.mkHardwareFacts "SN-0042" "EvergreenBook 14" "Example CPU" 8 (16 * 2 ^ 30) true.

(** An outside where the handoff file is a text [id token] on one line
    carrying [envelopeV1], and the backend enrolls every device as [d9]
    with token [t9] and [envelopeV2]; or is unreachable. *)
Definition outside (reachable : bool) : Enroll.Outside :=
  Enroll.mkOutside
    (fun data =>
       match data with
       | Text s =>
           match Fields s with
           | [id; token] => Ok (id, token, envelopeV1)
           | [id] => Ok (id, EmptyString, envelopeV1)
           | _ => Fail (ErrMsg "unexpected end of JSON input")
           end
       | Json _ => Fail (ErrMsg "json: cannot unmarshal")
       end)
    (Ok laptop)
    (fun req =>
       if reachable
       then Ok (Enroll.mkEnrollDeviceResponse "d9" "t9" envelopeV2)
       else Fail (ErrMsg "perform request: connection refused")).

(** A host with the given files and no faults. *)
Definition hostWith (files : gmap string FileData) : World :=
  mkWorld (fun n => unixNano (GoTime.Date 2024 1 1 4 0 0) + Z.of_nat n) 0 0 files []
          ["rpm-ostree"; "systemctl"] (fun _ _ => succeeded) [].

(** ** The state queue *)

(** The codec loses nothing: a list that was encoded decodes to itself,
    and its encoding is not the zero-byte file. *)
Definition faithful {S : Type} (codec : State.Codec S) : Prop :=
  forall states,
    State.unmarshal codec (State.marshal codec states) = Ok states /\
    Events.isZeroBytes (State.marshal codec states) = false.

(** The backend accepts the snapshot [s] of the agent [a]. *)
Definition accepted {S : Type} (a : Agent.Agent)
    (report : string -> string -> S -> option error) (s : S) : Prop :=
  report (cred_DeviceToken (Agent.credentials a)) (cred_DeviceID (Agent.credentials a)) s
  = None.

(** A codec for snapshots that are events. *)
Definition eventCodec : State.Codec Event :=
  State.mkCodec (fun states => Json (DocEvents states)) Events.unmarshalEvents.

Definition stateQueue : State.Queue := State.NewQueue "/var/lib/evergreen/state.json".

(** A backend that accepts the snapshot with id [1] and is out of reach
    for any other. *)
Definition acceptsOne : string -> string -> Event -> option error :=
  fun _ _ s => if String.eqb (ev_ID s) "1" then None else Some timeout.

(** ** Attestation on a host *)

(** The digest [Attest] computes for an attestation. *)
Definition digestOf (t : Attestation.Tpm) (att : Attestation.PlatformParameters) : string :=
  Attestation.hashPCRs t (Attestation.pcrMap (Attestation.att_PCRs att)).

(** The request [Attest] submits. *)
Definition attestRequest (deviceID nonce akPublic : string)
    (att : Attestation.PlatformParameters) : Attestation.AttestBootRequest :=
  Attestation.mkAttestBootRequest deviceID
    (Attestation.mkEvidence nonce akPublic (Attestation.att_Quotes att)
                            (Attestation.pcrMap (Attestation.att_PCRs att))).

(** A TPM that attests the given PCRs with one quote; the digest
    function is a stand-in that keeps its input. *)
Definition tpmWith (pcrs : list Attestation.PCR) : Attestation.Tpm :=
  Attestation.mkTpm Attestation.Opened (Ok "YWs=") (Ok "bm9uY2U=")
    (fun _ => Ok (Attestation.mkPlatformParameters pcrs
                    [Attestation.mkQuote "2.0" "cQ==" "cw=="]))
    (fun s => s).

(** A host with a TPM device. *)
Definition tpmWorld : World := hostWith {[ "/dev/tpmrm0" := Text EmptyString ]}.

Definition bootPCRs : list Attestation.PCR :=
  [Attestation.mkPCR 7 "aa"; Attestation.mkPCR 0 "00"].

(** ** Reconciling applications *)

(** The definition the policy gives the application [id]: of several
    entries with that id, the last one. *)
Definition requiredAs (policy : AppsPolicy) (id : string) : option AppDefinition :=
  List.find (fun d => String.eqb (app_ID d) id) (rev (Required policy)).

(** The application an event is about. *)
Definition appOf (e : Event) : string :=
  match List.find (fun kv => String.eqb (fst kv) "app") (ev_Payload e) with
  | Some kv => snd kv
  | None => EmptyString
  end.

Definition installCmd (d : AppDefinition) : Effect :=
  EffExec ("flatpak" :: Apps.installArgs d).

Definition uninstallCmd (id : string) : Effect :=
  EffExec ["flatpak"; "uninstall"; "-y"; id].

Definition named (d : AppDefinition) : bool := negb (isEmpty (app_ID d)).

(** The map [m] has no entry for [id]. *)
Definition absent {V : Type} (m : gmap string V) (id : string) : bool :=
  match m !! id with Some _ => false | None => true end.

(** A host with Flatpak that lists [listing] and on which every other
    command succeeds. *)
Definition flatpakWorld (listing : string) : World :=
  mkWorld (fun n => unixNano (GoTime.Date 2024 1 1 4 0 0) + Z.of_nat n) 0 0 ∅ []
          ["flatpak"]
          (fun _ argv =>
             if bool_decide (argv = Apps.listArgv) then mkCmdResult None listing None
             else succeeded)
          [].

(** The runtime visits maps in the order of their listing. *)
Definition inListingOrder : forall V : Type, list (string * V) -> list (string * V) :=
  fun _ l => l.

(** A policy that requires an installed application, one that is not
    installed, and an entry without id. *)
Definition wantedApps : AppsPolicy :=
  mkAppsPolicy [mkAppDefinition "org.a" "stable" EmptyString;
                mkAppDefinition "org.c" "stable" "flathub";
                mkAppDefinition EmptyString "stable" "flathub"].

Definition tab : string := String (ascii_of_nat 9) EmptyString.

(** The listing of a host with [org.a] and [org.b]. *)
Definition listingAB : string :=
  "org.a" +:+ tab +:+ "stable" +:+ tab +:+ "abc" +:+ newline
  +:+ "org.b" +:+ tab +:+ "stable" +:+ tab +:+ "def" +:+ newline.

(* ===================================================================== *)
(** * Properties *)
(* ===================================================================== *)

Lemma isEmpty_true (s : string) : isEmpty s = true <-> s = EmptyString.
Proof. destruct s; simpl; split; congruence. Qed.

Lemma isEmpty_false (s : string) : isEmpty s = false <-> s <> EmptyString.
Proof. destruct s; simpl; split; congruence. Qed.

(** ** Configuration *)

(** [Validate] fails exactly when one of the five strings it tests is
    empty or one of the first three intervals is zero. *)
Lemma Validate_error_iff (c : Config.Config) :
  Config.Validate c <> None <-> validatedFieldMissing c.
Proof.
  unfold Config.Validate, validatedFieldMissing.
  destruct (isEmpty (Config.BackendURL c)) eqn:E1;
    [apply isEmpty_true in E1; split; [tauto | discriminate] | apply isEmpty_false in E1].
  destruct (isEmpty (Config.DeviceTokenPath c)) eqn:E2;
    [apply isEmpty_true in E2; split; [tauto | discriminate] | apply isEmpty_false in E2].
  destruct (isEmpty (Config.PolicyCachePath c)) eqn:E3;
    [apply isEmpty_true in E3; split; [tauto | discriminate] | apply isEmpty_false in E3].
  destruct (isEmpty (Config.EventQueuePath c)) eqn:E4;
    [apply isEmpty_true in E4; split; [tauto | discriminate] | apply isEmpty_false in E4].
  destruct (isEmpty (Config.PolicyPublicKey c)) eqn:E5;
    [apply isEmpty_true in E5; split; [tauto | discriminate] | apply isEmpty_false in E5].
  destruct (Z.eqb_spec (Config.PolicyPoll (Config.Intervals_ c)) 0);
    [split; [tauto | discriminate] |].
  destruct (Z.eqb_spec (Config.StateReport (Config.Intervals_ c)) 0);
    [split; [tauto | discriminate] |].
  destruct (Z.eqb_spec (Config.EventFlush (Config.Intervals_ c)) 0);
    [split; [tauto | discriminate] |].
  split; [congruence | tauto].
Qed.

(** C3 (the code at the failing input).  A configuration whose
    [state_queue_path] is empty while every other key is set passes
    [Validate]: the validator never looks at the state-queue path, although
    the agent builds its state queue from it. *)
Theorem C3_validate_accepts_missing_state_queue_path :
  Config.StateQueuePath cfgWithoutStateQueue = EmptyString /\
  Config.Validate cfgWithoutStateQueue = None /\
  (forall c p,
     Config.Validate
       (Config.mkConfig (Config.BackendURL c) (Config.DeviceTokenPath c)
          (Config.PolicyCachePath c) (Config.EventQueuePath c) p
          (Config.PolicyPublicKey c) (Config.Enrollment_ c) (Config.Intervals_ c)
          (Config.Logging_ c))
     = Config.Validate c).
Proof. repeat split. Qed.

(** ** Maintenance windows *)

Lemma truncate_minute_wall (t : Time) :
  zoneOffset t mod 60 = 0 ->
  GoTime.wallSeconds (GoTime.Truncate t GoTime.Minute)
  = 60 * (GoTime.wallSeconds t / 60).
Proof.
  intros Hz.
  unfold GoTime.wallSeconds, GoTime.Truncate, GoTime.Minute, GoTime.Second. simpl.
  set (n := unixNano t). set (o := zoneOffset t) in *.
  Z.to_euclidean_division_equations. lia.
Qed.

(** The minute of the week is what the wall clock reads. *)
Lemma minuteOfWeek_wallClock (t : Time) (wd hh mm : Z) :
  wallClock t wd hh mm -> Updates.minuteOfWeek t = wd * 1440 + hh * 60 + mm.
Proof.
  intros (Hz & Hw & Hh & Hm). unfold Updates.minuteOfWeek.
  unfold GoTime.Weekday, GoTime.HourOf, GoTime.MinuteOf in *.
  rewrite (truncate_minute_wall t Hz).
  set (s := GoTime.wallSeconds t) in *.
  unfold Updates.minutesPerDay. subst.
  Z.to_euclidean_division_equations. lia.
Qed.

Lemma allows_at (segs : list Updates.maintenanceWindowSegment) (t : Time) (wd hh mm : Z) :
  wallClock t wd hh mm ->
  Updates.maintenanceAllowsNow segs t
  = match segs with
    | [] => true
    | _ => existsb (Updates.inSegment (wd * 1440 + hh * 60 + mm)) segs
    end.
Proof.
  intros H. unfold Updates.maintenanceAllowsNow.
  now rewrite (minuteOfWeek_wallClock t wd hh mm H).
Qed.

(** C6.  The entry "Mon-Fri 02:00-03:00" parses to segments that admit
    every instant whose wall clock reads Monday 02:30 and reject every
    instant that reads Monday 04:00; the overnight entry "Sun 23:00-01:00"
    parses to two segments, Sunday 23:00-24:00 and Monday 00:00-01:00, that
    admit Sunday 23:30 and Monday 00:30 and reject Monday 02:00. *)
Theorem C6_maintenance_window_boundaries (t1 t2 t3 t4 t5 : Time) :
  wallClock t1 Monday 2 30 ->
  wallClock t2 Monday 4 0 ->
  wallClock t3 Sunday 23 30 ->
  wallClock t4 Monday 0 30 ->
  wallClock t5 Monday 2 0 ->
  exists weekdays overnight,
    Updates.parseMaintenanceWindows ["Mon-Fri 02:00-03:00"] = Ok weekdays /\
    Updates.parseMaintenanceWindows ["Sun 23:00-01:00"] = Ok overnight /\
    overnight = [Updates.mkSegment (23 * 60) (24 * 60);
                 Updates.mkSegment (24 * 60) (25 * 60)] /\
    Updates.maintenanceAllowsNow weekdays t1 = true /\
    Updates.maintenanceAllowsNow weekdays t2 = false /\
    Updates.maintenanceAllowsNow overnight t3 = true /\
    Updates.maintenanceAllowsNow overnight t4 = true /\
    Updates.maintenanceAllowsNow overnight t5 = false.
Proof.
  intros H1 H2 H3 H4 H5.
  eexists. eexists.
  split; [vm_compute; reflexivity |].
  split; [vm_compute; reflexivity |].
  split; [reflexivity |].
  rewrite (allows_at _ t1 _ _ _ H1), (allows_at _ t2 _ _ _ H2),
          (allows_at _ t3 _ _ _ H3), (allows_at _ t4 _ _ _ H4),
          (allows_at _ t5 _ _ _ H5).
  repeat split.
Qed.

(** The instants of the repository's tests: 1 January 2024 is a Monday,
    7 January 2024 a Sunday. *)
Lemma C6_maintenance_window_boundaries_witness :
  (wallClock (GoTime.Date 2024 1 1 2 30 0) Monday 2 30 /\
   wallClock (GoTime.Date 2024 1 1 4 0 0) Monday 4 0 /\
   wallClock (GoTime.Date 2024 1 7 23 30 0) Sunday 23 30 /\
   wallClock (GoTime.Date 2024 1 8 0 30 0) Monday 0 30 /\
   wallClock (GoTime.Date 2024 1 8 2 0 0) Monday 2 0) /\
  exists weekdays overnight,
    Updates.parseMaintenanceWindows ["Mon-Fri 02:00-03:00"] = Ok weekdays /\
    Updates.parseMaintenanceWindows ["Sun 23:00-01:00"] = Ok overnight /\
    overnight = [Updates.mkSegment (23 * 60) (24 * 60);
                 Updates.mkSegment (24 * 60) (25 * 60)] /\
    Updates.maintenanceAllowsNow weekdays (GoTime.Date 2024 1 1 2 30 0) = true /\
    Updates.maintenanceAllowsNow weekdays (GoTime.Date 2024 1 1 4 0 0) = false /\
    Updates.maintenanceAllowsNow overnight (GoTime.Date 2024 1 7 23 30 0) = true /\
    Updates.maintenanceAllowsNow overnight (GoTime.Date 2024 1 8 0 30 0) = true /\
    Updates.maintenanceAllowsNow overnight (GoTime.Date 2024 1 8 2 0 0) = false.
Proof.
  assert (W1 : wallClock (GoTime.Date 2024 1 1 2 30 0) Monday 2 30)
    by (repeat split; reflexivity).
  assert (W2 : wallClock (GoTime.Date 2024 1 1 4 0 0) Monday 4 0)
    by (repeat split; reflexivity).
  assert (W3 : wallClock (GoTime.Date 2024 1 7 23 30 0) Sunday 23 30)
    by (repeat split; reflexivity).
  assert (W4 : wallClock (GoTime.Date 2024 1 8 0 30 0) Monday 0 30)
    by (repeat split; reflexivity).
  assert (W5 : wallClock (GoTime.Date 2024 1 8 2 0 0) Monday 2 0)
    by (repeat split; reflexivity).
  split; [repeat split; assumption |].
  exact (C6_maintenance_window_boundaries _ _ _ _ _ W1 W2 W3 W4 W5).
Defined.

(** ** Results of effectful code *)

Lemma pair_eta1 {A B : Type} (x : A * B) (a : A) :
  fst x = a -> x = (a, snd x).
Proof. destruct x. simpl. now intros ->. Qed.

Lemma pair_eta_l {A B C : Type} (x : A * B * C) (a : A) :
  fst (fst x) = a -> x = (a, snd (fst x), snd x).
Proof. destruct x as [[a' b] c]. simpl. now intros ->. Qed.

Lemma pair_eta2 {A B C : Type} (x : A * B * C) (b : B) :
  snd (fst x) = b -> x = (fst (fst x), b, snd x).
Proof. destruct x as [[a b'] c]. simpl. now intros ->. Qed.

Lemma pair_eta3 {A B C D : Type} (x : A * B * C * D) (c : C) :
  snd (fst x) = c -> x = (fst (fst (fst x)), snd (fst (fst x)), c, snd x).
Proof. destruct x as [[[a b] c'] d]. simpl. now intros ->. Qed.

Lemma NewEvent_spec (ty : string) (pl : list (string * string)) (w : World) :
  Events.NewEvent ty pl w
  = (mkEvent (Itoa (w_clock w (w_ticks w))) ty
             (mkTime (w_clock w (S (w_ticks w))) 0) pl,
     set_ticks (S (S (w_ticks w))) w).
Proof. reflexivity. Qed.

Lemma EnsureParentDir_world (p : string) (w : World) :
  snd (Util.EnsureParentDir p w) = w.
Proof.
  unfold Util.EnsureParentDir, Util.EnsureDir, Host.MkdirAll, bind, ret.
  repeat case_match; simplify_eq/=; reflexivity.
Qed.

Lemma WriteFile_cases (p : string) (d : FileData) (w : World) :
  (exists e, Host.WriteFile p d w = (Some e, w)) \/
  Host.WriteFile p d w = (None, set_files (<[p := d]> (w_files w)) w).
Proof. unfold Host.WriteFile. case_match; eauto. Qed.

Lemma Rename_cases (old new : string) (w : World) :
  (exists e, Host.Rename old new w = (Some e, w)) \/
  (exists d, w_files w !! old = Some d /\
     Host.Rename old new w
     = (None, set_files (<[new := d]> (delete old (w_files w))) w)).
Proof. unfold Host.Rename. repeat case_match; eauto. Qed.

(** ** The policy pipeline *)

(** Persisting the envelope either fails, touching neither the trace nor
    the clock, or installs the envelope at the cache path. *)
Lemma persist_cases (m : Policy.Manager) (env : PolicyEnvelope) (w : World) :
  (exists e w1, Policy.persist m env w = (Some e, w1) /\
      w_trace w1 = w_trace w /\ w_ticks w1 = w_ticks w) \/
  Policy.persist m env w = (None, replaced (Policy.cache m) (Json (DocEnvelope env)) w).
Proof.
  unfold Policy.persist, bind, ret.
  pose proof (EnsureParentDir_world (Policy.cache m) w) as He.
  destruct (Util.EnsureParentDir (Policy.cache m) w) as [[e|] w0];
    simpl in He; subst w0.
  { left; eauto 10. }
  destruct (WriteFile_cases (Policy.cache m +:+ ".tmp") (Json (DocEnvelope env)) w)
    as [[e ->] | ->].
  { left; eauto 10. }
  destruct (Rename_cases (Policy.cache m +:+ ".tmp") (Policy.cache m)
              (set_files (<[Policy.cache m +:+ ".tmp" := Json (DocEnvelope env)]>
                            (w_files w)) w))
    as [[e ->] | [d [Hd ->]]].
  { left; eauto 10. }
  right. simpl in Hd. rewrite lookup_insert_eq in Hd. injection Hd as <-. reflexivity.
Qed.

Lemma replaced_lookup (path : string) (data : FileData) (w : World) :
  w_files (replaced path data w) !! path = Some data.
Proof. unfold replaced. simpl. apply lookup_insert_eq. Qed.

(** The fan-out invokes a prefix of the order it is given. *)
Lemma fanOut_prefix (outcome : Adapter -> list Event * option error) (order : list Adapter) :
  exists rest, order = fst (fst (fanOut outcome order)) ++ rest.
Proof.
  induction order as [|a order IH]; simpl.
  - exists []. reflexivity.
  - destruct (outcome a) as [evs [e|]]; simpl.
    + exists order. reflexivity.
    + destruct (fanOut outcome order) as [[inv more] err]; simpl in *.
      destruct IH as [rest ->]. exists rest. reflexivity.
Qed.

(** C1.  [Apply] verifies first: when a verifier is configured and rejects
    the envelope, it returns the verification error and nothing else has
    happened (no file written, no adapter invoked).  Then it persists the
    envelope to the policy cache; a failure there returns before any
    adapter runs.  Then it invokes the adapters in the order apps, browser,
    updates, network, security: the adapters invoked, the events returned
    and the failure are those of the fan-out that stops at the first
    failure, and nothing but these invocations is done to the host (no
    adapter is undone; the cache keeps the envelope).  On full success
    the events end with [policy.apply.success] carrying the envelope's
    version and that version is recorded as last applied. *)
Theorem C1_apply_pipeline_order
  (v : option Policy.Verifier) (cache : string) (o : Outcomes) (last : string)
  (envelope : PolicyEnvelope) (w : World) :
  let m := pipelineOf v cache o last in
  let '(events, err, m', w') := Policy.Apply m envelope w in
  match verdict v envelope with
  | Some e =>
      events = [] /\ err = Some (ErrWrap "verify policy: " e EmptyString) /\
      w' = w /\ m' = m
  | None =>
      match Policy.persist m envelope w with
      | (Some e, w1) =>
          events = [] /\ err = Some e /\ w' = w1 /\ m' = m /\
          w_trace w' = w_trace w
      | (None, w1) =>
          w_files w1 !! cache = Some (Json (DocEnvelope envelope)) /\
          w_files w' = w_files w1 /\
          let '(invoked, collected, failure) := fanOut (outcomeOf o) fanOutOrder in
          w_trace w' = w_trace w ++ map EffAdapter invoked /\
          match failure with
          | Some e =>
              events = collected /\ err = Some e /\ m' = m
          | None =>
              invoked = fanOutOrder /\ err = None /\
              Policy.lastVersion m' = env_Version envelope /\
              exists ev,
                events = collected ++ [ev] /\
                describe ev = ("policy.apply.success", [("version", env_Version envelope)])
          end
      end
  end.
Proof.
  intros m. unfold Policy.Apply. fold (verdict (Policy.verifier m) envelope).
  change (Policy.verifier m) with v.
  destruct (verdict v envelope) as [e|]; [simpl; auto |].
  unfold bind at 1.
  destruct (persist_cases m envelope w) as [(e & w1 & -> & Ht & _) | ->].
  { simpl. auto. }
  pose proof (replaced_lookup cache (Json (DocEnvelope envelope)) w) as Hc.
  subst m.
  destruct o as [[e1 [x1|]] [e2 [x2|]] [[s3 b3 e3] [x3|]] [e4 [x4|]] [e5 [x5|]]];
    cbn -[replaced]; rewrite ?app_nil_r, <- ?app_assoc;
    repeat split; eauto.
  eexists. split; [rewrite <- !app_assoc; reflexivity | reflexivity].
Qed.

(** ** The security reconciler *)

(** The report of [Security.Apply]: whatever its controls do, the error is
    nil and the events are the report of the five control outcomes, the
    first of which is that of [ensureSELinux] in the initial world. *)
Lemma Security_Apply_report (m : Security.Manager) (p : SecurityPolicy) (w : World) :
  exists events w' sshConfig sshService usbRules usbService,
    Security.Apply m p w = (events, None, w') /\
    map describe events
    = securityReport p (fst (Security.ensureSELinux (SELinuxEnforce p) w))
                     sshConfig sshService usbRules usbService.
Proof.
  unfold Security.Apply, bind, ret, securityReport.
  destruct (Security.ensureSELinux (SELinuxEnforce p) w) as [r1 w1].
  assert (Hev : forall (r : option error) f s pl w0,
            exists ev w0',
              (match r with
               | Some err => Events.NewEvent f [("error", GoErrors.Error err)]
               | None => Events.NewEvent s pl
               end) w0 = (ev, w0') /\ describe ev = controlEvent r f (s, pl)).
  { intros [e|] f s pl w0; rewrite NewEvent_spec; eauto. }
  edestruct (Hev r1) as (ev1 & w1' & -> & D1).
  destruct (Security.configureSSH (AllowRootLogin p) w1') as [r2 w2].
  edestruct (Hev r2) as (ev2 & w2' & -> & D2).
  destruct (Security.toggleService "sshd" (SSHEnabled p) w2') as [r3 w3].
  edestruct (Hev r3) as (ev3 & w3' & -> & D3).
  destruct (USBGuard p) eqn:Hu.
  - destruct (Security.writeUSBGuardRules m (USBGuardRules p) w3') as [r4 w4].
    destruct r4 as [e4|]; rewrite NewEvent_spec;
      match goal with
      | |- context [Security.toggleService ?s ?b ?w0] =>
          destruct (Security.toggleService s b w0) as [r5 w5]
      end;
      edestruct (Hev r5) as (ev5 & w5' & -> & D5);
      [ eexists _, w5', r2, r3, (Some e4), r5
      | eexists _, w5', r2, r3, None, r5 ];
      (split; [reflexivity |]); simpl; now rewrite D1, D2, D3, D5.
  - destruct (Security.removeUSBGuardRules m w3') as [r4 w4].
    destruct (Security.toggleService "usbguard" false w4) as [r5 w5].
    edestruct (Hev r5) as (ev5 & w5' & -> & D5).
    exists [ev1; ev2; ev3; ev5], w5', r2, r3, None, r5.
    split; [reflexivity |]. simpl. now rewrite D1, D2, D3, D5.
Qed.

(** A control that failed is reported by a failure event. *)
Lemma controlEvent_failure (err : error) (failure : string)
                           (success : string * list (string * string)) :
  controlEvent (Some err) failure success = (failure, [("error", GoErrors.Error err)]).
Proof. reflexivity. Qed.

(** C10.  For every security policy, manager and state of the host,
    [Security.Apply] returns a nil error; the failures of its controls
    appear only in the events, which are the report of the five control
    outcomes.  Hence in the policy pipeline the security step never stops
    the fan-out: once verification, the cache write and the four earlier
    adapters have succeeded, [Policy.Apply] returns a nil error, ends its
    events with [policy.apply.success] and records the version, whatever
    the security controls did. *)
Theorem C10_security_apply_never_fails
  (sm : Security.Manager) (p : SecurityPolicy) (w : World) :
  (exists events w' sshConfig sshService usbRules usbService,
     Security.Apply sm p w = (events, None, w') /\
     map describe events
     = securityReport p (fst (Security.ensureSELinux (SELinuxEnforce p) w))
                      sshConfig sshService usbRules usbService) /\
  (forall (pm : Policy.Manager) (envelope : PolicyEnvelope)
          (e1 e2 e4 : list Event) (r3 : Updates.Result) (w1 w2 w3 w4 : World),
     pd_Security (env_Policy envelope) = p ->
     Policy.security pm = Security.Apply sm ->
     verdict (Policy.verifier pm) envelope = None ->
     Policy.persist pm envelope w = (None, w1) ->
     Policy.apps pm (pd_Apps (env_Policy envelope)) w1 = (e1, None, w2) ->
     Policy.browser pm (pd_Browser (env_Policy envelope)) w2 = (e2, None, w3) ->
     Policy.updates pm (pd_Updates (env_Policy envelope)) w3 = (r3, None, w4) ->
     forall w5, Policy.network pm (pd_Network (env_Policy envelope)) w4 = (e4, None, w5) ->
     exists e5 ev w',
       Policy.Apply pm envelope w
       = (e1 ++ e2 ++ Updates.res_Events r3 ++ e4 ++ e5 ++ [ev], None,
          Policy.set_lastVersion (env_Version envelope) pm, w') /\
       describe ev = ("policy.apply.success", [("version", env_Version envelope)])).
Proof.
  split; [apply Security_Apply_report |].
  intros pm envelope e1 e2 e4 r3 w1 w2 w3 w4 Hp Hs Hv Hper H1 H2 H3 w5 H4.
  destruct (Security_Apply_report sm (pd_Security (env_Policy envelope)) w5)
    as (e5 & w6 & _ & _ & _ & _ & H5 & _).
  unfold Policy.Apply. fold (verdict (Policy.verifier pm) envelope). rewrite Hv.
  unfold bind. rewrite Hper, H1, H2, H3, H4, Hs, H5. rewrite NewEvent_spec.
  unfold ret. eexists e5, _, _.
  split; [simpl; rewrite <- !app_assoc; reflexivity | reflexivity].
Qed.

(** ** The update manager: reboot gating *)

Lemma fetchStatus_cases (w : World) :
  (exists st e, Updates.fetchStatus w = (st, None, Some e, w)) \/
  (exists st pl err,
     Updates.fetchStatus w
     = (st, pl, err, set_trace (w_trace w ++ [EffExec statusCmd]) w)).
Proof.
  unfold Updates.fetchStatus, Host.LookPath, Host.Run, bind, ret.
  destruct (bool_decide _); [| left; eauto].
  right.
  destruct (cr_err _); [eauto |].
  destruct (cr_json _) as [[]|]; eauto.
Qed.

Lemma triggerReboot_cases (m : Updates.Manager) (w : World) :
  (exists e, Updates.triggerReboot m w = (Some e, w)) \/
  (exists r,
     Updates.triggerReboot m w
     = (r, set_trace (w_trace w ++ [EffExec (Updates.rebootCommand m)]) w)).
Proof.
  unfold Updates.triggerReboot, Host.LookPath, Host.Run, bind, ret.
  destruct (Updates.rebootCommand m) as [|c args]; [left; eauto |].
  destruct (bool_decide _); [| left; eauto].
  right. destruct (cr_err _); eauto.
Qed.

(** C2, as amended.  For every update policy that requires a reboot and
    whose maintenance-window list yields no segments, [Apply] emits no
    [update.reboot.deferred] event; when the status it ends with is
    reboot-pending and it returns no error, the last thing it did to the
    host was to run the reboot command, and its last event is
    [update.reboot.triggered]. *)
Theorem C2_no_segments_never_defers
  (m : Updates.Manager) (p : UpdatePolicy) (w : World) :
  up_RebootRequired p = true ->
  Updates.parseMaintenanceWindows (up_Maintenance p) = Ok [] ->
  let '(res, err, w') := Updates.Apply m p w in
  Forall (fun ev => ev_Type ev <> "update.reboot.deferred") (Updates.res_Events res) /\
  (Updates.res_RebootRequired res = true -> err = None ->
     exists ev,
       last (Updates.res_Events res) = Some ev /\
       ev_Type ev = "update.reboot.triggered" /\
       exists before, w_trace w' = before ++ [EffExec (Updates.rebootCommand m)]).
Proof.
  intros Hr Hp. unfold Updates.Apply. rewrite Hp, Hr. unfold bind, ret.
  destruct (Updates.fetchStatus w) as [[[st pl] [e|]] w1].
  { simpl. split; [constructor | discriminate]. }
  match goal with
  | |- context [let '(a, w') := ?c w1 in _] =>
      destruct (c w1) as [[result0 o] w2] eqn:Hc
  end.
  assert (Hphase : Forall channelEvent (Updates.res_Events result0)).
  { destruct (negb _ && negb _)%bool in Hc; [| inversion Hc; constructor].
    destruct (Updates.rebase _ w1) as [[e|] w3]; rewrite NewEvent_spec in Hc.
    - inversion Hc. constructor; [left; reflexivity | constructor].
    - destruct (Updates.fetchStatus _) as [[[fresh ?] [?|]] ?];
        inversion Hc; (constructor; [right; reflexivity | constructor]). }
  assert (Hnd : Forall (fun ev => ev_Type ev <> "update.reboot.deferred")
                       (Updates.res_Events result0)).
  { eapply Forall_impl; [exact Hphase |]. intros ev [-> | ->]; discriminate. }
  clear Hc.
  destruct o as [e|]; [split; [exact Hnd | discriminate] |].
  cbn [andb].
  destruct (Updates.res_RebootRequired result0) eqn:Hrr; cbv beta iota;
    [| split; [exact Hnd | congruence]].
  destruct (Updates.now m w2) as [t w3].
  cbn [Updates.maintenanceAllowsNow]. cbv beta iota.
  destruct (triggerReboot_cases m w3) as [[e ->] | [[e|] ->]];
    rewrite NewEvent_spec; simpl.
  - split; [| discriminate].
    apply Forall_app. split; [exact Hnd |]. repeat constructor. discriminate.
  - split; [| discriminate].
    apply Forall_app. split; [exact Hnd |]. repeat constructor. discriminate.
  - split.
    { apply Forall_app. split; [exact Hnd |]. repeat constructor. discriminate. }
    intros _ _. eexists. split; [apply last_snoc |]. split; [reflexivity |]. eauto.
Qed.

Lemma C2_no_segments_never_defers_witness :
  (up_RebootRequired policyNoWindows = true /\
   Updates.parseMaintenanceWindows (up_Maintenance policyNoWindows) = Ok []) /\
  let '(res, err, w') :=
    Updates.Apply Updates.NewManager policyNoWindows rebootPendingWorld in
  Forall (fun ev => ev_Type ev <> "update.reboot.deferred") (Updates.res_Events res) /\
  (Updates.res_RebootRequired res = true -> err = None ->
     exists ev,
       last (Updates.res_Events res) = Some ev /\
       ev_Type ev = "update.reboot.triggered" /\
       exists before,
         w_trace w' = before ++ [EffExec (Updates.rebootCommand Updates.NewManager)]).
Proof.
  split; [split; reflexivity |].
  exact (C2_no_segments_never_defers Updates.NewManager policyNoWindows
           rebootPendingWorld eq_refl eq_refl).
Defined.

(** C2 as stated fails.  On a host whose status is reboot-pending, the
    policy that requires a reboot and lists no window makes [Apply] run
    [systemctl reboot] and emit [update.reboot.triggered]: nothing is
    deferred. *)
Lemma C2_counterexample :
  up_RebootRequired policyNoWindows = true /\
  Updates.parseMaintenanceWindows (up_Maintenance policyNoWindows) = Ok [] /\
  Updates.RebootRequired (fst (fst (fst (Updates.fetchStatus rebootPendingWorld)))) = true /\
  map describe
      (Updates.res_Events
         (fst (fst (Updates.Apply Updates.NewManager policyNoWindows rebootPendingWorld))))
  = [("update.reboot.triggered", [("time", "2024-01-01T04:00:00Z")])] /\
  ~ deferredNoWindow Updates.NewManager
      (Updates.Apply Updates.NewManager policyNoWindows rebootPendingWorld).
Proof.
  split; [reflexivity |]. split; [reflexivity |]. split; [reflexivity |].
  split; [vm_compute; reflexivity |].
  unfold deferredNoWindow.
  destruct (Updates.Apply Updates.NewManager policyNoWindows rebootPendingWorld)
    as [[res err] w'] eqn:E.
  intros [_ Hn]. apply Hn.
  assert (Ht : w_trace w' = [EffExec statusCmd; EffExec ["systemctl"; "reboot"]]).
  { apply (f_equal (fun x => w_trace (snd x))) in E. simpl in E. rewrite <- E.
    vm_compute. reflexivity. }
  rewrite Ht. apply list_elem_of_In. right. left. reflexivity.
Qed.

(** C9.  With no segments the window test holds at every instant, and so
    it does not stand between a pending reboot and the reboot command:
    whenever the host status is reboot-pending, the policy requires a
    reboot, its window list yields no segments and no channel change is
    due, then, whatever time [now] reads, [Apply] runs the reboot command
    and, if that succeeds, reports [update.reboot.triggered] at that time. *)
Theorem C9_no_segments_allow_any_time
  (m : Updates.Manager) (p : UpdatePolicy) (w : World) :
  (forall t : Time, Updates.maintenanceAllowsNow [] t = true) /\
  (forall (st : Updates.Status) (pl : option (list (string * JSON)))
          (t : Time) (w1 w2 w3 : World),
     up_RebootRequired p = true ->
     Updates.parseMaintenanceWindows (up_Maintenance p) = Ok [] ->
     Updates.fetchStatus w = (st, pl, None, w1) ->
     Updates.RebootRequired st = true ->
     (isEmpty (up_Channel p) || String.eqb (Updates.Channel st) (up_Channel p))%bool = true ->
     Updates.now m w1 = (t, w2) ->
     Updates.triggerReboot m w2 = (None, w3) ->
     exists ev w4,
       Updates.Apply m p w = (Updates.mkResult (Updates.State st) true [ev], None, w4) /\
       describe ev = ("update.reboot.triggered", [("time", GoTime.FormatRFC3339 t)]) /\
       w_trace w4 = w_trace w3 /\
       w_trace w3 = w_trace w2 ++ [EffExec (Updates.rebootCommand m)]).
Proof.
  split; [reflexivity |].
  intros st pl t w1 w2 w3 Hr Hp Hf Hs Hc Hn Ht.
  unfold Updates.Apply. rewrite Hp, Hr. unfold bind, ret. rewrite Hf.
  assert (Hc' : (negb (isEmpty (up_Channel p))
                 && negb (String.eqb (Updates.Channel st) (up_Channel p)))%bool = false).
  { destruct (isEmpty (up_Channel p)); [reflexivity |].
    simpl in Hc. rewrite Hc. reflexivity. }
  rewrite Hc'. cbn [andb Updates.res_RebootRequired]. rewrite Hs. cbv beta iota.
  rewrite Hn. cbn [Updates.maintenanceAllowsNow]. cbv beta iota.
  rewrite Ht. rewrite NewEvent_spec.
  eexists _, _. split; [reflexivity |]. split; [reflexivity |].
  split; [reflexivity |].
  destruct (triggerReboot_cases m w2) as [[e He] | [r He]]; rewrite He in Ht.
  - discriminate.
  - injection Ht as _ <-. reflexivity.
Qed.

Lemma C9_no_segments_allow_any_time_witness :
  let m := Updates.NewManager in
  let p := policyNoWindows in
  let w := rebootPendingWorld in
  let st := fst (fst (fst (Updates.fetchStatus w))) in
  let pl := snd (fst (fst (Updates.fetchStatus w))) in
  let w1 := snd (Updates.fetchStatus w) in
  let t := fst (Updates.now m w1) in
  let w2 := snd (Updates.now m w1) in
  let w3 := snd (Updates.triggerReboot m w2) in
  (up_RebootRequired p = true /\
   Updates.parseMaintenanceWindows (up_Maintenance p) = Ok [] /\
   Updates.fetchStatus w = (st, pl, None, w1) /\
   Updates.RebootRequired st = true /\
   (isEmpty (up_Channel p) || String.eqb (Updates.Channel st) (up_Channel p))%bool = true /\
   Updates.now m w1 = (t, w2) /\
   Updates.triggerReboot m w2 = (None, w3)) /\
  GoTime.FormatRFC3339 t = "2024-01-01T04:00:00Z" /\
  exists ev w4,
    Updates.Apply m p w = (Updates.mkResult (Updates.State st) true [ev], None, w4) /\
    describe ev = ("update.reboot.triggered", [("time", GoTime.FormatRFC3339 t)]) /\
    w_trace w4 = w_trace w3 /\
    w_trace w3 = w_trace w2 ++ [EffExec (Updates.rebootCommand m)].
Proof.
  intros m p w st pl w1 t w2 w3.
  assert (H1 : up_RebootRequired p = true) by reflexivity.
  assert (H2 : Updates.parseMaintenanceWindows (up_Maintenance p) = Ok []) by reflexivity.
  assert (H3 : Updates.fetchStatus w = (st, pl, None, w1))
    by (apply pair_eta3; vm_compute; reflexivity).
  assert (H4 : Updates.RebootRequired st = true) by (vm_compute; reflexivity).
  assert (H5 : (isEmpty (up_Channel p)
                || String.eqb (Updates.Channel st) (up_Channel p))%bool = true)
    by (vm_compute; reflexivity).
  assert (H6 : Updates.now m w1 = (t, w2)) by (apply surjective_pairing).
  assert (H7 : Updates.triggerReboot m w2 = (None, w3))
    by (apply pair_eta1; vm_compute; reflexivity).
  split; [split; [exact H1 | split; [exact H2 | split; [exact H3 | split; [exact H4 |
           split; [exact H5 | split; [exact H6 | exact H7]]]]]] |].
  split; [vm_compute; reflexivity |].
  exact (proj2 (C9_no_segments_allow_any_time m p w) st pl t w1 w2 w3 H1 H2 H3 H4 H5 H6 H7).
Defined.

(** On a host without SELinux (no [/sys/fs/selinux/enforce]) the SELinux
    control fails, and the pipeline still succeeds. *)
Lemma C10_security_apply_never_fails_witness :
  let pm := securityPipeline in
  let w := rebootPendingWorld in
  let w1 := snd (Policy.persist pm envelopeV1 w) in
  (fst (Security.ensureSELinux (SELinuxEnforce strictSecurity) w1) <> None /\
   pd_Security (env_Policy envelopeV1) = strictSecurity /\
   Policy.security pm = Security.Apply Security.NewManager /\
   verdict (Policy.verifier pm) envelopeV1 = None /\
   Policy.persist pm envelopeV1 w = (None, w1)) /\
  exists e5 ev w',
    Policy.Apply pm envelopeV1 w
    = ([] ++ [] ++ [] ++ [] ++ e5 ++ [ev], None,
       Policy.set_lastVersion (env_Version envelopeV1) pm, w') /\
    describe ev = ("policy.apply.success", [("version", env_Version envelopeV1)]).
Proof.
  intros pm w w1.
  assert (H0 : fst (Security.ensureSELinux (SELinuxEnforce strictSecurity) w1) <> None)
    by (vm_compute; discriminate).
  assert (H1 : pd_Security (env_Policy envelopeV1) = strictSecurity) by reflexivity.
  assert (H2 : Policy.security pm = Security.Apply Security.NewManager) by reflexivity.
  assert (H3 : verdict (Policy.verifier pm) envelopeV1 = None) by reflexivity.
  assert (H4 : Policy.persist pm envelopeV1 w = (None, w1))
    by (apply pair_eta1; vm_compute; reflexivity).
  split; [split; [exact H0 | split; [exact H1 | split; [exact H2 | split; [exact H3 |
           exact H4]]]] |].
  exact (proj2 (C10_security_apply_never_fails Security.NewManager strictSecurity w)
           pm envelopeV1 [] [] [] (Updates.mkResult "idle" false []) w1 w1 w1 w1
           H1 H2 H3 H4 eq_refl eq_refl eq_refl w1 eq_refl).
Defined.

(** ** The update manager: rollback gating *)

Lemma rollbacks_snoc_other t e :
  e <> EffExec rollbackCmd -> rollbacks (t ++ [e]) = rollbacks t.
Proof.
  intros H. unfold rollbacks. rewrite filter_app, length_app. simpl.
  rewrite filter_cons_False by (simpl; congruence). simpl. lia.
Qed.

Lemma rollbacks_snoc_le t e : (rollbacks (t ++ [e]) <= rollbacks t + 1)%nat.
Proof.
  unfold rollbacks. rewrite filter_app, length_app.
  pose proof (length_filter (fun e => e = EffExec rollbackCmd) [e]). simpl in *. lia.
Qed.

Lemma fetchStatus_unhealthy w payload id :
  reportsUnhealthy w payload id ->
  Updates.fetchStatus w
  = (Updates.parseStatus (Some payload), Some payload, None,
     set_trace (w_trace w ++ [EffExec statusCmd]) w).
Proof.
  intros (Hb & Hh & _). unfold Updates.fetchStatus, Host.LookPath, Host.Run, bind, ret.
  rewrite bool_decide_eq_true_2 by exact Hb.
  destruct (Hh (length (w_trace w))) as [He Hj]. unfold statusCmd in He, Hj.
  rewrite He, Hj. reflexivity.
Qed.

Lemma rollback_cases w :
  (exists e, Updates.rollback w = (Some e, w)) \/
  (exists r, Updates.rollback w = (r, set_trace (w_trace w ++ [EffExec rollbackCmd]) w)).
Proof.
  unfold Updates.rollback, Host.LookPath, Host.Run, bind, ret.
  destruct (bool_decide _); [| left; eauto].
  right. destruct (cr_err _); eauto.
Qed.

Lemma EnsureRollback_unhealthy w payload id m :
  reportsUnhealthy w payload id ->
  exists events err m' w',
    Updates.EnsureRollback m w = (events, err, m', w') /\
    reportsUnhealthy w' payload id /\
    Updates.lastRollbackAttempt m' = id /\
    (rollbacks (w_trace w') <= rollbacks (w_trace w) + 1)%nat /\
    (Updates.lastRollbackAttempt m = id ->
       events = [] /\ err = None /\ m' = m /\
       w_trace w' = w_trace w ++ [EffExec statusCmd]).
Proof.
  intros H. pose proof H as (Hb & Hh & Hn & Hid & Hne).
  unfold Updates.EnsureRollback, bind, ret.
  rewrite (fetchStatus_unhealthy w payload id H). rewrite Hn.
  cbn [negb]. cbv beta iota. fold (identifierOf (Updates.parseStatus (Some payload))).
  rewrite Hid.
  assert (Hemp : isEmpty id = false) by (now apply isEmpty_false).
  rewrite Hemp. cbn [negb andb].
  assert (H1 : reportsUnhealthy (set_trace (w_trace w ++ [EffExec statusCmd]) w) payload id)
    by exact H.
  assert (Hr1 : rollbacks (w_trace w ++ [EffExec statusCmd]) = rollbacks (w_trace w)).
  { apply rollbacks_snoc_other. discriminate. }
  destruct (String.eqb_spec id (Updates.lastRollbackAttempt m)) as [Heq | Hneq].
  - eexists _, _, _, _. split; [reflexivity |].
    split; [exact H1 |]. split; [congruence |].
    split; [simpl; rewrite Hr1; lia |]. auto.
  - destruct (rollback_cases (set_trace (w_trace w ++ [EffExec statusCmd]) w))
      as [[e ->] | [r ->]].
    + rewrite NewEvent_spec. eexists _, _, _, _. split; [reflexivity |].
      split; [exact H1 |]. split; [reflexivity |].
      split; [simpl; rewrite Hr1; lia | congruence].
    + destruct r; rewrite NewEvent_spec; (eexists _, _, _, _; split; [reflexivity |]);
        (split; [exact H1 |]); (split; [reflexivity |]);
        (split; [simpl; rewrite <- Hr1; apply rollbacks_snoc_le | congruence]).
Qed.

(** C5, as amended.  While the host keeps reporting that a rollback is
    needed with the same non-empty identifier (booted checksum, falling
    back to channel), any number of successive [EnsureRollback] calls runs
    the rollback command at most once; and when that identifier is already
    the last attempted one, the calls run no rollback command, return no
    events and leave the manager as it was. *)
Theorem C5_rollback_once_per_identifier
  (w : World) (payload : list (string * JSON)) (id : string)
  (m : Updates.Manager) (n : nat) :
  reportsUnhealthy w payload id ->
  let '(events, m', w') := ensureRollbackN n m w in
  (rollbacks (w_trace w') <= rollbacks (w_trace w) + 1)%nat /\
  (Updates.lastRollbackAttempt m = id ->
     events = [] /\ m' = m /\ rollbacks (w_trace w') = rollbacks (w_trace w)).
Proof.
  revert m w. induction n as [|n IH]; intros m w H; simpl.
  - split; [lia | auto].
  - unfold bind, ret.
    destruct (EnsureRollback_unhealthy w payload id m H)
      as (events & err & m1 & w1 & -> & H1 & Hl & Hle & Hsame).
    specialize (IH m1 w1 H1).
    destruct (ensureRollbackN n m1 w1) as [[more m2] w2].
    destruct IH as [IH1 IH2]. specialize (IH2 Hl) as (-> & -> & Hr).
    split; [lia |].
    intros Hm. destruct (Hsame Hm) as (-> & _ & -> & Ht).
    split; [reflexivity |]. split; [reflexivity |].
    rewrite Hr, Ht. apply rollbacks_snoc_other. discriminate.
Qed.

Lemma unbootableWorld_unhealthy : reportsUnhealthy unbootableWorld unbootableX "X".
Proof.
  split; [apply list_elem_of_In; left; reflexivity |].
  split; [intros n; split; reflexivity |].
  split; [vm_compute; reflexivity |].
  split; [vm_compute; reflexivity | discriminate].
Defined.

(** Scenario: X unbootable with previous deployment Y.  Three ticks run
    the rollback once, and report it once, toward Y. *)
Lemma C5_rollback_once_per_identifier_witness :
  reportsUnhealthy unbootableWorld unbootableX "X" /\
  rollbacks (w_trace (snd (ensureRollbackN 3 Updates.NewManager unbootableWorld))) = 1%nat /\
  map describe (fst (fst (ensureRollbackN 3 Updates.NewManager unbootableWorld)))
  = [("update.rollback.triggered", [("target", "Y")])] /\
  let '(events, m', w') := ensureRollbackN 3 Updates.NewManager unbootableWorld in
  (rollbacks (w_trace w') <= rollbacks (w_trace unbootableWorld) + 1)%nat /\
  (Updates.lastRollbackAttempt Updates.NewManager = "X" ->
     events = [] /\ m' = Updates.NewManager /\
     rollbacks (w_trace w') = rollbacks (w_trace unbootableWorld)).
Proof.
  split; [exact unbootableWorld_unhealthy |].
  split; [vm_compute; reflexivity |].
  split; [vm_compute; reflexivity |].
  exact (C5_rollback_once_per_identifier unbootableWorld unbootableX "X"
           Updates.NewManager 3 unbootableWorld_unhealthy).
Defined.

(** C5 as stated fails, in two ways.  (1) The booted checksum is X
    throughout, the status demands a rollback at the first and third tick
    and looks healthy at the second: the healthy tick clears the remembered
    identifier and the rollback command runs twice for the one checksum X.
    (2) When the status yields neither checksum nor channel, the computed
    identifier is empty and equal to the last attempted identifier of a
    fresh manager, yet every call runs the rollback command and returns an
    event. *)
Lemma C5_counterexample :
  ((forall n, Updates.BootedChecksum (statusOf (w_host flappingWorld n statusCmd)) = "X") /\
   rollbacks (w_trace (snd (ensureRollbackN 3 Updates.NewManager flappingWorld))) = 2%nat) /\
  (identifierOf (statusOf (w_host anonymousWorld 0 statusCmd))
   = Updates.lastRollbackAttempt Updates.NewManager /\
   rollbacks (w_trace (snd (ensureRollbackN 2 Updates.NewManager anonymousWorld))) = 2%nat /\
   map describe (fst (fst (ensureRollbackN 2 Updates.NewManager anonymousWorld)))
   = [("update.rollback.triggered", []); ("update.rollback.triggered", [])]).
Proof.
  split; [split |].
  - intros n. unfold flappingWorld, hostWorld, statusOf. cbn [w_host].
    rewrite bool_decide_eq_true_2 by reflexivity.
    destruct (Nat.eqb n 2); vm_compute; reflexivity.
  - vm_compute. reflexivity.
  - split; [vm_compute; reflexivity |].
    split; vm_compute; reflexivity.
Qed.

(** ** The event queue *)

Lemma Load_readLocked q : Events.Load q = Events.readLocked q.
Proof. reflexivity. Qed.

Lemma readLocked_world q w : snd (Events.readLocked q w) = w.
Proof.
  unfold Events.readLocked, Host.ReadFile, bind, ret.
  destruct (Host.faulty _ _ _); [reflexivity |].
  destruct (w_files w !! Events.path q) as [d|]; [| reflexivity].
  destruct (Events.isZeroBytes d); [reflexivity |].
  destruct (Events.unmarshalEvents d); reflexivity.
Qed.

Lemma readLocked_ok_readable q w pre :
  fst (Events.readLocked q w) = Ok pre -> Host.faulty OpRead (Events.path q) w = false.
Proof.
  unfold Events.readLocked, Host.ReadFile, bind, ret.
  destruct (Host.faulty _ _ _); [cbn; intros H; discriminate H | intros _; reflexivity].
Qed.

Lemma writeLocked_cases q evs w :
  (exists e w1, Events.writeLocked q evs w = (Some e, w1)) \/
  Events.writeLocked q evs w = (None, replaced (Events.path q) (Json (DocEvents evs)) w).
Proof.
  unfold Events.writeLocked, bind, ret.
  pose proof (EnsureParentDir_world (Events.path q) w) as He.
  destruct (Util.EnsureParentDir (Events.path q) w) as [[e|] w0];
    simpl in He; subst w0.
  { left; eauto. }
  destruct (WriteFile_cases (Events.path q +:+ ".tmp") (Json (DocEvents evs)) w)
    as [[e ->] | ->].
  { left; eauto. }
  destruct (Rename_cases (Events.path q +:+ ".tmp") (Events.path q)
              (set_files (<[Events.path q +:+ ".tmp" := Json (DocEvents evs)]>
                            (w_files w)) w))
    as [[e ->] | [d [Hd ->]]].
  { left; eauto. }
  right. simpl in Hd. rewrite lookup_insert_eq in Hd. injection Hd as <-. reflexivity.
Qed.

Lemma Load_replaced q evs w :
  Host.faulty OpRead (Events.path q) w = false ->
  Events.Load q (replaced (Events.path q) (Json (DocEvents evs)) w)
  = (Ok evs, replaced (Events.path q) (Json (DocEvents evs)) w).
Proof.
  intros Hf. unfold Events.Load, Host.ReadFile, bind, ret.
  change (Host.faulty OpRead (Events.path q) (replaced (Events.path q) (Json (DocEvents evs)) w))
    with (Host.faulty OpRead (Events.path q) w).
  rewrite Hf, replaced_lookup. reflexivity.
Qed.

Lemma Append_spec q pre xs w w' :
  Events.Load q w = (Ok pre, w) ->
  Events.Append q xs w = (None, w') ->
  Events.Load q w' = (Ok (pre ++ xs), w').
Proof.
  intros Hl Ha. unfold Events.Append in Ha.
  destruct xs as [|x xs].
  { injection Ha as <-. rewrite app_nil_r. exact Hl. }
  unfold bind in Ha. rewrite <- Load_readLocked, Hl in Ha.
  destruct (writeLocked_cases q (pre ++ x :: xs) w) as [(e & w1 & He) | He];
    rewrite He in Ha; [discriminate |].
  injection Ha as <-. apply Load_replaced.
  apply (readLocked_ok_readable q w pre). rewrite <- Load_readLocked, Hl. reflexivity.
Qed.

(** C7.  For every content [pre] the queue file decodes to and every event
    [x], once [Append(x)] has succeeded [Load] returns [pre] followed by
    [x]: it contains [x] and [pre] is a prefix of it.  And when the events
    of a list are appended one call after the other, a queue opened anew on
    the same path (the queue keeps no state but its path, so that is a
    restart) loads [pre] followed by the events in the order they were
    appended. *)
Theorem C7_append_then_load (q : Events.Queue) (pre : list Event) (w : World) :
  Events.Load q w = (Ok pre, w) ->
  (forall x w', Events.Append q [x] w = (None, w') ->
     Events.Load q w' = (Ok (pre ++ [x]), w') /\
     x ∈ pre ++ [x] /\ pre `prefix_of` pre ++ [x]) /\
  (forall xs w', appendEach q xs w = (None, w') ->
     Events.Load (Events.NewQueue (Events.path q)) w' = (Ok (pre ++ xs), w')).
Proof.
  intros Hl. split.
  - intros x w' Ha. split; [exact (Append_spec q pre [x] w w' Hl Ha) |].
    split; [apply elem_of_app; right; apply list_elem_of_singleton; reflexivity |].
    exists [x]. reflexivity.
  - intros xs. revert pre w Hl. induction xs as [|x xs IH]; intros pre w Hl w' Ha.
    + injection Ha as <-. rewrite app_nil_r. destruct q. exact Hl.
    + cbn [appendEach] in Ha. unfold bind, ret in Ha.
      destruct (Events.Append q [x] w) as [[e|] w1] eqn:E1; cbv beta iota in Ha;
        [discriminate Ha |].
      pose proof (Append_spec q pre [x] w w1 Hl E1) as Hl1.
      rewrite (IH _ _ Hl1 _ Ha). rewrite <- app_assoc. reflexivity.
Qed.

Lemma Load_eta q w l : fst (Events.Load q w) = Ok l -> Events.Load q w = (Ok l, w).
Proof.
  intros H. rewrite (surjective_pairing (Events.Load q w)), H.
  rewrite Load_readLocked, readLocked_world. reflexivity.
Qed.

(** The queue test: the file holds event 1, event 2 is appended. *)
Lemma C7_append_then_load_witness :
  let w' := snd (Events.Append eventQueue [eventTwo] queuedWorld) in
  (Events.Load eventQueue queuedWorld = (Ok [eventOne], queuedWorld) /\
   Events.Append eventQueue [eventTwo] queuedWorld = (None, w')) /\
  Events.Load eventQueue w' = (Ok ([eventOne] ++ [eventTwo]), w') /\
  eventTwo ∈ [eventOne] ++ [eventTwo] /\ [eventOne] `prefix_of` [eventOne] ++ [eventTwo].
Proof.
  intros w'.
  assert (H1 : Events.Load eventQueue queuedWorld = (Ok [eventOne], queuedWorld))
    by (apply (Load_eta _ _ _); vm_compute; reflexivity).
  assert (H2 : Events.Append eventQueue [eventTwo] queuedWorld = (None, w'))
    by (apply (pair_eta1 (Events.Append eventQueue [eventTwo] queuedWorld) None);
        vm_compute; reflexivity).
  split; [split; [exact H1 | exact H2] |].
  exact (proj1 (C7_append_then_load eventQueue [eventOne] queuedWorld H1) eventTwo w' H2).
Defined.

(** ** Event ids and timestamps *)

Lemma Itoa_inj (n m : Z) : Itoa n = Itoa m -> n = m.
Proof.
  unfold Itoa. intros H. apply DecimalZ.to_int_inj.
  assert (Hn : forall z, Z.to_int z <> Decimal.Pos Decimal.Nil /\
                         Z.to_int z <> Decimal.Neg Decimal.Nil).
  { intros [|p|p]; simpl; split; try discriminate;
      intros [= Hp]; exact (DecimalPos.Unsigned.to_uint_nonnil p Hp). }
  destruct (Hn n) as [Hn1 Hn2]. destruct (Hn m) as [Hm1 Hm2].
  pose proof (NilZero.isi _ Hn1 Hn2) as E1.
  pose proof (NilZero.isi _ Hm1 Hm2) as E2.
  rewrite H in E1. congruence.
Qed.

Lemma Append_cases q x w w' :
  Events.Append q [x] w = (None, w') ->
  exists pre, fst (Events.Load q w) = Ok pre /\
              w' = replaced (Events.path q) (Json (DocEvents (pre ++ [x]))) w.
Proof.
  unfold Events.Append, bind. rewrite <- Load_readLocked.
  pose proof (readLocked_world q w) as Hw. rewrite <- Load_readLocked in Hw.
  destruct (Events.Load q w) as [[pre|e] w0]; simpl in Hw; subst w0;
    [| unfold ret; discriminate].
  intros Ha. exists pre. split; [reflexivity |].
  destruct (writeLocked_cases q (pre ++ [x]) w) as [(e & w1 & He) | He];
    rewrite He in Ha; [discriminate | congruence].
Qed.

Lemma Load_set_ticks q n w :
  Events.Load q (set_ticks n w) = (fst (Events.Load q w), set_ticks n w).
Proof.
  unfold Events.Load, Host.ReadFile, bind, ret.
  change (Host.faulty OpRead (Events.path q) (set_ticks n w))
    with (Host.faulty OpRead (Events.path q) w).
  change (w_files (set_ticks n w)) with (w_files w).
  destruct (Host.faulty _ _ _); [reflexivity |].
  destruct (w_files w !! Events.path q) as [d|]; [| reflexivity].
  destruct (Events.isZeroBytes d); [reflexivity |].
  destruct (Events.unmarshalEvents d); reflexivity.
Qed.

Lemma emitAll_invariant q specs :
  forall (pre : list Event) (w w' : World),
    (forall i j, w_clock w i = w_clock w j -> i = j) ->
    Events.Load q w = (Ok pre, w) ->
    NoDup (map ev_ID pre) -> Forall (minted w) pre -> Forall (utcClockReading w) pre ->
    emitAll q specs w = (None, w') ->
    exists evs,
      Events.Load q w' = (Ok (pre ++ evs), w') /\
      map describe evs = specs /\
      NoDup (map ev_ID (pre ++ evs)) /\
      Forall (utcClockReading w) (pre ++ evs).
Proof.
  induction specs as [|[ty payload] rest IH]; intros pre w w' Hinj Hl Hnd Hm Hu He.
  - injection He as <-. exists []. rewrite app_nil_r. auto.
  - cbn [emitAll] in He. unfold bind, ret in He. rewrite NewEvent_spec in He.
    set (ev := mkEvent (Itoa (w_clock w (w_ticks w))) ty
                       (mkTime (w_clock w (S (w_ticks w))) 0) payload) in *.
    set (w1 := set_ticks (S (S (w_ticks w))) w) in *.
    destruct (Events.Append q [ev] w1) as [[e|] w2] eqn:Ea; [discriminate He |].
    assert (Hl1 : Events.Load q w1 = (Ok pre, w1)).
    { unfold w1. rewrite Load_set_ticks, Hl. reflexivity. }
    pose proof (Append_spec q pre [ev] w1 w2 Hl1 Ea) as Hl2.
    destruct (Append_cases q ev w1 w2 Ea) as (pre' & _ & Hw2).
    assert (Hc : w_clock w2 = w_clock w) by (rewrite Hw2; reflexivity).
    assert (Ht : w_ticks w2 = S (S (w_ticks w))) by (rewrite Hw2; reflexivity).
    assert (Hfresh : ev_ID ev ∉ map ev_ID pre).
    { intros Hin. apply list_elem_of_fmap in Hin as (ev' & Hid & Hin').
      rewrite Forall_forall in Hm. destruct (Hm ev' Hin') as (k & Hk & Hk').
      simpl in Hid. rewrite Hk' in Hid. apply Itoa_inj, Hinj in Hid. lia. }
    destruct (IH (pre ++ [ev]) w2 w') as (evs & Hl' & Hd & Hnd' & Hu').
    + rewrite Hc. exact Hinj.
    + exact Hl2.
    + rewrite map_app. simpl. apply NoDup_app. split; [exact Hnd |].
      split; [| apply NoDup_singleton].
      intros id Hin Hin2. apply list_elem_of_singleton in Hin2. subst id. contradiction.
    + apply Forall_app. split.
      * eapply Forall_impl; [exact Hm |]. intros ev' (k & Hk & Hk').
        exists k. rewrite Hc, Ht. split; [lia | exact Hk'].
      * constructor; [| constructor]. exists (w_ticks w). rewrite Hc, Ht.
        split; [lia | reflexivity].
    + apply Forall_app. split.
      * eapply Forall_impl; [exact Hu |]. intros ev' [Hz [n Hn]]. split; [exact Hz |].
        exists n. rewrite Hc. exact Hn.
      * constructor; [| constructor]. split; [reflexivity |].
        exists (S (w_ticks w)). rewrite Hc. reflexivity.
    + exact He.
    + exists (ev :: evs). rewrite <- app_assoc in Hl', Hnd', Hu'. simpl in *.
      split; [exact Hl' |]. split; [now rewrite Hd |]. split; [exact Hnd' |].
      eapply Forall_impl; [exact Hu' |]. intros ev' [Hz [n Hn]]. split; [exact Hz |].
      exists n. rewrite <- Hc. exact Hn.
Qed.

(** C8, as amended.  When the clock never returns the same reading twice,
    the events created by [NewEvent] and appended to an empty queue are
    loaded back in order with pairwise distinct ids, and every timestamp is
    a reading of the wall clock in UTC. *)
Theorem C8_ids_distinct_when_clock_injective
  (q : Events.Queue) (specs : list (string * list (string * string))) (w w' : World) :
  (forall i j, w_clock w i = w_clock w j -> i = j) ->
  Events.Load q w = (Ok [], w) ->
  emitAll q specs w = (None, w') ->
  exists evs,
    Events.Load q w' = (Ok evs, w') /\
    map describe evs = specs /\
    NoDup (map ev_ID evs) /\
    Forall (utcClockReading w) evs.
Proof.
  intros Hinj Hl He.
  apply (emitAll_invariant q specs [] w w' Hinj Hl); [constructor | constructor .. | exact He].
Qed.

Lemma C8_ids_distinct_when_clock_injective_witness :
  let w := rebootPendingWorld in
  let w' := snd (emitAll eventQueue twoEvents w) in
  ((forall i j, w_clock w i = w_clock w j -> i = j) /\
   Events.Load eventQueue w = (Ok [], w) /\
   emitAll eventQueue twoEvents w = (None, w')) /\
  exists evs,
    Events.Load eventQueue w' = (Ok evs, w') /\
    map describe evs = twoEvents /\
    NoDup (map ev_ID evs) /\
    Forall (utcClockReading w) evs.
Proof.
  intros w w'.
  assert (H1 : forall i j, w_clock w i = w_clock w j -> i = j)
    by (intros i j; simpl; lia).
  assert (H2 : Events.Load eventQueue w = (Ok [], w))
    by (apply (Load_eta _ _ _); vm_compute; reflexivity).
  assert (H3 : emitAll eventQueue twoEvents w = (None, w'))
    by (apply (pair_eta1 (emitAll eventQueue twoEvents w) None); vm_compute; reflexivity).
  split; [split; [exact H1 | split; [exact H2 | exact H3]] |].
  exact (C8_ids_distinct_when_clock_injective eventQueue twoEvents w w' H1 H2 H3).
Defined.

(** C8 as stated fails.  On a host whose clock advances only every fourth
    reading, the five events of one run of the security reconciler,
    appended to the queue, are loaded back with repeated ids. *)
Lemma C8_counterexample :
  let '(events, _, w1) :=
    Security.Apply Security.NewManager strictSecurity coarseClockWorld in
  let '(r, w2) := Events.Append eventQueue events w1 in
  r = None /\
  exists evs,
    fst (Events.Load eventQueue w2) = Ok evs /\
    map ev_ID evs
    = ["1704081600000000000"; "1704081600000000000"; "1704081600001000000";
       "1704081600001000000"; "1704081600002000000"] /\
    ~ NoDup (map ev_ID evs).
Proof.
  vm_compute. split; [reflexivity |].
  eexists. split; [reflexivity |]. split; [reflexivity |].
  intros H. apply NoDup_cons in H as [Hn _]. apply Hn. left.
Qed.

(** ** Credential persistence and token rotation *)

Lemma tmp_neq (p : string) : p +:+ ".tmp" <> p.
Proof.
  induction p as [|c p IH]; simpl; [discriminate |].
  intros [= H]. exact (IH H).
Qed.

Lemma Chmod_cases p w :
  (exists e, Host.Chmod p w = (Some e, w)) \/ Host.Chmod p w = (None, w).
Proof. unfold Host.Chmod. repeat case_match; eauto. Qed.

Lemma WriteSecretFile_cases p d w :
  (exists e w1, Util.WriteSecretFile p d w = (Some e, w1) /\
                w_files w1 !! p = w_files w !! p) \/
  Util.WriteSecretFile p d w = (None, replaced p d w).
Proof.
  unfold Util.WriteSecretFile.
  destruct (isEmpty p); [left; unfold ret; eauto |].
  unfold bind, ret.
  pose proof (EnsureParentDir_world p w) as He.
  destruct (Util.EnsureParentDir p w) as [[e|] w0]; simpl in He; subst w0.
  { left; eauto. }
  destruct (WriteFile_cases (p +:+ ".tmp") d w) as [[e ->] | ->].
  { left; eauto. }
  set (w1 := set_files (<[p +:+ ".tmp" := d]> (w_files w)) w).
  assert (Hsame : w_files w1 !! p = w_files w !! p).
  { unfold w1. simpl. apply lookup_insert_ne, tmp_neq. }
  destruct (Chmod_cases (p +:+ ".tmp") w1) as [[e ->] | ->].
  { left; eauto. }
  destruct (Rename_cases (p +:+ ".tmp") p w1) as [[e ->] | [d' [Hd ->]]].
  { left; eauto. }
  right. unfold w1 in Hd. simpl in Hd. rewrite lookup_insert_eq in Hd.
  injection Hd as <-. reflexivity.
Qed.

Lemma Persist_cases m cred env w :
  (exists e w1, Enroll.Persist m cred env w = (Some e, w1) /\
     w_files w1 !! Enroll.credentialsPath m = w_files w !! Enroll.credentialsPath m) \/
  Enroll.Persist m cred env w
  = (None, replaced (Enroll.credentialsPath m) (Json (DocStored cred env)) w).
Proof.
  unfold Enroll.Persist, Enroll.saveCredentials, bind, ret.
  destruct (WriteSecretFile_cases (Enroll.credentialsPath m) (Json (DocStored cred env)) w)
    as [(e & w1 & -> & Hs) | ->]; [left; eauto | right; reflexivity].
Qed.

(** C4.  [Persist(credentials, envelope)] writes the credential file once:
    when it succeeds the file holds the one document made of those
    credentials and that envelope, and when it fails the file is what it
    was.  In the policy tick, when the backend answers with an envelope and
    the tick succeeds, the agent's credentials carry the rotated token (the
    old one if the envelope has none) and the envelope's version, and the
    credential file holds exactly these credentials together with the
    envelope. *)
Theorem C4_rotation_persists_token_and_envelope
  (a : Agent.Agent) (envelope : PolicyEnvelope) (w : World) :
  (forall (m : Enroll.Manager) (cred : Credentials) (env : PolicyEnvelope) (w0 : World),
     let '(r, w1) := Enroll.Persist m cred env w0 in
     match r with
     | None => w_files w1 !! Enroll.credentialsPath m = Some (Json (DocStored cred env))
     | Some _ => w_files w1 !! Enroll.credentialsPath m
                 = w_files w0 !! Enroll.credentialsPath m
     end) /\
  ((forall token version, Agent.PullPolicy (Agent.client a) token version = Ok envelope) ->
   forall a' w',
     Agent.pullAndApplyPolicy a w = (None, a', w') ->
     Agent.credentials a'
     = mkCredentials (cred_DeviceID (Agent.credentials a))
                     (adoptedToken (Agent.credentials a) envelope)
                     (env_Version envelope) /\
     w_files w' !! Enroll.credentialsPath (Agent.enrollManager a)
     = Some (Json (DocStored (Agent.credentials a') envelope))).
Proof.
  split.
  - intros m cred env w0.
    destruct (Persist_cases m cred env w0) as [(e & w1 & -> & Hs) | ->];
      [exact Hs | apply replaced_lookup].
  - intros Hpull a1 wf. unfold Agent.pullAndApplyPolicy, bind.
    match goal with
    | |- context [let '(x, y) := ?c w in _] => destruct (c w) as [version w0]
    end.
    rewrite Hpull.
    destruct (Policy.Apply (Agent.policyManager a) envelope w0) as [[[events err] pm] w1].
    destruct (Agent.appendEvents _ events w1) as [[] w2].
    destruct err as [e|]; [unfold ret; discriminate |].
    set (a2 := if (negb (isEmpty (env_DeviceToken envelope)) && _)%bool then _ else _).
    assert (H2 : Agent.enrollManager a2 = Agent.enrollManager a /\
                 cred_DeviceID (Agent.credentials a2) = cred_DeviceID (Agent.credentials a) /\
                 cred_DeviceToken (Agent.credentials a2)
                 = adoptedToken (Agent.credentials a) envelope).
    { unfold a2, adoptedToken.
      destruct (isEmpty (env_DeviceToken envelope)); simpl; [auto |].
      destruct (String.eqb_spec (env_DeviceToken envelope)
                  (cred_DeviceToken (Agent.credentials a))) as [He | He]; simpl; auto. }
    destruct H2 as (Hm & Hi & Ht).
    cbn [Agent.enrollManager Agent.set_credentials Agent.credentials].
    rewrite Hm, Hi, Ht.
    match goal with
    | |- context [Enroll.Persist ?m ?c ?e ?w3] =>
        destruct (Persist_cases m c e w3) as [(e0 & w4 & -> & _) | ->]
    end; unfold ret; intros H; [discriminate H |].
    injection H as <- <-. split; [reflexivity | apply replaced_lookup].
Qed.

(** Token rotation: the backend answers with version [v2] and token [t2]. *)
Lemma C4_rotation_persists_token_and_envelope_witness :
  let a := rotatingAgent in
  let w := rebootPendingWorld in
  let a' := snd (fst (Agent.pullAndApplyPolicy a w)) in
  let w' := snd (Agent.pullAndApplyPolicy a w) in
  ((forall token version, Agent.PullPolicy (Agent.client a) token version = Ok envelopeV2) /\
   Agent.pullAndApplyPolicy a w = (None, a', w')) /\
  Agent.credentials a'
  = mkCredentials (cred_DeviceID (Agent.credentials a))
                  (adoptedToken (Agent.credentials a) envelopeV2)
                  (env_Version envelopeV2) /\
  w_files w' !! Enroll.credentialsPath (Agent.enrollManager a)
  = Some (Json (DocStored (Agent.credentials a') envelopeV2)).
Proof.
  intros a w a' w'.
  assert (H1 : forall token version,
             Agent.PullPolicy (Agent.client a) token version = Ok envelopeV2)
    by (intros; reflexivity).
  assert (H2 : Agent.pullAndApplyPolicy a w = (None, a', w'))
    by (apply (pair_eta_l (Agent.pullAndApplyPolicy a w) None); vm_compute; reflexivity).
  split; [split; [exact H1 | exact H2] |].
  exact (proj2 (C4_rotation_persists_token_and_envelope a envelopeV2 w) H1 a' w' H2).
Defined.


(** ** The repository's tests of the scheduler and the status parser *)

Example TestMaintenanceWindowsDaily :
  option_map (@length _)
    (match Updates.parseMaintenanceWindows ["Mon-Fri 02:00-03:00"] with
     | Ok segs => Some segs
     | Fail _ => None
     end) = Some 5%nat.
Proof. vm_compute. reflexivity. Qed.

Example TestNextMaintenanceWindow :
  match Updates.parseMaintenanceWindows ["02:00-03:00"] with
  | Ok segs =>
      Updates.nextMaintenanceWindow segs (GoTime.Date 2024 1 1 1 0 0)
      = Some (GoTime.Date 2024 1 1 2 0 0) /\
      Updates.nextMaintenanceWindow segs (GoTime.Date 2024 1 1 4 0 0)
      = Some (GoTime.Date 2024 1 2 2 0 0)
  | Fail _ => False
  end.
Proof. vm_compute. split; reflexivity. Qed.

(** Scenario: now is Monday 04:00 UTC and the window is Monday 02:00-03:00;
    the next window starts the following Monday. *)
Example reboot_deferral_next_monday :
  match Updates.parseMaintenanceWindows ["Mon 02:00-03:00"] with
  | Ok segs =>
      Updates.maintenanceAllowsNow segs (GoTime.Date 2024 1 1 4 0 0) = false /\
      option_map GoTime.FormatRFC3339
        (Updates.nextMaintenanceWindow segs (GoTime.Date 2024 1 1 4 0 0))
      = Some "2024-01-08T02:00:00Z"
  | Fail _ => False
  end.
Proof. vm_compute. split; reflexivity. Qed.

Example TestParseStatusRollbackDetection :
  Updates.parseStatus
    (Some [("reboot-required", JBool false);
           ("deployments",
            JArray [JObject [("booted", JBool true); ("checksum", JString "booted");
                             ("origin", JString "evergreenos:stable");
                             ("metadata", JObject [("ostree.boot-success", JBool false)])];
                    JObject [("checksum", JString "previous")]])])
  = Updates.mkStatus "evergreenos:stable" "idle" false true "previous" "booted".
Proof. vm_compute. reflexivity. Qed.

Example TestDeploymentNeedsRollbackFalse :
  Updates.deploymentNeedsRollback
    [("booted", JBool true); ("state", JString "idle");
     ("metadata", JObject [("ostree.boot-success", JBool true)])] = false.
Proof. vm_compute. reflexivity. Qed.

(** ** The deferral without a window is never reported *)

Lemma minuteOfWeek_range (t : Time) : 0 <= Updates.minuteOfWeek t < Updates.minutesPerWeek.
Proof.
  unfold Updates.minuteOfWeek, Updates.minutesPerWeek, Updates.minutesPerDay,
    GoTime.Weekday, GoTime.HourOf, GoTime.MinuteOf.
  set (s := GoTime.wallSeconds _).
  Z.to_euclidean_division_equations. lia.
Qed.

Lemma segmentDelta_range (minute : Z) (seg : Updates.maintenanceWindowSegment) :
  0 <= minute < Updates.minutesPerWeek -> wellFormed seg ->
  0 < Updates.segmentDelta minute seg <= Updates.minutesPerWeek.
Proof.
  unfold wellFormed, Updates.segmentDelta. intros Hm Hs.
  destruct (Z.ltb_spec minute (Updates.seg_start seg)); lia.
Qed.

Lemma bestDeltaLoop_bound (minute : Z) (segs : list Updates.maintenanceWindowSegment) :
  0 <= minute < Updates.minutesPerWeek -> Forall wellFormed segs ->
  forall best, 0 < best ->
    0 < Updates.bestDeltaLoop minute segs best <= best /\
    (segs <> [] -> Updates.bestDeltaLoop minute segs best <= Updates.minutesPerWeek).
Proof.
  intros Hm Hw. induction Hw as [|seg segs Hs Hw IH]; intros best Hb; simpl.
  - split; [lia | congruence].
  - pose proof (segmentDelta_range minute seg Hm Hs) as Hd.
    destruct (Z.eqb_spec (Updates.segmentDelta minute seg) 0); [lia |].
    destruct (Z.ltb_spec (Updates.segmentDelta minute seg) best).
    + destruct (IH (Updates.segmentDelta minute seg)) as [H1 _]; [lia |].
      split; [lia | intros _; lia].
    + destruct (IH best Hb) as [H1 _]. split; [lia | intros _; lia].
Qed.

Lemma nextMaintenanceWindow_some (segs : list Updates.maintenanceWindowSegment) (t : Time) :
  segs <> [] -> Forall wellFormed segs ->
  Updates.nextMaintenanceWindow segs t <> None.
Proof.
  intros Hne Hw. unfold Updates.nextMaintenanceWindow.
  destruct segs as [|seg segs]; [congruence |].
  pose proof (minuteOfWeek_range (GoTime.Truncate t GoTime.Minute)) as Hm.
  destruct (bestDeltaLoop_bound _ (seg :: segs) Hm Hw (Updates.minutesPerWeek * 2)) as [_ H];
    [unfold Updates.minutesPerWeek, Updates.minutesPerDay; lia |].
  specialize (H Hne).
  destruct (Z.eqb_spec (Updates.bestDeltaLoop
                          (Updates.minuteOfWeek (GoTime.Truncate t GoTime.Minute))
                          (seg :: segs) (Updates.minutesPerWeek * 2))
                       (Updates.minutesPerWeek * 2)) as [E|E]; [| discriminate].
  unfold Updates.minutesPerWeek, Updates.minutesPerDay in *. lia.
Qed.

Lemma assoc_In {A} (k : string) (l : list (string * A)) (v : A) :
  Updates.assoc k l = Some v -> exists k', In (k', v) l.
Proof.
  induction l as [|[k' v'] l IH]; simpl; [discriminate |].
  destruct (String.eqb k k').
  - intros [= ->]. eauto.
  - intros H. destruct (IH H) as [k'' Hin]. eauto.
Qed.

Lemma parseWeekday_range (token : string) (d : Z) :
  Updates.parseWeekday token = Ok d -> dayInWeek d.
Proof.
  unfold Updates.parseWeekday.
  destruct (Updates.assoc (ToLower token) Updates.weekdayLookup) as [day|] eqn:E;
    [| discriminate].
  intros [= <-]. apply assoc_In in E as [k Hin].
  unfold Updates.weekdayLookup in Hin. simpl in Hin. unfold dayInWeek.
  repeat (destruct Hin as [[= _ <-] | Hin]; [lia |]). contradiction.
Qed.

Lemma parseClock_range (value : string) (d : Z) :
  Updates.parseClock value = Ok d -> 0 <= Z.quot d GoTime.Minute < Updates.minutesPerDay.
Proof.
  unfold Updates.parseClock.
  destruct (Split value ":") as [|h [|m [|]]]; try discriminate.
  destruct (Atoi h) as [hour|]; [| discriminate].
  destruct (Z.ltb_spec hour 0); [discriminate |].
  destruct (Z.ltb_spec 23 hour); [discriminate |]. cbn [orb].
  destruct (Atoi m) as [minute|]; [| discriminate].
  destruct (Z.ltb_spec minute 0); [discriminate |].
  destruct (Z.ltb_spec 59 minute); [discriminate |]. cbn [orb].
  intros [= <-].
  replace (hour * GoTime.Hour + minute * GoTime.Minute)
    with ((60 * hour + minute) * GoTime.Minute) by (unfold GoTime.Hour; ring).
  rewrite Z.quot_mul by (unfold GoTime.Minute, GoTime.Second; lia).
  unfold Updates.minutesPerDay. lia.
Qed.

Lemma rangeDays_range (fuel : nat) (i start end_ : Z) (days : list Z) :
  Forall dayInWeek days -> Forall dayInWeek (Updates.rangeDays fuel i start end_ days).
Proof.
  revert i days. induction fuel as [|fuel IH]; intros i days Hd; simpl; [exact Hd |].
  assert (Hd' : Forall dayInWeek
                  (if Updates.seen days ((start + i) mod 7) then days
                   else days ++ [(start + i) mod 7])).
  { destruct (Updates.seen days _); [exact Hd |].
    apply Forall_app. split; [exact Hd |]. constructor; [| constructor].
    unfold dayInWeek. apply Z.mod_pos_bound. lia. }
  destruct (_ =? end_); [exact Hd' | apply IH, Hd'].
Qed.

Lemma parseDayTokens_range (tokens : list string) :
  forall days days', Forall dayInWeek days ->
    Updates.parseDayTokens tokens days = Ok days' -> Forall dayInWeek days'.
Proof.
  induction tokens as [|token tokens IH]; intros days days' Hd;
    cbn [Updates.parseDayTokens].
  - intros [= <-]. exact Hd.
  - destruct (isEmpty (TrimSpace token)); [apply IH, Hd |].
    destruct (Contains (TrimSpace token) "-").
    + destruct (SplitN2 (TrimSpace token) "-") as [|lo [|hi [|]]]; try discriminate.
      destruct (Updates.parseWeekday lo) as [start|]; [| discriminate].
      destruct (Updates.parseWeekday hi) as [end_|]; [| discriminate].
      apply IH, rangeDays_range, Hd.
    + destruct (Updates.parseWeekday (TrimSpace token)) as [day|] eqn:E; [| discriminate].
      apply IH. destruct (Updates.seen days day); [exact Hd |].
      apply Forall_app. split; [exact Hd |]. constructor; [| constructor].
      exact (parseWeekday_range _ _ E).
Qed.

Lemma parseDays_range (value : string) (days : list Z) :
  Updates.parseDays value = Ok days -> Forall dayInWeek days.
Proof.
  unfold Updates.parseDays.
  destruct (isEmpty (TrimSpace value) || String.eqb (TrimSpace value) "*")%bool.
  - intros [= <-]. constructor.
  - apply parseDayTokens_range. constructor.
Qed.

Lemma segmentsFor_wellFormed (days : list Z) (minutesStart minutesEnd : Z) :
  Forall dayInWeek days -> 0 <= minutesStart < Updates.minutesPerDay ->
  Forall wellFormed (Updates.segmentsFor days minutesStart minutesEnd).
Proof.
  intros Hd Hs. induction Hd as [|day days Hday Hd IH]; simpl; [constructor |].
  apply Forall_app. split; [| exact IH].
  unfold dayInWeek in Hday.
  assert (Hn : 0 <= (day + 1) mod 7 < 7) by (apply Z.mod_pos_bound; lia).
  unfold wellFormed, Updates.minutesPerWeek, Updates.minutesPerDay in *.
  destruct (minutesStart =? minutesEnd); [repeat constructor; simpl; lia |].
  destruct (minutesStart <? minutesEnd); repeat constructor; simpl; lia.
Qed.

Lemma buildSegments_wellFormed (days : list Z) (start end_ : Z) :
  Forall dayInWeek days -> 0 <= Z.quot start GoTime.Minute < Updates.minutesPerDay ->
  Forall wellFormed (Updates.buildSegments days start end_).
Proof.
  intros Hd Hs. unfold Updates.buildSegments.
  apply segmentsFor_wellFormed; [| exact Hs].
  destruct days; [| exact Hd].
  unfold dayInWeek. repeat constructor; lia.
Qed.

Lemma parseMaintenanceWindow_wellFormed (entry : string)
      (segs : list Updates.maintenanceWindowSegment) :
  Updates.parseMaintenanceWindow entry = Ok segs -> Forall wellFormed segs.
Proof.
  unfold Updates.parseMaintenanceWindow.
  destruct (rev (Fields entry)) as [|timePart revDays]; [discriminate |].
  unfold Updates.parseTimeRange.
  destruct (Split timePart "-") as [|a [|b [|]]]; try discriminate.
  destruct (Updates.parseClock a) as [start|] eqn:Ea; [| discriminate].
  destruct (Updates.parseClock b) as [end_|]; [| discriminate].
  pose proof (parseClock_range _ _ Ea) as Hs.
  destruct revDays as [|d0 rest].
  - intros [= <-]. apply buildSegments_wellFormed; [constructor | exact Hs].
  - destruct (Updates.parseDays _) as [days|] eqn:Ed; [| discriminate].
    intros [= <-]. apply buildSegments_wellFormed; [| exact Hs].
    exact (parseDays_range _ _ Ed).
Qed.

Lemma parseMaintenanceWindows_wellFormed (entries : list string)
      (segs : list Updates.maintenanceWindowSegment) :
  Updates.parseMaintenanceWindows entries = Ok segs -> Forall wellFormed segs.
Proof.
  unfold Updates.parseMaintenanceWindows.
  assert (H : forall acc, Forall wellFormed acc ->
                Updates.parseLoop entries acc = Ok segs -> Forall wellFormed segs).
  { induction entries as [|entry entries IH]; intros acc Ha; simpl.
    - intros [= <-]. exact Ha.
    - destruct (isEmpty (TrimSpace entry)); [apply IH, Ha |].
      destruct (Updates.parseMaintenanceWindow (TrimSpace entry)) as [parsed|] eqn:E;
        [| discriminate].
      apply IH. apply Forall_app. split; [exact Ha |].
      exact (parseMaintenanceWindow_wellFormed _ _ E). }
  apply H. constructor.
Qed.

(** X3.  Whatever the policy and the host, [Apply] emits no event with the
    payload [reason=no_window]: a parsed window list that does not admit
    the current minute is not empty and its segments start within the week,
    so a next window start always exists. *)
Theorem Apply_never_reports_no_window (m : Updates.Manager) (p : UpdatePolicy) (w : World) :
  Forall (fun ev => ev_Payload ev <> [("reason", "no_window")])
         (Updates.res_Events (fst (fst (Updates.Apply m p w)))).
Proof.
  unfold Updates.Apply, bind, ret.
  destruct (Updates.fetchStatus w) as [[[st pl] [e|]] w1]; [constructor |].
  destruct (Updates.parseMaintenanceWindows (up_Maintenance p)) as [windows|err] eqn:Hp.
  2: { rewrite NewEvent_spec. simpl. repeat constructor. discriminate. }
  pose proof (parseMaintenanceWindows_wellFormed _ _ Hp) as Hw.
  match goal with
  | |- context [let '(x, y) := ?c w1 in _] =>
      destruct (c w1) as [[result0 o] w2] eqn:Hc
  end.
  assert (Hphase : Forall (fun ev => ev_Payload ev <> [("reason", "no_window")])
                          (Updates.res_Events result0)).
  { destruct (negb _ && negb _)%bool in Hc; [| inversion Hc; constructor].
    destruct (Updates.rebase _ w1) as [[e|] w3]; rewrite NewEvent_spec in Hc.
    - inversion Hc. repeat constructor. discriminate.
    - destruct (Updates.fetchStatus _) as [[[fresh ?] [?|]] ?];
        inversion Hc; repeat constructor; discriminate. }
  clear Hc.
  destruct o as [e|]; [exact Hphase |].
  destruct (up_RebootRequired p && Updates.res_RebootRequired result0)%bool;
    cbv beta iota; [| exact Hphase].
  destruct (Updates.now m w2) as [t w3].
  destruct (Updates.maintenanceAllowsNow windows t) eqn:Ha.
  - destruct (Updates.triggerReboot m w3) as [[e|] w4]; rewrite NewEvent_spec; simpl;
      (apply Forall_app; split; [exact Hphase | repeat constructor; discriminate]).
  - assert (Hne : windows <> []) by (intros ->; discriminate Ha).
    pose proof (nextMaintenanceWindow_some windows t Hne Hw) as Hn.
    destruct (Updates.nextMaintenanceWindow windows t) as [next|]; [| congruence].
    rewrite NewEvent_spec. simpl.
    apply Forall_app; split; [exact Hphase | repeat constructor; discriminate].
Qed.

(* ===================================================================== *)
(** * Further properties of the code *)
(* ===================================================================== *)

(** ** Configuration *)

(** X1.  [Config.Validate] accepts a configuration exactly when the five
    required strings are non-empty and the three loop intervals are not
    zero.  The interval checks compare with zero only: a configuration
    that is accepted stays accepted when its intervals are replaced by any
    non-zero values, negative ones included. *)
Theorem Validate_accepts_iff_required_present (c : Config.Config) :
  (Config.Validate c = None <-> ~ validatedFieldMissing c) /\
  (Config.Validate c = None ->
   forall i : Config.Intervals,
     Config.PolicyPoll i <> 0 -> Config.StateReport i <> 0 -> Config.EventFlush i <> 0 ->
     Config.Validate (withIntervals i c) = None).
Proof.
  assert (Hiff : forall c', Config.Validate c' = None <-> ~ validatedFieldMissing c').
  { intros c'. pose proof (Validate_error_iff c') as E.
    destruct (Config.Validate c') as [e|].
    - split; [discriminate |]. intros H. exfalso. apply H, E. discriminate.
    - split; [| reflexivity]. intros _ H. apply E in H. congruence. }
  split; [apply Hiff |].
  intros Hc i Hp Hs Hf. apply Hiff. apply Hiff in Hc.
  unfold validatedFieldMissing in *. simpl. tauto.
Qed.

Lemma Validate_accepts_iff_required_present_witness :
  Config.Validate sampleConfig = None /\
  Config.Validate
    (withIntervals (Config.mkIntervals (-1) (-60 * GoTime.Second) (-1) 0 0) sampleConfig)
  = None.
Proof.
  split; [reflexivity |].
  apply (proj2 (Validate_accepts_iff_required_present sampleConfig));
    [reflexivity | simpl; lia | vm_compute; discriminate | simpl; lia].
Defined.

(** ** Maintenance windows *)

Lemma segmentsFor_withinWeek (days : list Z) (minutesStart minutesEnd : Z) :
  Forall dayInWeek days ->
  0 <= minutesStart < Updates.minutesPerDay -> 0 <= minutesEnd < Updates.minutesPerDay ->
  Forall withinWeek (Updates.segmentsFor days minutesStart minutesEnd).
Proof.
  intros Hd Hs He. induction Hd as [|day days Hday Hd IH]; simpl; [constructor |].
  apply Forall_app. split; [| exact IH].
  unfold dayInWeek in Hday.
  assert (Hn : 0 <= (day + 1) mod 7 < 7) by (apply Z.mod_pos_bound; lia).
  unfold withinWeek, Updates.minutesPerWeek, Updates.minutesPerDay in *.
  destruct (Z.eqb_spec minutesStart minutesEnd); [repeat constructor; simpl; lia |].
  destruct (Z.ltb_spec minutesStart minutesEnd); repeat constructor; simpl; lia.
Qed.

Lemma parseMaintenanceWindow_withinWeek (entry : string)
      (segs : list Updates.maintenanceWindowSegment) :
  Updates.parseMaintenanceWindow entry = Ok segs -> Forall withinWeek segs.
Proof.
  unfold Updates.parseMaintenanceWindow.
  destruct (rev (Fields entry)) as [|timePart revDays]; [discriminate |].
  unfold Updates.parseTimeRange.
  destruct (Split timePart "-") as [|a [|b [|]]]; try discriminate.
  destruct (Updates.parseClock a) as [start|] eqn:Ea; [| discriminate].
  destruct (Updates.parseClock b) as [end_|] eqn:Eb; [| discriminate].
  pose proof (parseClock_range _ _ Ea) as Hs.
  pose proof (parseClock_range _ _ Eb) as He.
  assert (Hall : Forall dayInWeek [0; 1; 2; 3; 4; 5; 6])
    by (unfold dayInWeek; repeat constructor; lia).
  destruct revDays as [|d0 rest].
  - intros [= <-]. unfold Updates.buildSegments.
    apply segmentsFor_withinWeek; assumption.
  - destruct (Updates.parseDays _) as [days|] eqn:Ed; [| discriminate].
    intros [= <-]. unfold Updates.buildSegments.
    apply segmentsFor_withinWeek; [| assumption | assumption].
    destruct days; [exact Hall | exact (parseDays_range _ _ Ed)].
Qed.

(** X2.  Every segment that [parseMaintenanceWindows] produces lies within
    the week: it starts at a minute of the week, ends no earlier than it
    starts and no later than the end of the week, and spans at most one
    day.  A window that crosses midnight is split at midnight, the part
    after a Saturday night falling on Sunday at the start of the week. *)
Theorem parseMaintenanceWindows_withinWeek (entries : list string)
      (segs : list Updates.maintenanceWindowSegment) :
  Updates.parseMaintenanceWindows entries = Ok segs -> Forall withinWeek segs.
Proof.
  unfold Updates.parseMaintenanceWindows.
  assert (H : forall acc, Forall withinWeek acc ->
                Updates.parseLoop entries acc = Ok segs -> Forall withinWeek segs).
  { induction entries as [|entry entries IH]; intros acc Ha; simpl.
    - intros [= <-]. exact Ha.
    - destruct (isEmpty (TrimSpace entry)); [apply IH, Ha |].
      destruct (Updates.parseMaintenanceWindow (TrimSpace entry)) as [parsed|] eqn:E;
        [| discriminate].
      apply IH. apply Forall_app. split; [exact Ha |].
      exact (parseMaintenanceWindow_withinWeek _ _ E). }
  apply H. constructor.
Qed.

Lemma parseMaintenanceWindows_withinWeek_witness :
  Updates.parseMaintenanceWindows ["Sat 23:00-01:00"]
  = Ok [Updates.mkSegment (6 * 1440 + 23 * 60) (7 * 1440); Updates.mkSegment 0 60] /\
  Forall withinWeek
    [Updates.mkSegment (6 * 1440 + 23 * 60) (7 * 1440); Updates.mkSegment 0 60].
Proof.
  split; [vm_compute; reflexivity |].
  apply (parseMaintenanceWindows_withinWeek ["Sat 23:00-01:00"]).
  vm_compute. reflexivity.
Defined.

(** ** The next maintenance window *)

Lemma minuteOfWeek_minutes (t : Time) :
  Updates.minuteOfWeek t
  = (GoTime.wallSeconds (GoTime.Truncate t GoTime.Minute) / 60 + 4 * 1440) mod 10080.
Proof.
  unfold Updates.minuteOfWeek, Updates.minutesPerDay,
    GoTime.Weekday, GoTime.HourOf, GoTime.MinuteOf.
  set (s := GoTime.wallSeconds _).
  Z.to_euclidean_division_equations. lia.
Qed.

Lemma Truncate_minute_Add (t : Time) (d : Z) :
  GoTime.Truncate (GoTime.Add (GoTime.Truncate t GoTime.Minute) (d * GoTime.Minute))
                  GoTime.Minute
  = GoTime.Add (GoTime.Truncate t GoTime.Minute) (d * GoTime.Minute).
Proof.
  unfold GoTime.Truncate, GoTime.Add. simpl. f_equal.
  unfold GoTime.Minute, GoTime.Second.
  Z.to_euclidean_division_equations. lia.
Qed.

Lemma wallSeconds_Add_minutes (t : Time) (d : Z) :
  GoTime.wallSeconds (GoTime.Add (GoTime.Truncate t GoTime.Minute) (d * GoTime.Minute)) / 60
  = GoTime.wallSeconds (GoTime.Truncate (GoTime.Truncate t GoTime.Minute) GoTime.Minute) / 60
    + d.
Proof.
  unfold GoTime.wallSeconds, GoTime.Truncate, GoTime.Add. simpl.
  unfold GoTime.Minute, GoTime.Second.
  Z.to_euclidean_division_equations. lia.
Qed.

(** The minute of the week advances with the clock, modulo the week. *)
Lemma minuteOfWeek_Add (t : Time) (d : Z) :
  Updates.minuteOfWeek (GoTime.Add (GoTime.Truncate t GoTime.Minute) (d * GoTime.Minute))
  = (Updates.minuteOfWeek (GoTime.Truncate t GoTime.Minute) + d) mod 10080.
Proof.
  rewrite !minuteOfWeek_minutes, Truncate_minute_Add, wallSeconds_Add_minutes.
  set (s := GoTime.wallSeconds _ / 60).
  Z.to_euclidean_division_equations. lia.
Qed.

Lemma bestDeltaLoop_least (minute : Z) (segs : list Updates.maintenanceWindowSegment) :
  0 <= minute < Updates.minutesPerWeek -> Forall wellFormed segs ->
  forall best, 0 < best ->
    (Updates.bestDeltaLoop minute segs best = best \/
     exists seg, In seg segs /\
       Updates.bestDeltaLoop minute segs best = Updates.segmentDelta minute seg) /\
    (forall seg, In seg segs ->
       Updates.bestDeltaLoop minute segs best <= Updates.segmentDelta minute seg).
Proof.
  intros Hm Hw. induction Hw as [|seg segs Hs Hw IH]; intros best Hb; simpl.
  - split; [left; reflexivity | intros seg []].
  - pose proof (segmentDelta_range minute seg Hm Hs) as Hd.
    destruct (Z.eqb_spec (Updates.segmentDelta minute seg) 0); [lia |].
    destruct (Z.ltb_spec (Updates.segmentDelta minute seg) best) as [Hlt|Hge].
    + destruct (IH (Updates.segmentDelta minute seg)) as [H1 H2]; [lia |].
      destruct (bestDeltaLoop_bound minute segs Hm Hw
                  (Updates.segmentDelta minute seg)) as [[_ H3] _]; [lia |].
      split.
      * right. destruct H1 as [-> | (seg' & Hin & ->)]; eauto.
      * intros seg' [<- | Hin]; [exact H3 | exact (H2 _ Hin)].
    + destruct (IH best Hb) as [H1 H2].
      destruct (bestDeltaLoop_bound minute segs Hm Hw best Hb) as [[_ H3] _].
      split.
      * destruct H1 as [-> | (seg' & Hin & ->)]; [left; reflexivity | right; eauto].
      * intros seg' [<- | Hin]; [lia | exact (H2 _ Hin)].
Qed.



(** ** The update reconciler *)

(** X5.  A policy with a window entry that does not parse is rejected
    before anything is changed: [Apply] fails, and the only command it may
    have run is the status query -- no rebase, although the channel may
    differ, and no reboot.  When the status query succeeded, the error is
    the parse error and the one event is [update.reboot.failure]. *)
Theorem Apply_invalid_window_changes_nothing
    (m : Updates.Manager) (p : UpdatePolicy) (w : World) (err : error) :
  Updates.parseMaintenanceWindows (up_Maintenance p) = Fail err ->
  exists res e w',
    Updates.Apply m p w = (res, Some e, w') /\
    (w_trace w' = w_trace w \/ w_trace w' = w_trace w ++ [EffExec statusCmd]) /\
    w_files w' = w_files w /\
    (snd (fst (Updates.fetchStatus w)) = None ->
       e = err /\
       map describe (Updates.res_Events res)
       = [("update.reboot.failure", [("error", GoErrors.Error err)])]).
Proof.
  intros Hp. unfold Updates.Apply, bind, ret. rewrite Hp.
  destruct (fetchStatus_cases w) as [(st & e & Hf) | (st & pl & [e|] & Hf)];
    rewrite Hf; cbv beta iota.
  - eexists _, _, _. split; [reflexivity |]. split; [left; reflexivity |].
    split; [reflexivity | discriminate].
  - eexists _, _, _. split; [reflexivity |]. split; [right; reflexivity |].
    split; [reflexivity | discriminate].
  - rewrite NewEvent_spec.
    eexists _, _, _. split; [reflexivity |]. split; [right; reflexivity |].
    split; [reflexivity |]. intros _. split; reflexivity.
Qed.

Lemma Apply_invalid_window_changes_nothing_witness :
  let err := errorOf (Updates.parseMaintenanceWindows (up_Maintenance policyBadWindow)) in
  Updates.parseMaintenanceWindows (up_Maintenance policyBadWindow) = Fail err /\
  snd (fst (Updates.fetchStatus rebootPendingWorld)) = None /\
  exists res e w',
    Updates.Apply Updates.NewManager policyBadWindow rebootPendingWorld = (res, Some e, w') /\
    (w_trace w' = w_trace rebootPendingWorld \/
     w_trace w' = w_trace rebootPendingWorld ++ [EffExec statusCmd]) /\
    w_files w' = w_files rebootPendingWorld /\
    (snd (fst (Updates.fetchStatus rebootPendingWorld)) = None ->
       e = err /\
       map describe (Updates.res_Events res)
       = [("update.reboot.failure", [("error", GoErrors.Error err)])]).
Proof.
  intros err.
  assert (H : Updates.parseMaintenanceWindows (up_Maintenance policyBadWindow) = Fail err)
    by (vm_compute; reflexivity).
  split; [exact H |]. split; [vm_compute; reflexivity |].
  exact (Apply_invalid_window_changes_nothing Updates.NewManager policyBadWindow
           rebootPendingWorld err H).
Defined.

(** X6.  When a reboot is required and pending, no rebase is called for
    and the clock reads a time outside every parsed window, [Apply] defers:
    the next window start exists, the one event is
    [update.reboot.deferred] carrying it as [scheduled_for], the call
    succeeds, and nothing is run after the clock was read -- in particular
    not the reboot command. *)
Theorem Apply_defers_outside_window
    (m : Updates.Manager) (p : UpdatePolicy) (w : World)
    (segs : list Updates.maintenanceWindowSegment)
    (st : Updates.Status) (pl : option (list (string * JSON)))
    (t : Time) (w1 w2 : World) :
  up_RebootRequired p = true ->
  Updates.parseMaintenanceWindows (up_Maintenance p) = Ok segs ->
  Updates.fetchStatus w = (st, pl, None, w1) ->
  Updates.RebootRequired st = true ->
  (isEmpty (up_Channel p) || String.eqb (Updates.Channel st) (up_Channel p))%bool = true ->
  Updates.now m w1 = (t, w2) ->
  Updates.maintenanceAllowsNow segs t = false ->
  exists next ev w3,
    Updates.nextMaintenanceWindow segs t = Some next /\
    Updates.Apply m p w = (Updates.mkResult (Updates.State st) true [ev], None, w3) /\
    describe ev = ("update.reboot.deferred", [("scheduled_for", GoTime.FormatRFC3339 next)]) /\
    w_trace w3 = w_trace w2.
Proof.
  intros Hr Hp Hf Hs Hc Hn Ha.
  assert (Hne : segs <> []) by (intros ->; discriminate Ha).
  pose proof (nextMaintenanceWindow_some segs t Hne
                (parseMaintenanceWindows_wellFormed _ _ Hp)) as Hnext.
  destruct (Updates.nextMaintenanceWindow segs t) as [next|] eqn:En; [| congruence].
  unfold Updates.Apply. rewrite Hp, Hr. unfold bind, ret. rewrite Hf.
  assert (Hc' : (negb (isEmpty (up_Channel p))
                 && negb (String.eqb (Updates.Channel st) (up_Channel p)))%bool = false).
  { destruct (isEmpty (up_Channel p)); [reflexivity |].
    simpl in Hc. rewrite Hc. reflexivity. }
  rewrite Hc'. cbn [andb Updates.res_RebootRequired]. rewrite Hs. cbv beta iota.
  rewrite Hn, Ha, En. rewrite NewEvent_spec.
  eexists _, _, _. split; [reflexivity |]. split; [reflexivity |].
  split; reflexivity.
Qed.

Lemma Apply_defers_outside_window_witness :
  let m := Updates.NewManager in
  let p := policyMondayWindow in
  let w := rebootPendingWorld in
  let segs := [Updates.mkSegment (1440 + 120) (1440 + 180)] in
  let st := fst (fst (fst (Updates.fetchStatus w))) in
  let pl := snd (fst (fst (Updates.fetchStatus w))) in
  let w1 := snd (Updates.fetchStatus w) in
  let t := fst (Updates.now m w1) in
  let w2 := snd (Updates.now m w1) in
  (up_RebootRequired p = true /\
   Updates.parseMaintenanceWindows (up_Maintenance p) = Ok segs /\
   Updates.fetchStatus w = (st, pl, None, w1) /\
   Updates.RebootRequired st = true /\
   (isEmpty (up_Channel p) || String.eqb (Updates.Channel st) (up_Channel p))%bool = true /\
   Updates.now m w1 = (t, w2) /\
   Updates.maintenanceAllowsNow segs t = false) /\
  option_map GoTime.FormatRFC3339 (Updates.nextMaintenanceWindow segs t)
  = Some "2024-01-08T02:00:00Z" /\
  exists next ev w3,
    Updates.nextMaintenanceWindow segs t = Some next /\
    Updates.Apply m p w = (Updates.mkResult (Updates.State st) true [ev], None, w3) /\
    describe ev = ("update.reboot.deferred", [("scheduled_for", GoTime.FormatRFC3339 next)]) /\
    w_trace w3 = w_trace w2.
Proof.
  intros m p w segs st pl w1 t w2.
  assert (H1 : up_RebootRequired p = true) by reflexivity.
  assert (H2 : Updates.parseMaintenanceWindows (up_Maintenance p) = Ok segs)
    by (vm_compute; reflexivity).
  assert (H3 : Updates.fetchStatus w = (st, pl, None, w1))
    by (apply pair_eta3; vm_compute; reflexivity).
  assert (H4 : Updates.RebootRequired st = true) by (vm_compute; reflexivity).
  assert (H5 : (isEmpty (up_Channel p)
                || String.eqb (Updates.Channel st) (up_Channel p))%bool = true)
    by (vm_compute; reflexivity).
  assert (H6 : Updates.now m w1 = (t, w2)) by (apply surjective_pairing).
  assert (H7 : Updates.maintenanceAllowsNow segs t = false) by (vm_compute; reflexivity).
  split; [split; [exact H1 | split; [exact H2 | split; [exact H3 | split; [exact H4 |
           split; [exact H5 | split; [exact H6 | exact H7]]]]]] |].
  split; [vm_compute; reflexivity |].
  exact (Apply_defers_outside_window m p w segs st pl t w1 w2 H1 H2 H3 H4 H5 H6 H7).
Defined.

(** ** Rollback orchestration *)

(** X7.  A rollback is attempted once, whether or not it succeeds.  On a
    host that keeps reporting the same unhealthy deployment, the call of
    [EnsureRollback] that attempts the rollback returns one event --
    [update.rollback.failure] with an error, or
    [update.rollback.triggered] -- and the next call returns no event and
    no error and runs no rollback command: a failed rollback is not
    retried. *)
Theorem EnsureRollback_failure_not_retried
    (w : World) (payload : list (string * JSON)) (id : string) (m : Updates.Manager) :
  reportsUnhealthy w payload id ->
  Updates.lastRollbackAttempt m <> id ->
  exists ev err m1 w1 w2,
    Updates.EnsureRollback m w = ([ev], err, m1, w1) /\
    (ev_Type ev = "update.rollback.failure" /\ err <> None \/
     ev_Type ev = "update.rollback.triggered" /\ err = None) /\
    Updates.EnsureRollback m1 w1 = ([], None, m1, w2) /\
    rollbacks (w_trace w2) = rollbacks (w_trace w1).
Proof.
  intros H Hm. pose proof H as (Hb & Hh & Hn & Hid & Hne).
  assert (Hfirst : exists ev err w1,
            Updates.EnsureRollback m w
            = ([ev], err, Updates.set_lastRollbackAttempt id m, w1) /\
            (ev_Type ev = "update.rollback.failure" /\ err <> None \/
             ev_Type ev = "update.rollback.triggered" /\ err = None) /\
            reportsUnhealthy w1 payload id).
  { unfold Updates.EnsureRollback, bind, ret.
    rewrite (fetchStatus_unhealthy w payload id H). rewrite Hn.
    cbn [negb]. cbv beta iota. fold (identifierOf (Updates.parseStatus (Some payload))).
    rewrite Hid.
    assert (Hemp : isEmpty id = false) by (now apply isEmpty_false).
    rewrite Hemp. cbn [negb andb].
    destruct (String.eqb_spec id (Updates.lastRollbackAttempt m)) as [Heq | Hneq];
      [congruence |].
    destruct (rollback_cases (set_trace (w_trace w ++ [EffExec statusCmd]) w))
      as [[e ->] | [r ->]].
    - rewrite NewEvent_spec. eexists _, _, _. split; [reflexivity |].
      split; [left; split; [reflexivity | discriminate] | exact H].
    - destruct r; rewrite NewEvent_spec; eexists _, _, _; (split; [reflexivity |]).
      + split; [left; split; [reflexivity | discriminate] | exact H].
      + split; [right; split; reflexivity | exact H]. }
  destruct Hfirst as (ev & err & w1 & E1 & Hkind & H1).
  destruct (EnsureRollback_unhealthy w1 payload id (Updates.set_lastRollbackAttempt id m) H1)
    as (events & err2 & m2 & w2 & E2 & _ & _ & _ & Hsame).
  destruct (Hsame eq_refl) as (-> & -> & -> & Ht).
  exists ev, err, (Updates.set_lastRollbackAttempt id m), w1, w2.
  split; [exact E1 |]. split; [exact Hkind |]. split; [exact E2 |].
  rewrite Ht. apply rollbacks_snoc_other. discriminate.
Qed.

Lemma failingRollbackWorld_unhealthy :
  reportsUnhealthy failingRollbackWorld unbootableX "X".
Proof.
  split; [apply list_elem_of_In; left; reflexivity |].
  split; [intros n; split; reflexivity |].
  split; [vm_compute; reflexivity |].
  split; [vm_compute; reflexivity | discriminate].
Defined.

Lemma EnsureRollback_failure_not_retried_witness :
  (reportsUnhealthy failingRollbackWorld unbootableX "X" /\
   Updates.lastRollbackAttempt Updates.NewManager <> "X") /\
  map describe
      (fst (fst (fst (Updates.EnsureRollback Updates.NewManager failingRollbackWorld))))
  = [("update.rollback.failure",
      [("error", "rpm-ostree rollback: exit status (error: no previous deployment)")])] /\
  exists ev err m1 w1 w2,
    Updates.EnsureRollback Updates.NewManager failingRollbackWorld = ([ev], err, m1, w1) /\
    (ev_Type ev = "update.rollback.failure" /\ err <> None \/
     ev_Type ev = "update.rollback.triggered" /\ err = None) /\
    Updates.EnsureRollback m1 w1 = ([], None, m1, w2) /\
    rollbacks (w_trace w2) = rollbacks (w_trace w1).
Proof.
  split; [split; [exact failingRollbackWorld_unhealthy | discriminate] |].
  split; [vm_compute; reflexivity |].
  apply (EnsureRollback_failure_not_retried failingRollbackWorld unbootableX "X"
           Updates.NewManager failingRollbackWorld_unhealthy).
  discriminate.
Defined.

Lemma rollbackRequested_cases (w : World) :
  (exists r, Updates.rollbackRequested w = (r, w)) \/
  (exists r, Updates.rollbackRequested w
             = (r, set_trace (w_trace w ++ [EffExec activeCmd]) w)).
Proof.
  unfold Updates.rollbackRequested, Host.LookPath, Host.Run, bind, ret.
  destruct (bool_decide _); [| left; eauto].
  right. destruct (cr_err _) as [e|]; [| eauto].
  destruct (bool_decide _); eauto.
Qed.

(** X8.  When the status does not demand a rollback and the rollback
    target is not found active -- [systemctl] is missing, [is-active]
    exits with code 3, or the probe fails in any other way --
    [EnsureRollback] returns no event and no error, runs no rollback
    command and forgets the last attempted identifier: a probe failure is
    swallowed, and the next unhealthy status is attempted afresh. *)
Theorem EnsureRollback_healthy_forgets
    (m : Updates.Manager) (w w1 : World)
    (st : Updates.Status) (pl : option (list (string * JSON))) :
  Updates.fetchStatus w = (st, pl, None, w1) ->
  Updates.NeedsRollback st = false ->
  (fst (fst (Updates.rollbackRequested w1)) = false \/
   snd (fst (Updates.rollbackRequested w1)) <> None) ->
  exists w2,
    Updates.EnsureRollback m w
    = ([], None, Updates.set_lastRollbackAttempt EmptyString m, w2) /\
    rollbacks (w_trace w2) = rollbacks (w_trace w) /\
    w_files w2 = w_files w.
Proof.
  intros Hf Hn Hprobe.
  unfold Updates.EnsureRollback, bind, ret. rewrite Hf, Hn.
  assert (Hw1 : w1 = set_trace (w_trace w ++ [EffExec statusCmd]) w).
  { destruct (fetchStatus_cases w) as [(st' & e & Hf') | (st' & pl' & err & Hf')];
      rewrite Hf' in Hf; congruence. }
  assert (Hr1 : rollbacks (w_trace w1) = rollbacks (w_trace w)).
  { rewrite Hw1. simpl. apply rollbacks_snoc_other. discriminate. }
  destruct (rollbackRequested_cases w1) as [[[pending derr] E] | [[pending derr] E]];
    rewrite E in *; simpl in Hprobe.
  - exists w1. split.
    + destruct derr as [e|]; [reflexivity |].
      destruct Hprobe as [-> | Hc]; [reflexivity | congruence].
    + split; [exact Hr1 | rewrite Hw1; reflexivity].
  - exists (set_trace (w_trace w1 ++ [EffExec activeCmd]) w1). split.
    + destruct derr as [e|]; [reflexivity |].
      destruct Hprobe as [-> | Hc]; [reflexivity | congruence].
    + split; [| rewrite Hw1; reflexivity].
      simpl. rewrite <- Hr1. apply rollbacks_snoc_other. discriminate.
Qed.

Lemma EnsureRollback_healthy_forgets_witness :
  let w := healthyWorld in
  let st := fst (fst (fst (Updates.fetchStatus w))) in
  let pl := snd (fst (fst (Updates.fetchStatus w))) in
  let w1 := snd (Updates.fetchStatus w) in
  (Updates.fetchStatus w = (st, pl, None, w1) /\
   Updates.NeedsRollback st = false /\
   GoErrors.AsExit (errorOf (match cr_err (w_host w1 1 activeCmd) with
                             | Some e => Fail (A := unit) e
                             | None => Ok tt
                             end)) = Some 3 /\
   fst (fst (Updates.rollbackRequested w1)) = false) /\
  exists w2,
    Updates.EnsureRollback (attempted "X") w
    = ([], None, Updates.set_lastRollbackAttempt EmptyString (attempted "X"), w2) /\
    rollbacks (w_trace w2) = rollbacks (w_trace w) /\
    w_files w2 = w_files w.
Proof.
  intros w st pl w1.
  assert (H1 : Updates.fetchStatus w = (st, pl, None, w1))
    by (apply pair_eta3; vm_compute; reflexivity).
  assert (H2 : Updates.NeedsRollback st = false) by (vm_compute; reflexivity).
  assert (H3 : fst (fst (Updates.rollbackRequested w1)) = false)
    by (vm_compute; reflexivity).
  split; [split; [exact H1 | split; [exact H2 | split; [vm_compute; reflexivity |
                                                          exact H3]]] |].
  exact (EnsureRollback_healthy_forgets (attempted "X") w w1 st pl H1 H2 (or_introl H3)).
Defined.

(** ** Writing through a temporary file *)

Lemma sameButTmp_refl (path : string) (w : World) : sameButTmp path w w.
Proof. exists (w_files w). split; [destruct w; reflexivity | reflexivity]. Qed.

Lemma sameButTmp_contentAt (path : string) (w w1 : World) :
  sameButTmp path w w1 -> contentAt path w1 = contentAt path w.
Proof.
  intros (files & -> & H). unfold contentAt. simpl.
  apply H. intros E. exact (tmp_neq path (eq_sym E)).
Qed.

Lemma sameButTmp_faulty (path : string) (w w1 : World) (op : FsOp) (p : string) :
  sameButTmp path w w1 -> Host.faulty op p w1 = Host.faulty op p w.
Proof. intros (files & -> & _). reflexivity. Qed.

(** Either a step failed and the world differs at most in the temporary
    file, or every step succeeded and the file was replaced. *)
Lemma writeThenRename_cases (path : string) (data : FileData)
      (onWrite onRename : error -> error) (w : World) :
  (exists e w1, writeThenRename path data onWrite onRename w = (Some e, w1) /\
                sameButTmp path w w1) \/
  writeThenRename path data onWrite onRename w = (None, replaced path data w).
Proof.
  unfold writeThenRename, bind, ret.
  pose proof (EnsureParentDir_world path w) as He.
  destruct (Util.EnsureParentDir path w) as [[e|] w0]; simpl in He; subst w0.
  { left. eexists _, _. split; [reflexivity | apply sameButTmp_refl]. }
  destruct (WriteFile_cases (path +:+ ".tmp") data w) as [[e ->] | ->].
  { left. eexists _, _. split; [reflexivity | apply sameButTmp_refl]. }
  set (w1 := set_files (<[path +:+ ".tmp" := data]> (w_files w)) w).
  destruct (Rename_cases (path +:+ ".tmp") path w1) as [[e ->] | [d' [Hd ->]]].
  { left. eexists _, _. split; [reflexivity |].
    exists (<[path +:+ ".tmp" := data]> (w_files w)). split; [reflexivity |].
    intros p Hp. apply lookup_insert_ne. congruence. }
  right. unfold w1 in Hd. simpl in Hd. rewrite lookup_insert_eq in Hd.
  injection Hd as <-. reflexivity.
Qed.

Lemma writeLocked_writeThenRename (q : Events.Queue) (evs : list Event) :
  Events.writeLocked q evs
  = writeThenRename (Events.path q) (Json (DocEvents evs))
      (fun err => ErrWrap "write temp events: " err EmptyString)
      (fun err => ErrWrap "rename events: " err EmptyString).
Proof. reflexivity. Qed.

Lemma contentAt_replaced (path : string) (data : FileData) (w : World) :
  contentAt path (replaced path data w) = Some data.
Proof. apply replaced_lookup. Qed.

(** What [Load] returns is decided by the content of the queue file and
    by whether it can be read. *)
Lemma Load_content (q : Events.Queue) (w : World) :
  Host.faulty OpRead (Events.path q) w = false ->
  Events.Load q w
  = (match contentAt (Events.path q) w with
     | None => Ok []
     | Some data =>
         if Events.isZeroBytes data then Ok []
         else match Events.unmarshalEvents data with
              | Fail err => Fail (ErrWrap "decode events: " err EmptyString)
              | Ok events => Ok events
              end
     end, w).
Proof.
  intros Hf. unfold Events.Load, Host.ReadFile, bind, ret, contentAt. rewrite Hf.
  destruct (w_files w !! Events.path q) as [d|]; [| reflexivity].
  destruct (Events.isZeroBytes d); [reflexivity |].
  destruct (Events.unmarshalEvents d); reflexivity.
Qed.

(** ** The event queue at its edges *)

(** X9.  A queue file whose content does not decode blocks the queue:
    [Load] fails with the decoding error, [Append] of any events fails
    with the same error and leaves the host as it was, so the file is not
    repaired; and [appendEvents], which only logs the failure, drops the
    events. *)
Theorem corrupt_queue_drops_events
    (a : Agent.Agent) (w : World) (data : FileData) (e : error)
    (x : Event) (xs : list Event) :
  Host.faulty OpRead (Events.path (Agent.eventQueue a)) w = false ->
  contentAt (Events.path (Agent.eventQueue a)) w = Some data ->
  Events.isZeroBytes data = false ->
  Events.unmarshalEvents data = Fail e ->
  let failure := ErrWrap "decode events: " e EmptyString in
  Events.Load (Agent.eventQueue a) w = (Fail failure, w) /\
  Events.Append (Agent.eventQueue a) (x :: xs) w = (Some failure, w) /\
  Agent.appendEvents a (x :: xs) w = (tt, w).
Proof.
  intros Hf Hc Hz Hd failure.
  assert (HL : Events.Load (Agent.eventQueue a) w = (Fail failure, w)).
  { rewrite Load_content by exact Hf. rewrite Hc, Hz, Hd. reflexivity. }
  assert (HA : Events.Append (Agent.eventQueue a) (x :: xs) w = (Some failure, w)).
  { unfold Events.Append, bind. rewrite <- Load_readLocked, HL. reflexivity. }
  split; [exact HL |]. split; [exact HA |].
  unfold Agent.appendEvents, bind, ret. rewrite HA. reflexivity.
Qed.

Lemma corrupt_queue_drops_events_witness :
  let a := rotatingAgent in
  let w := corruptQueueWorld in
  let e := ErrMsg "invalid character looking for beginning of value" in
  (Host.faulty OpRead (Events.path (Agent.eventQueue a)) w = false /\
   contentAt (Events.path (Agent.eventQueue a)) w = Some (Text "<<<<<<< HEAD") /\
   Events.isZeroBytes (Text "<<<<<<< HEAD") = false /\
   Events.unmarshalEvents (Text "<<<<<<< HEAD") = Fail e) /\
  Events.Load (Agent.eventQueue a) w = (Fail (ErrWrap "decode events: " e EmptyString), w) /\
  Events.Append (Agent.eventQueue a) [eventOne] w
  = (Some (ErrWrap "decode events: " e EmptyString), w) /\
  Agent.appendEvents a [eventOne] w = (tt, w).
Proof.
  intros a w e.
  assert (H1 : Host.faulty OpRead (Events.path (Agent.eventQueue a)) w = false)
    by (vm_compute; reflexivity).
  assert (H2 : contentAt (Events.path (Agent.eventQueue a)) w = Some (Text "<<<<<<< HEAD"))
    by (vm_compute; reflexivity).
  assert (H3 : Events.isZeroBytes (Text "<<<<<<< HEAD") = false) by reflexivity.
  assert (H4 : Events.unmarshalEvents (Text "<<<<<<< HEAD") = Fail e) by reflexivity.
  split; [split; [exact H1 | split; [exact H2 | split; [exact H3 | exact H4]]] |].
  exact (corrupt_queue_drops_events a w (Text "<<<<<<< HEAD") e eventOne [] H1 H2 H3 H4).
Defined.

(** X10.  A queue whose file is missing or has zero bytes is empty, and
    the first successful [Append] creates the file with exactly the
    appended events. *)
Theorem absent_queue_is_empty (q : Events.Queue) (w : World) (x : Event) (xs : list Event) :
  Host.faulty OpRead (Events.path q) w = false ->
  contentAt (Events.path q) w = None \/
  contentAt (Events.path q) w = Some (Text EmptyString) ->
  Events.Load q w = (Ok [], w) /\
  forall w', Events.Append q (x :: xs) w = (None, w') ->
    contentAt (Events.path q) w' = Some (Json (DocEvents (x :: xs))) /\
    Events.Load q w' = (Ok (x :: xs), w').
Proof.
  intros Hf Hc.
  assert (HL : Events.Load q w = (Ok [], w)).
  { rewrite Load_content by exact Hf. destruct Hc as [-> | ->]; reflexivity. }
  split; [exact HL |]. intros w' HA.
  pose proof (Append_spec q [] (x :: xs) w w' HL HA) as HL'. simpl in HL'.
  split; [| exact HL'].
  unfold Events.Append, bind in HA. rewrite <- Load_readLocked, HL in HA.
  cbv beta iota in HA. simpl app in HA.
  destruct (writeLocked_cases q (x :: xs) w) as [(e & w1 & E) | E];
    rewrite E in HA; [discriminate |].
  injection HA as <-. apply contentAt_replaced.
Qed.

Lemma absent_queue_is_empty_witness :
  let w' := snd (Events.Append eventQueue [eventOne; eventTwo] rebootPendingWorld) in
  (Host.faulty OpRead (Events.path eventQueue) rebootPendingWorld = false /\
   contentAt (Events.path eventQueue) rebootPendingWorld = None /\
   Events.Append eventQueue [eventOne; eventTwo] rebootPendingWorld = (None, w')) /\
  Events.Load eventQueue rebootPendingWorld = (Ok [], rebootPendingWorld) /\
  contentAt (Events.path eventQueue) w' = Some (Json (DocEvents [eventOne; eventTwo])) /\
  Events.Load eventQueue w' = (Ok [eventOne; eventTwo], w').
Proof.
  intros w'.
  assert (H1 : Host.faulty OpRead (Events.path eventQueue) rebootPendingWorld = false)
    by (vm_compute; reflexivity).
  assert (H2 : contentAt (Events.path eventQueue) rebootPendingWorld = None)
    by (vm_compute; reflexivity).
  assert (H3 : Events.Append eventQueue [eventOne; eventTwo] rebootPendingWorld = (None, w'))
    by (apply (pair_eta1 (Events.Append eventQueue [eventOne; eventTwo] rebootPendingWorld)
                 None); vm_compute; reflexivity).
  split; [split; [exact H1 | split; [exact H2 | exact H3]] |].
  destruct (absent_queue_is_empty eventQueue rebootPendingWorld eventOne [eventTwo]
              H1 (or_introl H2)) as [HL HA].
  split; [exact HL |]. exact (HA w' H3).
Defined.

(** X11.  [Replace] and [Append] change the queue file all at once or
    not at all: when they fail, the content of the queue file is what it
    was; when [Replace] succeeds, the file holds the given events and
    [Load] returns them, whatever the file held before -- a file that did
    not decode included. *)
Theorem queue_write_all_or_nothing (q : Events.Queue) (evs : list Event) (w : World) :
  (forall e w', Events.Replace q evs w = (Some e, w') ->
     contentAt (Events.path q) w' = contentAt (Events.path q) w) /\
  (forall e w', Events.Append q evs w = (Some e, w') ->
     contentAt (Events.path q) w' = contentAt (Events.path q) w) /\
  (forall w', Events.Replace q evs w = (None, w') ->
     contentAt (Events.path q) w' = Some (Json (DocEvents evs)) /\
     (Host.faulty OpRead (Events.path q) w = false ->
      Events.Load q w' = (Ok evs, w'))).
Proof.
  assert (Hfail : forall l e w', Events.writeLocked q l w = (Some e, w') ->
            contentAt (Events.path q) w' = contentAt (Events.path q) w).
  { intros l e w' H. rewrite writeLocked_writeThenRename in H.
    destruct (writeThenRename_cases (Events.path q) (Json (DocEvents l))
                (fun err => ErrWrap "write temp events: " err EmptyString)
                (fun err => ErrWrap "rename events: " err EmptyString) w)
      as [(e1 & w1 & E & Hs) | E]; rewrite E in H; [| discriminate].
    injection H as _ <-. exact (sameButTmp_contentAt _ _ _ Hs). }
  split; [exact (Hfail evs) |]. split.
  - intros e w' H. unfold Events.Append in H. destruct evs as [|x xs]; [discriminate |].
    unfold bind, ret in H.
    pose proof (readLocked_world q w) as Hw.
    destruct (Events.readLocked q w) as [[pre|e0] w0]; simpl in Hw; subst w0.
    + exact (Hfail _ _ _ H).
    + injection H as _ <-. reflexivity.
  - intros w' H. unfold Events.Replace in H.
    destruct (writeLocked_cases q evs w) as [(e & w1 & E) | E]; rewrite E in H;
      [discriminate |].
    injection H as <-. split; [apply contentAt_replaced |].
    intros Hf. exact (Load_replaced q evs w Hf).
Qed.

(** The end of the queue test: replacing the content by no events leaves
    an empty queue. *)
Lemma queue_write_all_or_nothing_witness :
  let w' := snd (Events.Replace eventQueue [] queuedWorld) in
  (Events.Replace eventQueue [] queuedWorld = (None, w') /\
   Host.faulty OpRead (Events.path eventQueue) queuedWorld = false) /\
  contentAt (Events.path eventQueue) w' = Some (Json (DocEvents [])) /\
  Events.Load eventQueue w' = (Ok [], w').
Proof.
  intros w'.
  assert (H1 : Events.Replace eventQueue [] queuedWorld = (None, w'))
    by (apply (pair_eta1 (Events.Replace eventQueue [] queuedWorld) None);
        vm_compute; reflexivity).
  assert (H2 : Host.faulty OpRead (Events.path eventQueue) queuedWorld = false)
    by (vm_compute; reflexivity).
  split; [split; [exact H1 | exact H2] |].
  destruct (proj2 (proj2 (queue_write_all_or_nothing eventQueue [] queuedWorld)) w' H1)
    as [Hc HL].
  split; [exact Hc | exact (HL H2)].
Defined.

(** ** The policy tick *)

Lemma CachedPolicy_world (m : Policy.Manager) (w : World) :
  snd (Policy.CachedPolicy m w) = w.
Proof.
  unfold Policy.CachedPolicy, Host.ReadFile, bind, ret.
  destruct (Host.faulty _ _ _); [reflexivity |].
  destruct (w_files w !! Policy.cache m) as [[s|[]]|]; reflexivity.
Qed.

(** The version the tick presents to the backend is computed without
    changing the host. *)
Lemma presented_version_world (a : Agent.Agent) (w : World) :
  snd ((if isEmpty (Policy.LastVersion (Agent.policyManager a))
        then
          let* cached := Policy.CachedPolicy (Agent.policyManager a) in
          match cached with
          | Ok cached => ret (env_Version cached)
          | Fail _ => ret (Policy.LastVersion (Agent.policyManager a))
          end
        else ret (Policy.LastVersion (Agent.policyManager a))) w) = w.
Proof.
  destruct (isEmpty _); [| reflexivity].
  unfold bind, ret. pose proof (CachedPolicy_world (Agent.policyManager a) w) as H.
  destruct (Policy.CachedPolicy (Agent.policyManager a) w) as [[c|e] w0];
    simpl in H; subst w0; reflexivity.
Qed.

(** X12.  When the pull fails, the tick applies and persists nothing:
    the agent and the host are as they were.  The tick reports success
    exactly when the error is, or wraps, [ErrNotModified]; any other
    error is returned as it is. *)
Theorem pull_failure_changes_nothing (a : Agent.Agent) (w : World) (err : error) :
  (forall token version, Agent.PullPolicy (Agent.client a) token version = Fail err) ->
  Agent.pullAndApplyPolicy a w
  = (if GoErrors.IsNotModified err then None else Some err, a, w).
Proof.
  intros Hpull. unfold Agent.pullAndApplyPolicy, bind.
  match goal with
  | |- context [let '(x, y) := ?c w in _] =>
      assert (Hv : snd (c w) = w) by apply presented_version_world;
      destruct (c w) as [version w0]
  end.
  simpl in Hv. subst w0. rewrite Hpull.
  destruct (GoErrors.IsNotModified err); reflexivity.
Qed.

Lemma pull_failure_changes_nothing_witness :
  (forall token version,
     Agent.PullPolicy (Agent.client (agentAnswered (Fail notModified))) token version
     = Fail notModified) /\
  GoErrors.IsNotModified notModified = true /\
  forall w, Agent.pullAndApplyPolicy (agentAnswered (Fail notModified)) w
            = (None, agentAnswered (Fail notModified), w).
Proof.
  split; [reflexivity |]. split; [reflexivity |]. intros w.
  exact (pull_failure_changes_nothing (agentAnswered (Fail notModified)) w notModified
           (fun _ _ => eq_refl)).
Defined.

(** X13.  An envelope that the configured verifier rejects changes
    nothing: the tick fails with the verification error, and the policy
    cache, the event queue, the credentials file and every other part of
    the host are as they were; the agent keeps its credentials -- a token
    carried by the rejected envelope is not adopted -- and its last applied
    version. *)
Theorem rejected_envelope_changes_nothing
    (a : Agent.Agent) (w : World) (v : Policy.Verifier)
    (envelope : PolicyEnvelope) (e : error) :
  (forall token version, Agent.PullPolicy (Agent.client a) token version = Ok envelope) ->
  Policy.verifier (Agent.policyManager a) = Some v ->
  Policy.Verify v envelope = Some e ->
  exists a',
    Agent.pullAndApplyPolicy a w
    = (Some (ErrWrap "verify policy: " e EmptyString), a', w) /\
    Agent.credentials a' = Agent.credentials a /\
    Agent.policyManager a' = Agent.policyManager a.
Proof.
  intros Hpull Hv He. unfold Agent.pullAndApplyPolicy, bind.
  match goal with
  | |- context [let '(x, y) := ?c w in _] =>
      assert (Hw : snd (c w) = w) by apply presented_version_world;
      destruct (c w) as [version w0]
  end.
  simpl in Hw. subst w0. rewrite Hpull.
  unfold Policy.Apply. rewrite Hv, He. unfold ret. cbn [Agent.appendEvents]. unfold ret.
  eexists. split; [reflexivity |]. split; reflexivity.
Qed.

Lemma rejected_envelope_changes_nothing_witness :
  let a := agentAnswered (Ok unsignedEnvelope) in
  let e := ErrMsg "policy signature missing" in
  ((forall token version,
      Agent.PullPolicy (Agent.client a) token version = Ok unsignedEnvelope) /\
   Policy.verifier (Agent.policyManager a) = Some lenientVerifier /\
   Policy.Verify lenientVerifier unsignedEnvelope = Some e) /\
  forall w, exists a',
    Agent.pullAndApplyPolicy a w
    = (Some (ErrWrap "verify policy: " e EmptyString), a', w) /\
    Agent.credentials a' = Agent.credentials a /\
    Agent.policyManager a' = Agent.policyManager a.
Proof.
  intros a e.
  assert (H1 : forall token version,
             Agent.PullPolicy (Agent.client a) token version = Ok unsignedEnvelope)
    by reflexivity.
  assert (H2 : Policy.verifier (Agent.policyManager a) = Some lenientVerifier)
    by reflexivity.
  assert (H3 : Policy.Verify lenientVerifier unsignedEnvelope = Some e) by reflexivity.
  split; [split; [exact H1 | split; [exact H2 | exact H3]] |].
  intros w.
  exact (rejected_envelope_changes_nothing a w lenientVerifier unsignedEnvelope e H1 H2 H3).
Defined.

(** ** What the writers touch *)

Lemma touchesOnly_refl (ps : list string) (w : World) : touchesOnly ps w w.
Proof. split; reflexivity. Qed.

Lemma touchesOnly_trans (ps : list string) (w1 w2 w3 : World) :
  touchesOnly ps w1 w2 -> touchesOnly ps w2 w3 -> touchesOnly ps w1 w3.
Proof.
  intros [Hf1 Hc1] [Hf2 Hc2]. split; [congruence |].
  intros p Hp. rewrite Hc2, Hc1 by exact Hp. reflexivity.
Qed.

Lemma touchesOnly_weaken (ps qs : list string) (w w' : World) :
  (forall p, p ∈ ps -> p ∈ qs) -> touchesOnly ps w w' -> touchesOnly qs w w'.
Proof. intros Hsub [Hf Hc]. split; [exact Hf |]. intros p Hp. apply Hc. auto. Qed.

Lemma touchesOnly_faulty (ps : list string) (w w' : World) (op : FsOp) (p : string) :
  touchesOnly ps w w' -> Host.faulty op p w' = Host.faulty op p w.
Proof. intros [Hf _]. unfold Host.faulty. rewrite Hf. reflexivity. Qed.

Lemma touchesOnly_set_ticks (ps : list string) (n : nat) (w : World) :
  touchesOnly ps w (set_ticks n w).
Proof. split; reflexivity. Qed.

Lemma touchesOnly_set_trace (ps : list string) (t : list Effect) (w : World) :
  touchesOnly ps w (set_trace t w).
Proof. split; reflexivity. Qed.

Lemma touchesOnly_replaced (path : string) (data : FileData) (w : World) :
  touchesOnly [path; path +:+ ".tmp"] w (replaced path data w).
Proof.
  split; [reflexivity |]. intros p Hp. unfold contentAt, replaced. simpl.
  assert (p <> path) by (intros ->; apply Hp; constructor).
  assert (p <> path +:+ ".tmp") by (intros ->; apply Hp; repeat constructor).
  rewrite lookup_insert_ne, lookup_delete_ne, lookup_insert_ne by congruence.
  reflexivity.
Qed.

Lemma sameButTmp_touchesOnly (path : string) (w w1 : World) :
  sameButTmp path w w1 -> touchesOnly [path; path +:+ ".tmp"] w w1.
Proof.
  intros (files & -> & H). split; [reflexivity |]. intros p Hp. unfold contentAt. simpl.
  apply H. intros ->. apply Hp. repeat constructor.
Qed.

Lemma writeThenRename_touches (path : string) (data : FileData)
      (onWrite onRename : error -> error) (w : World) :
  touchesOnly [path; path +:+ ".tmp"] w
              (snd (writeThenRename path data onWrite onRename w)).
Proof.
  destruct (writeThenRename_cases path data onWrite onRename w)
    as [(e & w1 & -> & Hs) | ->]; simpl.
  - apply sameButTmp_touchesOnly, Hs.
  - apply touchesOnly_replaced.
Qed.

Lemma Append_touches (q : Events.Queue) (xs : list Event) (w : World) :
  touchesOnly [Events.path q; Events.path q +:+ ".tmp"] w (snd (Events.Append q xs w)).
Proof.
  unfold Events.Append. destruct xs as [|x xs]; [apply touchesOnly_refl |].
  unfold bind, ret. pose proof (readLocked_world q w) as Hw.
  destruct (Events.readLocked q w) as [[pre|e] w0]; simpl in Hw; subst w0.
  - rewrite writeLocked_writeThenRename. apply writeThenRename_touches.
  - apply touchesOnly_refl.
Qed.

Lemma appendEvents_touches (a : Agent.Agent) (xs : list Event) (w : World) :
  touchesOnly [Events.path (Agent.eventQueue a); Events.path (Agent.eventQueue a) +:+ ".tmp"]
              w (snd (Agent.appendEvents a xs w)).
Proof.
  unfold Agent.appendEvents. destruct xs as [|x xs]; [apply touchesOnly_refl |].
  unfold bind, ret.
  pose proof (Append_touches (Agent.eventQueue a) (x :: xs) w) as H.
  destruct (Events.Append (Agent.eventQueue a) (x :: xs) w) as [r w1]. exact H.
Qed.

Lemma WriteSecretFile_touches (p : string) (d : FileData) (w : World) :
  touchesOnly [p; p +:+ ".tmp"] w (snd (Util.WriteSecretFile p d w)).
Proof.
  unfold Util.WriteSecretFile.
  destruct (isEmpty p); [apply touchesOnly_refl |].
  unfold bind, ret.
  pose proof (EnsureParentDir_world p w) as He.
  destruct (Util.EnsureParentDir p w) as [[e|] w0]; simpl in He; subst w0.
  { apply touchesOnly_refl. }
  destruct (WriteFile_cases (p +:+ ".tmp") d w) as [[e ->] | ->].
  { apply touchesOnly_refl. }
  set (w1 := set_files (<[p +:+ ".tmp" := d]> (w_files w)) w).
  assert (H1 : touchesOnly [p; p +:+ ".tmp"] w w1).
  { split; [reflexivity |]. intros p' Hp. unfold contentAt, w1. simpl.
    apply lookup_insert_ne. intros <-. apply Hp. repeat constructor. }
  destruct (Chmod_cases (p +:+ ".tmp") w1) as [[e ->] | ->].
  { exact H1. }
  destruct (Rename_cases (p +:+ ".tmp") p w1) as [[e ->] | [d' [Hd ->]]].
  { exact H1. }
  unfold w1 in Hd. simpl in Hd. rewrite lookup_insert_eq in Hd. injection Hd as <-.
  apply (touchesOnly_replaced p d w).
Qed.

Lemma Persist_touches (m : Enroll.Manager) (cred : Credentials) (env : PolicyEnvelope)
      (w : World) :
  touchesOnly [Enroll.credentialsPath m; Enroll.credentialsPath m +:+ ".tmp"]
              w (snd (Enroll.Persist m cred env w)).
Proof.
  unfold Enroll.Persist, Enroll.saveCredentials, bind, ret.
  pose proof (WriteSecretFile_touches (Enroll.credentialsPath m)
                (Json (DocStored cred env)) w) as H.
  destruct (Util.WriteSecretFile _ _ w) as [[e|] w1]; exact H.
Qed.

(** The pipeline among collaborators writes the cache and nothing else;
    when it succeeds the cache holds the envelope. *)
Lemma pipeline_Apply_files (v : option Policy.Verifier) (cache : string) (o : Outcomes)
      (last : string) (envelope : PolicyEnvelope) (w : World) :
  let '(events, err, m', w') := Policy.Apply (pipelineOf v cache o last) envelope w in
  touchesOnly [cache; cache +:+ ".tmp"] w w' /\
  (err = None ->
     contentAt cache w' = Some (Json (DocEnvelope envelope)) /\
     m' = pipelineOf v cache o (env_Version envelope)).
Proof.
  set (m := pipelineOf v cache o last).
  unfold Policy.Apply. fold (verdict (Policy.verifier m) envelope).
  change (Policy.verifier m) with v.
  destruct (verdict v envelope) as [e|].
  { simpl. split; [apply touchesOnly_refl | discriminate]. }
  unfold bind at 1.
  destruct (persist_cases m envelope w) as [(e & w1 & E & _ & _) | ->].
  { pose proof (writeThenRename_touches cache (Json (DocEnvelope envelope))
                  (fun err => ErrWrap "write policy cache: " err EmptyString)
                  (fun err => ErrWrap "rename policy cache: " err EmptyString) w) as Ht.
    change (writeThenRename cache (Json (DocEnvelope envelope)) _ _ w)
      with (Policy.persist m envelope w) in Ht.
    rewrite E in *. simpl in *. split; [exact Ht | discriminate]. }
  pose proof (touchesOnly_replaced cache (Json (DocEnvelope envelope)) w) as Ht.
  pose proof (contentAt_replaced cache (Json (DocEnvelope envelope)) w) as Hc.
  change (Policy.cache m) with cache. subst m.
  destruct o as [[e1 [x1|]] [e2 [x2|]] [[s3 b3 e3] [x3|]] [e4 [x4|]] [e5 [x5|]]];
    cbn -[replaced touchesOnly contentAt];
    (split; [exact Ht | first [discriminate | intros _; split; [exact Hc | reflexivity]]]).
Qed.

Lemma pullAndApplyPolicy_presents (a : Agent.Agent) :
  Agent.pullAndApplyPolicy a
  = (let* version := presentedVersion a in
     match Agent.PullPolicy (Agent.client a) (cred_DeviceToken (Agent.credentials a))
                            version with
     | Fail err =>
         if GoErrors.IsNotModified err then ret (None, a) else ret (Some err, a)
     | Ok envelope =>
         let* '(events, err, pm) := Policy.Apply (Agent.policyManager a) envelope in
         let a := Agent.set_policyManager pm a in
         let* _ := Agent.appendEvents a events in
         match err with
         | Some err => ret (Some err, a)
         | None =>
             let a :=
               if (negb (isEmpty (env_DeviceToken envelope))
                   && negb (String.eqb (env_DeviceToken envelope)
                                       (cred_DeviceToken (Agent.credentials a))))%bool
               then Agent.set_credentials
                      (mkCredentials (cred_DeviceID (Agent.credentials a))
                                     (env_DeviceToken envelope)
                                     (cred_Version (Agent.credentials a))) a
               else a in
             let a := Agent.set_credentials
                        (mkCredentials (cred_DeviceID (Agent.credentials a))
                                       (cred_DeviceToken (Agent.credentials a))
                                       (env_Version envelope)) a in
             let* r := Enroll.Persist (Agent.enrollManager a) (Agent.credentials a)
                                      envelope in
             match r with
             | Some err => ret (Some (ErrWrap "persist credentials: " err EmptyString), a)
             | None => ret (None, a)
             end
         end
     end).
Proof. reflexivity. Qed.

Lemma enrollManager_if (b : bool) (c : Credentials) (a : Agent.Agent) :
  Agent.enrollManager (if b then Agent.set_credentials c a else a) = Agent.enrollManager a.
Proof. destruct b; reflexivity. Qed.

(** X14.  After a tick that succeeded among collaborators that leave the
    agent's files alone, with the policy cache kept apart from the event
    queue and the credentials file, the cache holds the applied envelope
    and the policy manager remembers its version; the next tick presents
    that version to the backend, and so does the tick of an agent whose
    policy manager has forgotten it and falls back to the cache. *)
Theorem applied_version_is_presented_next
    (a a' : Agent.Agent) (w w' : World)
    (v : option Policy.Verifier) (cache : string) (o : Outcomes) (last : string)
    (envelope : PolicyEnvelope) :
  Agent.policyManager a = pipelineOf v cache o last ->
  (forall token version, Agent.PullPolicy (Agent.client a) token version = Ok envelope) ->
  cache ∉ [Events.path (Agent.eventQueue a);
           Events.path (Agent.eventQueue a) +:+ ".tmp";
           Enroll.credentialsPath (Agent.enrollManager a);
           Enroll.credentialsPath (Agent.enrollManager a) +:+ ".tmp"] ->
  Host.faulty OpRead cache w = false ->
  Agent.pullAndApplyPolicy a w = (None, a', w') ->
  Policy.LastVersion (Agent.policyManager a') = env_Version envelope /\
  Policy.CachedPolicy (Agent.policyManager a') w' = (Ok envelope, w') /\
  presentedVersion a' w' = (env_Version envelope, w') /\
  presentedVersion (forgetful a') w' = (env_Version envelope, w').
Proof.
  intros Hpm Hpull Hapart Hread Htick.
  unfold Agent.pullAndApplyPolicy, bind in Htick.
  match type of Htick with
  | context [let '(x, y) := ?c w in _] =>
      assert (Hw : snd (c w) = w) by apply presented_version_world;
      destruct (c w) as [version w0]
  end.
  simpl in Hw. subst w0. rewrite Hpull, Hpm in Htick.
  pose proof (pipeline_Apply_files v cache o last envelope w) as HA.
  destruct (Policy.Apply (pipelineOf v cache o last) envelope w)
    as [[[events err] pm] w1].
  destruct HA as [Ht1 Hok].
  match type of Htick with
  | context [Agent.appendEvents ?b events w1] =>
      pose proof (appendEvents_touches b events w1) as Ht2;
      destruct (Agent.appendEvents b events w1) as [[] w2]
  end.
  cbn [Agent.eventQueue Agent.set_policyManager] in Ht2. simpl snd in Ht2.
  destruct err as [e|]; [unfold ret in Htick; discriminate |].
  destruct (Hok eq_refl) as [Hc1 ->]. clear Hok.
  match type of Htick with
  | context [Enroll.Persist ?m ?c ?e w2] =>
      pose proof (Persist_touches m c e w2) as Ht3;
      destruct (Enroll.Persist m c e w2) as [[e0|] w3]
  end; unfold ret in Htick; [discriminate |].
  simpl snd in Ht3.
  cbn [Agent.enrollManager Agent.set_credentials] in Ht3.
  rewrite enrollManager_if in Ht3. cbn [Agent.enrollManager Agent.set_policyManager] in Ht3.
  injection Htick as <- <-.
  match goal with
  | |- context [if ?b then _ else _] => destruct b
  end; cbn [Agent.policyManager Agent.set_credentials Agent.set_policyManager
            Agent.enrollManager Agent.credentials] in *.
  all: assert (Hcache : contentAt cache w3 = Some (Json (DocEnvelope envelope)));
    [ destruct Ht2 as [_ Hc2]; destruct Ht3 as [_ Hc3];
      rewrite Hc3, Hc2;
        [ exact Hc1
        | intros Hin; apply Hapart; apply list_elem_of_In in Hin; apply list_elem_of_In;
          simpl in *; tauto
        | intros Hin; apply Hapart; apply list_elem_of_In in Hin; apply list_elem_of_In;
          simpl in *; tauto ] |].
  all: assert (Hfaulty : Host.faulty OpRead cache w3 = false);
    [ rewrite (touchesOnly_faulty _ _ _ OpRead cache Ht3),
              (touchesOnly_faulty _ _ _ OpRead cache Ht2),
              (touchesOnly_faulty _ _ _ OpRead cache Ht1); exact Hread |].
  all: assert (HCP : forall m, Policy.cache m = cache ->
                       Policy.CachedPolicy m w3 = (Ok envelope, w3));
    [ intros m Hm; unfold Policy.CachedPolicy, Host.ReadFile, bind, ret;
      rewrite Hm, Hfaulty; unfold contentAt in Hcache; rewrite Hcache; reflexivity |].
  all: split; [reflexivity |]; split; [apply HCP; reflexivity |].
  all: unfold presentedVersion, bind, ret; cbv zeta.
  all: split;
    [ match goal with
      | |- context [isEmpty ?t] => destruct (isEmpty t) eqn:Ev
      end; cbv beta iota; [rewrite HCP by reflexivity |]; reflexivity
    | match goal with
      | |- context [isEmpty ?t] => change (isEmpty t) with true
      end; cbv beta iota; rewrite HCP by reflexivity; reflexivity ].
Qed.

Lemma applied_version_is_presented_next_witness :
  let a := collaboratingAgent in
  let w := rebootPendingWorld in
  let a' := snd (fst (Agent.pullAndApplyPolicy a w)) in
  let w' := snd (Agent.pullAndApplyPolicy a w) in
  let cache := "/var/lib/evergreen/policy.json" in
  ((Agent.policyManager a
    = pipelineOf None cache
        (mkOutcomes ([], None) ([], None) (Updates.mkResult "idle" false [], None)
                    ([], None) ([], None)) EmptyString) /\
   (forall token version, Agent.PullPolicy (Agent.client a) token version = Ok envelopeV2) /\
   (cache ∉ [Events.path (Agent.eventQueue a);
             Events.path (Agent.eventQueue a) +:+ ".tmp";
             Enroll.credentialsPath (Agent.enrollManager a);
             Enroll.credentialsPath (Agent.enrollManager a) +:+ ".tmp"]) /\
   Host.faulty OpRead cache w = false /\
   Agent.pullAndApplyPolicy a w = (None, a', w')) /\
  Policy.LastVersion (Agent.policyManager a') = "v2" /\
  Policy.CachedPolicy (Agent.policyManager a') w' = (Ok envelopeV2, w') /\
  presentedVersion a' w' = ("v2", w') /\
  presentedVersion (forgetful a') w' = ("v2", w').
Proof.
  intros a w a' w' cache.
  assert (H1 : Agent.policyManager a
               = pipelineOf None cache
                   (mkOutcomes ([], None) ([], None)
                               (Updates.mkResult "idle" false [], None)
                               ([], None) ([], None)) EmptyString) by reflexivity.
  assert (H2 : forall token version,
             Agent.PullPolicy (Agent.client a) token version = Ok envelopeV2)
    by (intros; reflexivity).
  assert (H3 : cache ∉ [Events.path (Agent.eventQueue a);
                        Events.path (Agent.eventQueue a) +:+ ".tmp";
                        Enroll.credentialsPath (Agent.enrollManager a);
                        Enroll.credentialsPath (Agent.enrollManager a) +:+ ".tmp"]).
  { intros H. apply list_elem_of_In in H. simpl in H.
    destruct H as [H | [H | [H | [H | []]]]]; discriminate H. }
  assert (H4 : Host.faulty OpRead cache w = false) by (vm_compute; reflexivity).
  assert (H5 : Agent.pullAndApplyPolicy a w = (None, a', w'))
    by (apply (pair_eta_l (Agent.pullAndApplyPolicy a w) None); vm_compute; reflexivity).
  split; [split; [exact H1 | split; [exact H2 | split; [exact H3 | split;
           [exact H4 | exact H5]]]] |].
  exact (applied_version_is_presented_next a a' w w' None cache _ EmptyString envelopeV2
           H1 H2 H3 H4 H5).
Defined.

(** ** Footprints *)

Lemma confinedTo_refl (ps names : list string) (w : World) : confinedTo ps names w w.
Proof.
  split; [apply touchesOnly_refl |]. exists []. split; [now rewrite app_nil_r | constructor].
Qed.

Lemma confinedTo_trans (ps names : list string) (w1 w2 w3 : World) :
  confinedTo ps names w1 w2 -> confinedTo ps names w2 w3 -> confinedTo ps names w1 w3.
Proof.
  intros [Ht1 (a1 & E1 & F1)] [Ht2 (a2 & E2 & F2)].
  split; [exact (touchesOnly_trans _ _ _ _ Ht1 Ht2) |].
  exists (a1 ++ a2). split; [rewrite E2, E1, app_assoc; reflexivity |].
  apply Forall_app. split; assumption.
Qed.

Lemma confined_ret (ps names : list string) {A} (a : A) : confined ps names (ret a).
Proof. intros w. apply confinedTo_refl. Qed.

Lemma confined_bind (ps names : list string) {A B} (c : M A) (k : A -> M B) :
  confined ps names c -> (forall a, confined ps names (k a)) ->
  confined ps names (bind c k).
Proof.
  intros Hc Hk w. unfold bind. specialize (Hc w).
  destruct (c w) as [a w1]. simpl in Hc.
  exact (confinedTo_trans _ _ _ _ _ Hc (Hk a w1)).
Qed.

Lemma confined_ReadFile (ps names : list string) (p : string) :
  confined ps names (Host.ReadFile p).
Proof.
  intros w. unfold Host.ReadFile. destruct (Host.faulty _ _ _); [apply confinedTo_refl |].
  destruct (w_files w !! p); apply confinedTo_refl.
Qed.

Lemma confined_LookPath (ps names : list string) (name : string) :
  confined ps names (Host.LookPath name).
Proof. intros w. unfold Host.LookPath. destruct (bool_decide _); apply confinedTo_refl. Qed.

Lemma confined_MkdirAll (ps names : list string) (dir : string) :
  confined ps names (Host.MkdirAll dir).
Proof. intros w. unfold Host.MkdirAll. destruct (Host.faulty _ _ _); apply confinedTo_refl. Qed.

Lemma confined_Now (ps names : list string) : confined ps names Host.Now.
Proof.
  intros w. split; [apply touchesOnly_set_ticks |].
  exists []. split; [simpl; now rewrite app_nil_r | constructor].
Qed.

Lemma confined_Run (ps names : list string) (argv : list string) :
  hd EmptyString argv ∈ names -> confined ps names (Host.Run argv).
Proof.
  intros Hin w. split; [apply touchesOnly_set_trace |].
  exists [EffExec argv]. split; [reflexivity |]. constructor; [eauto | constructor].
Qed.

Lemma confined_files (ps names : list string) (files : gmap string FileData) (w : World) :
  (forall p, p ∉ ps -> files !! p = w_files w !! p) ->
  confinedTo ps names w (set_files files w).
Proof.
  intros H. split; [split; [reflexivity | exact H] |].
  exists []. split; [simpl; now rewrite app_nil_r | constructor].
Qed.

Lemma confined_WriteFile (ps names : list string) (p : string) (d : FileData) :
  p ∈ ps -> confined ps names (Host.WriteFile p d).
Proof.
  intros Hin w. unfold Host.WriteFile. destruct (Host.faulty _ _ _); [apply confinedTo_refl |].
  apply confined_files. intros p' Hp. apply lookup_insert_ne. congruence.
Qed.

Lemma confined_Rename (ps names : list string) (old new : string) :
  old ∈ ps -> new ∈ ps -> confined ps names (Host.Rename old new).
Proof.
  intros Ho Hn w. unfold Host.Rename. destruct (Host.faulty _ _ _); [apply confinedTo_refl |].
  destruct (w_files w !! old) as [d|] eqn:E; [| apply confinedTo_refl].
  apply confined_files. intros p' Hp.
  rewrite lookup_insert_ne, lookup_delete_ne by congruence. reflexivity.
Qed.

Lemma confined_Remove (ps names : list string) (p : string) :
  p ∈ ps -> confined ps names (Host.Remove p).
Proof.
  intros Hin w. unfold Host.Remove. destruct (Host.faulty _ _ _); [apply confinedTo_refl |].
  destruct (w_files w !! p) as [d|] eqn:E; [| apply confinedTo_refl].
  apply confined_files. intros p' Hp. apply lookup_delete_ne. congruence.
Qed.

Lemma confined_NewEvent (ps names : list string) (ty : string)
      (pl : list (string * string)) :
  confined ps names (Events.NewEvent ty pl).
Proof.
  intros w. rewrite NewEvent_spec. split; [apply touchesOnly_set_ticks |].
  exists []. split; [simpl; now rewrite app_nil_r | constructor].
Qed.

Lemma confined_EnsureParentDir (ps names : list string) (p : string) :
  confined ps names (Util.EnsureParentDir p).
Proof.
  intros w. pose proof (EnsureParentDir_world p w) as H.
  destruct (Util.EnsureParentDir p w) as [r w0]. simpl in *. subst w0.
  apply confinedTo_refl.
Qed.

(** Walks through a computation built from the primitives above; [known]
    closes the calls that have a footprint lemma of their own. *)
Ltac confine_with known :=
  repeat first
    [ known
    | apply confined_ret
    | apply confined_ReadFile
    | apply confined_LookPath
    | apply confined_MkdirAll
    | apply confined_Now
    | apply confined_NewEvent
    | apply confined_EnsureParentDir
    | apply confined_Run; [apply list_elem_of_In; simpl; tauto]
    | apply confined_WriteFile; [apply list_elem_of_In; simpl; tauto]
    | apply confined_Rename; [apply list_elem_of_In; simpl; tauto
                             | apply list_elem_of_In; simpl; tauto]
    | apply confined_Remove; [apply list_elem_of_In; simpl; tauto]
    | apply confined_bind; [| intros ?]
    | progress cbv zeta
    | match goal with
      | |- confined _ _ (match ?x with _ => _ end) => destruct x
      end ].

Ltac confine := confine_with fail.

Lemma confined_ensureSELinux (ps names : list string) (enforce : bool) :
  "setenforce" ∈ names -> confined ps names (Security.ensureSELinux enforce).
Proof.
  intros Hn. unfold Security.ensureSELinux. cbv zeta. confine.
  all: apply confined_Run; destruct enforce; exact Hn.
Qed.

Lemma confined_toggleService (ps names : list string) (service : string) (enable : bool) :
  "systemctl" ∈ names -> confined ps names (Security.toggleService service enable).
Proof.
  intros Hn. unfold Security.toggleService. cbv zeta. confine.
  all: apply confined_Run; exact Hn.
Qed.

(** X15.  Whatever the policy and the host, [Security.Apply] changes no
    file other than the SSH drop-in, the USBGuard rules file and their
    temporary files, and runs no command other than [setenforce] and
    [systemctl]. *)
Theorem Security_Apply_footprint (m : Security.Manager) (p : SecurityPolicy) (w : World) :
  confinedTo
    [sshDropIn; sshDropIn +:+ ".tmp";
     Security.usbGuardRulesPath m; Security.usbGuardRulesPath m +:+ ".tmp"]
    ["setenforce"; "systemctl"]
    w (snd (Security.Apply m p w)).
Proof.
  revert w. change (confined
    [sshDropIn; sshDropIn +:+ ".tmp";
     Security.usbGuardRulesPath m; Security.usbGuardRulesPath m +:+ ".tmp"]
    ["setenforce"; "systemctl"] (Security.Apply m p)).
  assert (Hse : "setenforce" ∈ ["setenforce"; "systemctl"])
    by (apply list_elem_of_In; simpl; tauto).
  assert (Hsc : "systemctl" ∈ ["setenforce"; "systemctl"])
    by (apply list_elem_of_In; simpl; tauto).
  unfold Security.Apply, Security.configureSSH, Security.writeUSBGuardRules,
    Security.removeUSBGuardRules.
  cbv zeta.
  confine_with ltac:(first [ apply confined_ensureSELinux; exact Hse
                           | apply confined_toggleService; exact Hsc ]).
Qed.

Lemma confined_fetchStatus (ps names : list string) :
  "rpm-ostree" ∈ names -> confined ps names Updates.fetchStatus.
Proof.
  intros Hn. unfold Updates.fetchStatus. confine.
  all: apply confined_Run; exact Hn.
Qed.

Lemma confined_triggerReboot (ps names : list string) (m : Updates.Manager) :
  hd EmptyString (Updates.rebootCommand m) ∈ names ->
  confined ps names (Updates.triggerReboot m).
Proof.
  intros Hn. unfold Updates.triggerReboot.
  destruct (Updates.rebootCommand m) as [|cmd0 args]; confine.
  all: apply confined_Run; exact Hn.
Qed.

(** X16.  The update reconciler changes no file.  [Apply] runs no
    command other than [rpm-ostree] and the configured reboot command,
    provided the manager's time source keeps to that too;
    [EnsureRollback] runs no command other than [rpm-ostree] and
    [systemctl]. *)
Theorem Updates_footprint (m : Updates.Manager) (p : UpdatePolicy) (w : World) :
  confined [] ["rpm-ostree"; hd EmptyString (Updates.rebootCommand m)] (Updates.now m) ->
  confinedTo [] ["rpm-ostree"; hd EmptyString (Updates.rebootCommand m)]
             w (snd (Updates.Apply m p w)) /\
  confinedTo [] ["rpm-ostree"; "systemctl"] w (snd (Updates.EnsureRollback m w)).
Proof.
  intros Hnow. split; revert w.
  - change (confined [] ["rpm-ostree"; hd EmptyString (Updates.rebootCommand m)]
                     (Updates.Apply m p)).
    assert (Hr : "rpm-ostree" ∈ ["rpm-ostree"; hd EmptyString (Updates.rebootCommand m)])
      by (apply list_elem_of_In; simpl; tauto).
    assert (Hb : hd EmptyString (Updates.rebootCommand m)
                 ∈ ["rpm-ostree"; hd EmptyString (Updates.rebootCommand m)])
      by (apply list_elem_of_In; simpl; tauto).
    unfold Updates.Apply, Updates.rebase.
    confine_with ltac:(first [ apply confined_fetchStatus; exact Hr
                             | apply confined_triggerReboot; exact Hb
                             | exact Hnow ]).
  - change (confined [] ["rpm-ostree"; "systemctl"] (Updates.EnsureRollback m)).
    assert (Hr : "rpm-ostree" ∈ ["rpm-ostree"; "systemctl"])
      by (apply list_elem_of_In; simpl; tauto).
    unfold Updates.EnsureRollback, Updates.rollback, Updates.rollbackRequested.
    confine_with ltac:(apply confined_fetchStatus; exact Hr).
Qed.

Lemma Updates_footprint_witness :
  confined [] ["rpm-ostree"; hd EmptyString (Updates.rebootCommand Updates.NewManager)]
           (Updates.now Updates.NewManager) /\
  confinedTo [] ["rpm-ostree"; "systemctl"] rebootPendingWorld
             (snd (Updates.Apply Updates.NewManager policyNoWindows rebootPendingWorld)) /\
  confinedTo [] ["rpm-ostree"; "systemctl"] unbootableWorld
             (snd (Updates.EnsureRollback Updates.NewManager unbootableWorld)).
Proof.
  assert (H : confined [] ["rpm-ostree";
                           hd EmptyString (Updates.rebootCommand Updates.NewManager)]
                       (Updates.now Updates.NewManager))
    by apply confined_Now.
  split; [exact H |].
  split.
  - exact (proj1 (Updates_footprint Updates.NewManager policyNoWindows rebootPendingWorld H)).
  - exact (proj2 (Updates_footprint Updates.NewManager policyNoWindows unbootableWorld H)).
Defined.

(** ** The USBGuard rules file *)

Lemma append_assoc_go (a b c : string) : (a +:+ b) +:+ c = a +:+ (b +:+ c).
Proof.
  induction a as [|x a IH]; [reflexivity |].
  change (String x ((a +:+ b) +:+ c) = String x (a +:+ (b +:+ c))).
  f_equal. exact IH.
Qed.

Lemma Join_linesOf (l : string) (ls : list string) :
  Join (l :: ls) newline +:+ newline = linesOf (l :: ls).
Proof.
  revert l. induction ls as [|l' ls IH]; intros l.
  - reflexivity.
  - change (Join (l :: l' :: ls) newline) with (l +:+ newline +:+ Join (l' :: ls) newline).
    rewrite !append_assoc_go, IH. reflexivity.
Qed.

Lemma confined_configureSSH (names : list string) (allowRoot : bool) :
  confined [sshDropIn; sshDropIn +:+ ".tmp"] names (Security.configureSSH allowRoot).
Proof. unfold Security.configureSSH. confine. Qed.

Lemma writeUSBGuardRules_writeThenRename (m : Security.Manager) (rules : list string) :
  Security.writeUSBGuardRules m rules
  = writeThenRename (Security.usbGuardRulesPath m) (Text (linesOf (managedHeader :: rules)))
      (fun err => ErrWrap "write usbguard rules: " err EmptyString)
      (fun err => ErrWrap "commit usbguard rules: " err EmptyString).
Proof.
  destruct rules as [|r rules]; [reflexivity |].
  unfold Security.writeUSBGuardRules, writeThenRename.
  change (String (ascii_of_nat 10) EmptyString) with newline.
  rewrite Join_linesOf. reflexivity.
Qed.



(** ** The retry loop *)

Lemma wrap64_small (z : Z) : - 2 ^ 63 <= z < 2 ^ 63 -> Agent.wrap64 z = z.
Proof. unfold Agent.wrap64. intros H. Z.to_euclidean_division_equations. lia. Qed.

Lemma backoffPasses_schedule (interval maxDelay baseBackoff : Z)
      (outcomes : list (option error)) :
  0 < interval -> 0 < baseBackoff <= maxDelay -> maxDelay < 2 ^ 62 ->
  noneCanceled outcomes ->
  forall (k : nat) (wait : Z),
    match outcomes with
    | [] => True
    | _ =>
        Agent.backoffPasses interval maxDelay baseBackoff (undisturbed outcomes) wait
          (Z.min (baseBackoff * 2 ^ Z.of_nat k) maxDelay)
        = ((if 0 <? wait then [wait] else [])
           ++ scheduledWaits interval baseBackoff maxDelay outcomes k, None)
    end.
Proof.
  intros Hi Hb Hm Hnc. induction Hnc as [|o outcomes Ho Hnc IH]; intros k wait; [exact I |].
  cbn [undisturbed map Agent.backoffPasses scheduledWaits].
  fold (undisturbed outcomes).
  assert (Hnone : (if 0 <? wait then @None error else None) = None)
    by (destruct (0 <? wait); reflexivity).
  rewrite Hnone.
  assert (Hpow : 0 < 2 ^ Z.of_nat k) by (apply Z.pow_pos_nonneg; lia).
  destruct o as [err|].
  - rewrite Ho.
    set (delay := Z.min (baseBackoff * 2 ^ Z.of_nat k) maxDelay).
    assert (Hnext : (if delay <? maxDelay
                     then if maxDelay <? Agent.wrap64 (delay * 2) then maxDelay
                          else Agent.wrap64 (delay * 2)
                     else delay)
                    = Z.min (baseBackoff * 2 ^ Z.of_nat (S k)) maxDelay).
    { replace (2 ^ Z.of_nat (S k)) with (2 * 2 ^ Z.of_nat k)
        by (rewrite Nat2Z.inj_succ, Z.pow_succ_r by lia; reflexivity).
      unfold delay.
      destruct (Z.ltb_spec (Z.min (baseBackoff * 2 ^ Z.of_nat k) maxDelay) maxDelay).
      - rewrite wrap64_small by lia.
        destruct (Z.ltb_spec maxDelay
                    (Z.min (baseBackoff * 2 ^ Z.of_nat k) maxDelay * 2)); lia.
      - nia. }
    cbv zeta. rewrite Hnext.
    destruct outcomes as [|o' outcomes'].
    + simpl. rewrite app_nil_r. reflexivity.
    + specialize (IH (S k) delay). cbv beta iota in IH. rewrite IH.
      assert (Hd : (0 <? delay) = true) by (apply Z.ltb_lt; unfold delay; nia).
      rewrite Hd. unfold scheduledWait at 1. fold delay.
      destruct k as [|j].
      * reflexivity.
      * reflexivity.
  - destruct outcomes as [|o' outcomes'].
    + simpl. rewrite app_nil_r. reflexivity.
    + specialize (IH O interval).
      replace (Z.min (baseBackoff * 2 ^ Z.of_nat 0) maxDelay) with baseBackoff in IH
        by (simpl; lia).
      cbv beta iota in IH. rewrite IH.
      assert (Hd : (0 <? interval) = true) by (apply Z.ltb_lt; lia).
      rewrite Hd. reflexivity.
Qed.

(** X18.  The retry schedule.  With a base delay that does not exceed
    the cap (and durations far from the range of [int64]), as long as the
    context is not cancelled the loop never returns, and the wait before
    each pass is the one the schedule prescribes: the interval after a
    success; after the first failure the base delay, doubled with each
    further failure in a row and capped at the maximum delay; a success
    resets the delay to the base.  Non-positive settings are replaced by
    defaults: one second for the interval and the base delay, sixteen
    times the base delay for the cap. *)
Theorem backoffLoop_schedule (a : Agent.Retry) (interval : Z)
                             (outcomes : list (option error)) :
  effectiveBackoff a <= effectiveMaxDelay a ->
  effectiveBackoff a < 2 ^ 58 -> effectiveMaxDelay a < 2 ^ 62 ->
  noneCanceled outcomes ->
  Agent.backoffLoop a interval (undisturbed outcomes)
  = (scheduledWaits (effectiveInterval interval) (effectiveBackoff a) (effectiveMaxDelay a)
                    outcomes 0, None).
Proof.
  intros Hle Hb Hm Hnc. unfold Agent.backoffLoop.
  fold (effectiveInterval interval). fold (effectiveBackoff a).
  assert (Hi : 0 < effectiveInterval interval).
  { unfold effectiveInterval, GoTime.Second. destruct (Z.leb_spec interval 0); lia. }
  assert (Hb0 : 0 < effectiveBackoff a).
  { unfold effectiveBackoff, GoTime.Second.
    destruct (Z.leb_spec (Agent.retryBackoff a) 0); lia. }
  assert (Hmax : (if Agent.retryMaxDelay a <=? 0
                  then Agent.wrap64 (effectiveBackoff a * 16)
                  else Agent.retryMaxDelay a) = effectiveMaxDelay a).
  { unfold effectiveMaxDelay. destruct (Agent.retryMaxDelay a <=? 0); [| reflexivity].
    apply wrap64_small. lia. }
  cbv zeta. rewrite Hmax.
  pose proof (backoffPasses_schedule (effectiveInterval interval) (effectiveMaxDelay a)
                (effectiveBackoff a) outcomes Hi (conj Hb0 Hle) Hm Hnc O 0) as H.
  replace (Z.min (effectiveBackoff a * 2 ^ Z.of_nat 0) (effectiveMaxDelay a))
    with (effectiveBackoff a) in H by (simpl; lia).
  destruct outcomes as [|o outcomes]; [reflexivity |].
  exact H.
Qed.

Lemma backoffLoop_schedule_witness :
  let outcomes := [Some timeout; Some timeout; Some timeout; None; Some timeout; None] in
  (effectiveBackoff sampleRetry <= effectiveMaxDelay sampleRetry /\
   effectiveBackoff sampleRetry < 2 ^ 58 /\ effectiveMaxDelay sampleRetry < 2 ^ 62 /\
   noneCanceled outcomes) /\
  scheduledWaits (effectiveInterval (30 * GoTime.Second)) (effectiveBackoff sampleRetry)
                 (effectiveMaxDelay sampleRetry) outcomes 0
  = [5 * GoTime.Second; 10 * GoTime.Second; 20 * GoTime.Second; 30 * GoTime.Second;
     5 * GoTime.Second] /\
  Agent.backoffLoop sampleRetry (30 * GoTime.Second) (undisturbed outcomes)
  = (scheduledWaits (effectiveInterval (30 * GoTime.Second)) (effectiveBackoff sampleRetry)
                    (effectiveMaxDelay sampleRetry) outcomes 0, None).
Proof.
  intros outcomes.
  assert (H1 : effectiveBackoff sampleRetry <= effectiveMaxDelay sampleRetry)
    by (vm_compute; discriminate).
  assert (H2 : effectiveBackoff sampleRetry < 2 ^ 58) by (vm_compute; reflexivity).
  assert (H3 : effectiveMaxDelay sampleRetry < 2 ^ 62) by (vm_compute; reflexivity).
  assert (H4 : noneCanceled outcomes) by (repeat constructor).
  split; [split; [exact H1 | split; [exact H2 | split; [exact H3 | exact H4]]] |].
  split; [vm_compute; reflexivity |].
  exact (backoffLoop_schedule sampleRetry (30 * GoTime.Second) outcomes H1 H2 H3 H4).
Defined.

Lemma backoffPasses_uncapped (interval maxDelay baseBackoff : Z)
      (outcomes : list (option error)) :
  0 < maxDelay < baseBackoff -> noneCanceled outcomes -> allFail outcomes ->
  forall wait,
    match outcomes with
    | [] => True
    | _ =>
        Agent.backoffPasses interval maxDelay baseBackoff (undisturbed outcomes) wait
          baseBackoff
        = ((if 0 <? wait then [wait] else [])
           ++ repeat baseBackoff (length outcomes - 1), None)
    end.
Proof.
  intros Hb Hnc Hf. induction Hnc as [|o outcomes Ho Hnc IH]; intros wait; [exact I |].
  inversion Hf as [|o0 l0 Hne Hf']; subst.
  destruct o as [err|]; [| congruence].
  cbn [undisturbed map Agent.backoffPasses]. fold (undisturbed outcomes).
  assert (Hnone : (if 0 <? wait then @None error else None) = None)
    by (destruct (0 <? wait); reflexivity).
  rewrite Hnone, Ho.
  assert (Hlt : (baseBackoff <? maxDelay) = false) by (apply Z.ltb_ge; lia).
  cbv zeta. rewrite Hlt.
  specialize (IH Hf' baseBackoff).
  destruct outcomes as [|o' outcomes'].
  - simpl. rewrite app_nil_r. reflexivity.
  - cbv beta iota in IH. rewrite IH.
    assert (Hd : (0 <? baseBackoff) = true) by (apply Z.ltb_lt; lia).
    rewrite Hd. simpl. rewrite Nat.sub_0_r. reflexivity.
Qed.

(** X19.  The cap binds only the doubling.  When the base delay exceeds
    the maximum delay, the delay is never doubled and never capped: after
    every failure the loop waits the base delay, which is more than the
    configured maximum. *)
Theorem backoffLoop_base_exceeds_cap (a : Agent.Retry) (interval : Z)
                                     (outcomes : list (option error)) :
  0 < Agent.retryMaxDelay a < Agent.retryBackoff a ->
  noneCanceled outcomes -> allFail outcomes ->
  Agent.backoffLoop a interval (undisturbed outcomes)
  = (repeat (Agent.retryBackoff a) (length outcomes - 1), None).
Proof.
  intros Hb Hnc Hf. unfold Agent.backoffLoop. cbv zeta.
  assert (H1 : (Agent.retryBackoff a <=? 0) = false) by (apply Z.leb_gt; lia).
  assert (H2 : (Agent.retryMaxDelay a <=? 0) = false) by (apply Z.leb_gt; lia).
  rewrite H1, H2.
  pose proof (backoffPasses_uncapped
                (if interval <=? 0 then GoTime.Second else interval)
                (Agent.retryMaxDelay a) (Agent.retryBackoff a) outcomes Hb Hnc Hf 0) as H.
  destruct outcomes as [|o outcomes]; [reflexivity | exact H].
Qed.

Lemma backoffLoop_base_exceeds_cap_witness :
  let a := Agent.mkRetry (60 * GoTime.Second) (10 * GoTime.Second) in
  let outcomes := [Some timeout; Some timeout; Some timeout] in
  (0 < Agent.retryMaxDelay a < Agent.retryBackoff a /\
   noneCanceled outcomes /\ allFail outcomes) /\
  Agent.backoffLoop a (30 * GoTime.Second) (undisturbed outcomes)
  = (repeat (Agent.retryBackoff a) (length outcomes - 1), None).
Proof.
  intros a outcomes.
  assert (H1 : 0 < Agent.retryMaxDelay a < Agent.retryBackoff a)
    by (vm_compute; split; reflexivity).
  assert (H2 : noneCanceled outcomes) by (repeat constructor).
  assert (H3 : allFail outcomes) by (repeat constructor; discriminate).
  split; [split; [exact H1 | split; [exact H2 | exact H3]] |].
  exact (backoffLoop_base_exceeds_cap a (30 * GoTime.Second) outcomes H1 H2 H3).
Defined.

Lemma backoffPasses_returns (interval maxDelay baseBackoff : Z)
      (script : list (option error * option error)) :
  forall (wait delay : Z) (waits : list Z) (e : error),
    Agent.backoffPasses interval maxDelay baseBackoff script wait delay = (waits, Some e) ->
    exists waitErr workErr,
      In (waitErr, workErr) script /\
      (waitErr = Some e \/ (workErr = Some e /\ GoErrors.IsCanceled e = true)).
Proof.
  induction script as [|[waitErr workErr] script IH]; intros wait delay waits e;
    cbn [Agent.backoffPasses]; [discriminate |].
  destruct (0 <? wait).
  - destruct waitErr as [we|].
    + intros [= _ <-]. exists (Some we), workErr. split; [left; reflexivity | auto].
    + destruct workErr as [err|].
      * destruct (GoErrors.IsCanceled err) eqn:Hc.
        -- intros [= _ <-]. exists None, (Some err). split; [left; reflexivity | auto].
        -- cbv zeta.
           match goal with
           | |- context [Agent.backoffPasses ?i ?m ?b script ?w0 ?d0] =>
               destruct (Agent.backoffPasses i m b script w0 d0) as [more r] eqn:E
           end.
           intros [= _ ->]. destruct (IH _ _ _ _ E) as (x & y & Hin & H).
           exists x, y. split; [right; exact Hin | exact H].
      * destruct (Agent.backoffPasses interval maxDelay baseBackoff script interval
                    baseBackoff) as [more r] eqn:E.
        intros [= _ ->]. destruct (IH _ _ _ _ E) as (x & y & Hin & H).
        exists x, y. split; [right; exact Hin | exact H].
  - destruct workErr as [err|].
    + destruct (GoErrors.IsCanceled err) eqn:Hc.
      * intros [= _ <-]. exists waitErr, (Some err). split; [left; reflexivity | auto].
      * cbv zeta.
        match goal with
        | |- context [Agent.backoffPasses ?i ?m ?b script ?w0 ?d0] =>
            destruct (Agent.backoffPasses i m b script w0 d0) as [more r] eqn:E
        end.
        intros [= _ ->]. destruct (IH _ _ _ _ E) as (x & y & Hin & H).
        exists x, y. split; [right; exact Hin | exact H].
    + destruct (Agent.backoffPasses interval maxDelay baseBackoff script interval
                  baseBackoff) as [more r] eqn:E.
      intros [= _ ->]. destruct (IH _ _ _ _ E) as (x & y & Hin & H).
      exists x, y. split; [right; exact Hin | exact H].
Qed.

(** X20.  The loop ends only by cancellation.  Whatever the settings,
    when [backoffLoop] returns, the error it returns is the error of an
    interrupted wait, or an error of [work] that is or wraps
    [context.Canceled]; no other failure of [work] ends the loop. *)
Theorem backoffLoop_returns_on_cancellation_only
    (a : Agent.Retry) (interval : Z) (script : list (option error * option error))
    (waits : list Z) (e : error) :
  Agent.backoffLoop a interval script = (waits, Some e) ->
  exists waitErr workErr,
    In (waitErr, workErr) script /\
    (waitErr = Some e \/ (workErr = Some e /\ GoErrors.IsCanceled e = true)).
Proof. unfold Agent.backoffLoop. cbv zeta. apply backoffPasses_returns. Qed.

Lemma backoffLoop_returns_on_cancellation_only_witness :
  let script := [(None, Some timeout); (None, None);
                 (None, Some (ErrWrap "pull policy: " ErrCanceled EmptyString));
                 (None, None)] in
  let e := ErrWrap "pull policy: " ErrCanceled EmptyString in
  Agent.backoffLoop sampleRetry (30 * GoTime.Second) script
  = ([5 * GoTime.Second; 30 * GoTime.Second], Some e) /\
  exists waitErr workErr,
    In (waitErr, workErr) script /\
    (waitErr = Some e \/ (workErr = Some e /\ GoErrors.IsCanceled e = true)).
Proof.
  intros script e.
  assert (H : Agent.backoffLoop sampleRetry (30 * GoTime.Second) script
              = ([5 * GoTime.Second; 30 * GoTime.Second], Some e))
    by (vm_compute; reflexivity).
  split; [exact H |].
  exact (backoffLoop_returns_on_cancellation_only sampleRetry (30 * GoTime.Second) script
           _ e H).
Defined.

(** ** The event flush *)

(** X21.  [flushEvents] takes events off the queue only after the
    backend accepted them.  With a readable queue: when it is empty the
    backend is not needed and the flush succeeds as it is; otherwise the
    whole queue is offered to the backend as one batch, in order; if the
    backend refuses, the flush fails with its error and the host is
    unchanged; if it accepts, either the queue is emptied and the flush
    succeeds, or emptying fails, the flush fails and the queue still holds
    the batch, which the next flush sends again. *)
Theorem flushEvents_keeps_unsent
    (a : Agent.Agent) (report : string -> string -> list Event -> option error)
    (w : World) (pending : list Event) :
  Events.Load (Agent.eventQueue a) w = (Ok pending, w) ->
  match pending with
  | [] => Agent.flushEvents a report w = (None, w)
  | _ =>
      match report (cred_DeviceToken (Agent.credentials a))
                   (cred_DeviceID (Agent.credentials a)) pending with
      | Some e => Agent.flushEvents a report w = (Some e, w)
      | None =>
          exists r w',
            Agent.flushEvents a report w = (r, w') /\
            Events.Load (Agent.eventQueue a) w'
            = (Ok (match r with
                   | None => []
                   | Some _ => pending
                   end), w')
      end
  end.
Proof.
  intros HL. unfold Agent.flushEvents, bind, ret. rewrite HL.
  destruct pending as [|x xs]; [reflexivity |].
  destruct (report _ _ (x :: xs)) as [e|]; [reflexivity |].
  set (q := Agent.eventQueue a) in *.
  assert (Hf : Host.faulty OpRead (Events.path q) w = false).
  { apply (readLocked_ok_readable q w (x :: xs)).
    rewrite <- Load_readLocked, HL. reflexivity. }
  unfold Events.Replace. rewrite writeLocked_writeThenRename.
  destruct (writeThenRename_cases (Events.path q) (Json (DocEvents []))
              (fun err => ErrWrap "write temp events: " err EmptyString)
              (fun err => ErrWrap "rename events: " err EmptyString) w)
    as [(e & w1 & -> & Hs) | ->].
  - exists (Some e), w1. split; [reflexivity |].
    rewrite Load_content by (rewrite (sameButTmp_faulty _ _ _ OpRead _ Hs); exact Hf).
    rewrite (sameButTmp_contentAt _ _ _ Hs).
    rewrite Load_content in HL by exact Hf.
    injection HL as ->. reflexivity.
  - exists None, (replaced (Events.path q) (Json (DocEvents [])) w).
    split; [reflexivity |]. exact (Load_replaced q [] w Hf).
Qed.

Lemma flushEvents_keeps_unsent_witness :
  let a := rotatingAgent in
  let refuse : string -> string -> list Event -> option error :=
    fun _ _ _ => Some timeout in
  let accept : string -> string -> list Event -> option error :=
    fun token id batch =>
      if (String.eqb token "t1" && String.eqb id "d1"
          && bool_decide (map ev_ID batch = ["1"]))%bool
      then None else Some (ErrMsg "api error 400: unexpected batch") in
  Events.Load (Agent.eventQueue a) queuedWorld = (Ok [eventOne], queuedWorld) /\
  Agent.flushEvents a refuse queuedWorld = (Some timeout, queuedWorld) /\
  fst (Agent.flushEvents a accept queuedWorld) = None /\
  exists r w',
    Agent.flushEvents a accept queuedWorld = (r, w') /\
    Events.Load (Agent.eventQueue a) w'
    = (Ok (match r with
           | None => []
           | Some _ => [eventOne]
           end), w').
Proof.
  intros a refuse accept.
  assert (H : Events.Load (Agent.eventQueue a) queuedWorld = (Ok [eventOne], queuedWorld))
    by (apply Load_eta; vm_compute; reflexivity).
  split; [exact H |].
  split; [exact (flushEvents_keeps_unsent a refuse queuedWorld [eventOne] H) |].
  split; [vm_compute; reflexivity |].
  exact (flushEvents_keeps_unsent a accept queuedWorld [eventOne] H).
Defined.

(** ** Enrollment *)

Lemma loadCredentials_world (m : Enroll.Manager) (w : World) :
  snd (Enroll.loadCredentials m w) = w.
Proof.
  unfold Enroll.loadCredentials, Util.ReadSecretFile, Host.ReadFile, bind, ret.
  destruct (Host.faulty _ _ _); [reflexivity |].
  destruct (w_files w !! Enroll.credentialsPath m) as [[s|[]]|]; reflexivity.
Qed.

Lemma loadEnrollmentConfig_world (m : Enroll.Manager) (o : Enroll.Outside) (w : World) :
  snd (Enroll.loadEnrollmentConfig m o w) = w.
Proof.
  unfold Enroll.loadEnrollmentConfig, Host.ReadFile, bind, ret. cbv zeta.
  destruct (isEmpty _); [reflexivity |].
  destruct (Host.faulty _ _ _); [reflexivity |].
  destruct (w_files w !! _) as [d|]; [| reflexivity].
  destruct (Enroll.unmarshalHandoff o d) as [[[id tok] pol]|e]; [| reflexivity].
  destruct (isEmpty id || isEmpty tok)%bool; reflexivity.
Qed.

(** A handoff that loads names its file and carries a token. *)
Lemma loadEnrollmentConfig_ok (m : Enroll.Manager) (o : Enroll.Outside) (w : World)
      (cred : Credentials) (policy : PolicyEnvelope) :
  fst (Enroll.loadEnrollmentConfig m o w) = Ok (cred, policy) ->
  isEmpty (handoffPath m) = false /\ isEmpty (cred_DeviceToken cred) = false /\
  exists data, contentAt (handoffPath m) w = Some data.
Proof.
  unfold Enroll.loadEnrollmentConfig, Host.ReadFile, bind, ret, handoffPath, contentAt.
  cbv zeta.
  destruct (isEmpty _); [discriminate |].
  destruct (Host.faulty _ _ _); [discriminate |].
  destruct (w_files w !! _) as [d|]; [| discriminate].
  destruct (Enroll.unmarshalHandoff o d) as [[[id tok] pol]|e]; [| discriminate].
  destruct (isEmpty id) eqn:Ei; [discriminate |].
  destruct (isEmpty tok) eqn:Et; [discriminate |].
  simpl. intros [= <- <-]. simpl. eauto.
Qed.

Lemma saveCredentials_cases (m : Enroll.Manager) (cred : Credentials)
      (policy : PolicyEnvelope) (w : World) :
  (exists e w1, Enroll.saveCredentials m cred policy w = (Some e, w1) /\
                touchesOnly [Enroll.credentialsPath m; Enroll.credentialsPath m +:+ ".tmp"]
                            w w1 /\
                contentAt (Enroll.credentialsPath m) w1
                = contentAt (Enroll.credentialsPath m) w) \/
  Enroll.saveCredentials m cred policy w
  = (None, replaced (Enroll.credentialsPath m) (Json (DocStored cred policy)) w).
Proof.
  pose proof (Persist_touches m cred policy w) as Ht.
  destruct (Persist_cases m cred policy w) as [(e & w1 & E & Hs) | E].
  - left. exists e, w1. unfold Enroll.Persist in *. rewrite E in *.
    split; [reflexivity |]. split; [exact Ht | exact Hs].
  - right. exact E.
Qed.

Lemma EnsureEnrollment_stored
    (m : Enroll.Manager) (o : Enroll.Outside) (w : World)
    (cred : Credentials) (policy : PolicyEnvelope) :
  Host.faulty OpRead (Enroll.credentialsPath m) w = false ->
  contentAt (Enroll.credentialsPath m) w = Some (Json (DocStored cred policy)) ->
  cred_DeviceToken cred <> EmptyString ->
  Enroll.EnsureEnrollment m o w = (Ok (cred, policy), w).
Proof.
  intros Hf Hc Ht. apply isEmpty_false in Ht.
  unfold Enroll.EnsureEnrollment, Enroll.loadCredentials, Util.ReadSecretFile,
    Host.ReadFile, bind, ret.
  unfold contentAt in Hc. rewrite Hf, Hc. cbv zeta. rewrite Ht. reflexivity.
Qed.

(** X22.  An enrolled device needs nothing to start: when the
    credentials file can be read and holds credentials with a token,
    [EnsureEnrollment] returns them and the stored policy and leaves the
    host as it is, whatever the handoff file holds and whether or not the
    backend can be reached. *)
Theorem enrolled_device_needs_nothing
    (m : Enroll.Manager) (o : Enroll.Outside) (w : World)
    (cred : Credentials) (policy : PolicyEnvelope) :
  Host.faulty OpRead (Enroll.credentialsPath m) w = false ->
  contentAt (Enroll.credentialsPath m) w = Some (Json (DocStored cred policy)) ->
  cred_DeviceToken cred <> EmptyString ->
  Enroll.EnsureEnrollment m o w = (Ok (cred, policy), w).
Proof. apply EnsureEnrollment_stored. Qed.

Lemma handoff_steps
    (m : Enroll.Manager) (o : Enroll.Outside) (w : World)
    (cred : Credentials) (policy : PolicyEnvelope) :
  notEnrolled m w ->
  fst (Enroll.loadEnrollmentConfig m o w) = Ok (cred, policy) ->
  handoffPath m ∉ [Enroll.credentialsPath m; Enroll.credentialsPath m +:+ ".tmp"] ->
  exists r w',
    Enroll.EnsureEnrollment m o w = (r, w') /\
    w_faults w' = w_faults w /\
    match r with
    | Ok enrolled =>
        enrolled = (cred, policy) /\
        contentAt (Enroll.credentialsPath m) w' = Some (Json (DocStored cred policy)) /\
        contentAt (handoffPath m) w' = None
    | Fail _ => contentAt (handoffPath m) w' = contentAt (handoffPath m) w
    end.
Proof.
  intros Hne Hload Hapart.
  destruct (loadEnrollmentConfig_ok m o w cred policy Hload) as (Hp & Htok & data & Hdata).
  assert (Hcp : handoffPath m <> Enroll.credentialsPath m)
    by (intros E; apply Hapart; rewrite E; constructor).
  unfold Enroll.EnsureEnrollment, bind, ret.
  unfold notEnrolled in Hne.
  pose proof (loadCredentials_world m w) as Hw0.
  destruct (Enroll.loadCredentials m w) as [stored w0]. simpl in Hw0, Hne. subst w0.
  assert (Hnone : match stored with
                  | Ok (c, p) => if negb (isEmpty (cred_DeviceToken c)) then Some (c, p)
                                 else None
                  | Fail _ => None
                  end = None).
  { destruct stored as [[c p]|e]; [| reflexivity]. rewrite Hne. reflexivity. }
  cbv zeta. rewrite Hnone.
  pose proof (loadEnrollmentConfig_world m o w) as Hw1.
  destruct (Enroll.loadEnrollmentConfig m o w) as [config w1]. simpl in Hw1, Hload.
  subst w1 config. rewrite Htok. cbn [negb].
  destruct (saveCredentials_cases m cred policy w) as [(e & w1 & -> & Ht & _) | ->].
  { exists (Fail e), w1. split; [reflexivity |]. split; [apply Ht |].
    apply Ht. exact Hapart. }
  set (w1 := replaced (Enroll.credentialsPath m) (Json (DocStored cred policy)) w).
  assert (Ht1 : touchesOnly [Enroll.credentialsPath m; Enroll.credentialsPath m +:+ ".tmp"]
                            w w1) by apply touchesOnly_replaced.
  assert (Hh1 : contentAt (handoffPath m) w1 = Some data).
  { rewrite <- Hdata. apply Ht1. exact Hapart. }
  unfold Enroll.clearEnrollmentConfig, Host.Remove, bind, ret. cbv zeta.
  fold (handoffPath m). rewrite Hp.
  destruct (Host.faulty OpRemove (handoffPath m) w1) eqn:Hrm.
  { cbn [GoErrors.IsNotExist negb]. eexists (Fail _), w1. split; [reflexivity |].
    split; [reflexivity |]. rewrite Hh1, Hdata. reflexivity. }
  unfold contentAt in Hh1. rewrite Hh1.
  set (w2 := set_files (delete (handoffPath m) (w_files w1)) w1).
  exists (Ok (cred, policy)), w2. split; [reflexivity |]. split; [reflexivity |].
  split; [reflexivity |]. split.
  - unfold contentAt, w2. simpl. rewrite lookup_delete_ne by congruence.
    apply replaced_lookup.
  - unfold contentAt, w2. simpl. apply lookup_delete_eq.
Qed.

(** X23.  The handoff file is consumed once the credentials are safe.
    On a device that is not enrolled, with a handoff file that loads and
    is kept apart from the credentials file: if [EnsureEnrollment]
    succeeds, it returns the handed-over credentials, the credentials
    file holds them with the policy, the handoff file is gone, and a
    second call returns the same from the credentials file; if it fails,
    the handoff file is still there. *)
Theorem handoff_consumed_after_save
    (m : Enroll.Manager) (o : Enroll.Outside) (w : World)
    (cred : Credentials) (policy : PolicyEnvelope) :
  notEnrolled m w ->
  Host.faulty OpRead (Enroll.credentialsPath m) w = false ->
  fst (Enroll.loadEnrollmentConfig m o w) = Ok (cred, policy) ->
  handoffPath m ∉ [Enroll.credentialsPath m; Enroll.credentialsPath m +:+ ".tmp"] ->
  exists r w',
    Enroll.EnsureEnrollment m o w = (r, w') /\
    match r with
    | Ok enrolled =>
        enrolled = (cred, policy) /\
        contentAt (Enroll.credentialsPath m) w' = Some (Json (DocStored cred policy)) /\
        contentAt (handoffPath m) w' = None /\
        forall o', Enroll.EnsureEnrollment m o' w' = (Ok (cred, policy), w')
    | Fail _ => contentAt (handoffPath m) w' = contentAt (handoffPath m) w
    end.
Proof.
  intros Hne Hread Hload Hapart.
  destruct (loadEnrollmentConfig_ok m o w cred policy Hload) as (_ & Htok & _).
  destruct (handoff_steps m o w cred policy Hne Hload Hapart) as (r & w' & E & Hf & H).
  exists r, w'. split; [exact E |].
  destruct r as [enrolled|e]; [| exact H].
  destruct H as (-> & Hc & Hh). split; [reflexivity |]. split; [exact Hc |].
  split; [exact Hh |]. intros o'.
  apply EnsureEnrollment_stored; [| exact Hc | apply isEmpty_false; exact Htok].
  unfold Host.faulty. rewrite Hf. exact Hread.
Qed.

Lemma enrolled_device_needs_nothing_witness :
  let cred := mkCredentials "d1" "t1" "v1" in
  let w := hostWith {[ "/etc/evergreen/token" := Json (DocStored cred envelopeV1);
                       "/etc/evergreen/enroll.json" := Text "d7 t7" ]} in
  (Host.faulty OpRead (Enroll.credentialsPath sampleEnroll) w = false /\
   contentAt (Enroll.credentialsPath sampleEnroll) w = Some (Json (DocStored cred envelopeV1)) /\
   cred_DeviceToken cred <> EmptyString) /\
  Enroll.EnsureEnrollment sampleEnroll (outside false) w = (Ok (cred, envelopeV1), w).
Proof.
  intros cred w.
  assert (H1 : Host.faulty OpRead (Enroll.credentialsPath sampleEnroll) w = false)
    by (vm_compute; reflexivity).
  assert (H2 : contentAt (Enroll.credentialsPath sampleEnroll) w
               = Some (Json (DocStored cred envelopeV1))) by (vm_compute; reflexivity).
  assert (H3 : cred_DeviceToken cred <> EmptyString) by discriminate.
  split; [split; [exact H1 | split; [exact H2 | exact H3]] |].
  exact (enrolled_device_needs_nothing sampleEnroll (outside false) w cred envelopeV1
           H1 H2 H3).
Defined.

Lemma handoff_consumed_after_save_witness :
  let m := sampleEnroll in
  let o := outside false in
  let cred := mkCredentials "d7" "t7" "v1" in
  let w := hostWith {[ "/etc/evergreen/enroll.json" := Text "d7 t7" ]} in
  (notEnrolled m w /\
   Host.faulty OpRead (Enroll.credentialsPath m) w = false /\
   fst (Enroll.loadEnrollmentConfig m o w) = Ok (cred, envelopeV1) /\
   (handoffPath m ∉ [Enroll.credentialsPath m; Enroll.credentialsPath m +:+ ".tmp"])) /\
  fst (Enroll.EnsureEnrollment m o w) = Ok (cred, envelopeV1) /\
  exists r w',
    Enroll.EnsureEnrollment m o w = (r, w') /\
    match r with
    | Ok enrolled =>
        enrolled = (cred, envelopeV1) /\
        contentAt (Enroll.credentialsPath m) w' = Some (Json (DocStored cred envelopeV1)) /\
        contentAt (handoffPath m) w' = None /\
        forall o', Enroll.EnsureEnrollment m o' w' = (Ok (cred, envelopeV1), w')
    | Fail _ => contentAt (handoffPath m) w' = contentAt (handoffPath m) w
    end.
Proof.
  intros m o cred w.
  assert (H1 : notEnrolled m w) by (vm_compute; exact I).
  assert (H2 : Host.faulty OpRead (Enroll.credentialsPath m) w = false)
    by (vm_compute; reflexivity).
  assert (H3 : fst (Enroll.loadEnrollmentConfig m o w) = Ok (cred, envelopeV1))
    by (vm_compute; reflexivity).
  assert (H4 : handoffPath m ∉ [Enroll.credentialsPath m;
                                Enroll.credentialsPath m +:+ ".tmp"]).
  { intros H. apply list_elem_of_In in H. simpl in H.
    destruct H as [H | [H | []]]; discriminate H. }
  split; [split; [exact H1 | split; [exact H2 | split; [exact H3 | exact H4]]] |].
  split; [vm_compute; reflexivity |].
  exact (handoff_consumed_after_save m o w cred envelopeV1 H1 H2 H3 H4).
Defined.

(** X24.  A handoff file that is there but cannot be used blocks
    enrollment.  On a device that is not enrolled, when loading the
    handoff fails for any reason other than the file being absent -- it
    cannot be read, does not decode, or lacks the device id or the token
    -- [EnsureEnrollment] fails with that error and leaves the host as it
    is; the backend is not asked, even if it would enroll the device. *)
Theorem unusable_handoff_blocks_enrollment
    (m : Enroll.Manager) (o : Enroll.Outside) (w : World) (e : error) :
  notEnrolled m w ->
  fst (Enroll.loadEnrollmentConfig m o w) = Fail e ->
  GoErrors.IsNotExist e = false ->
  Enroll.EnsureEnrollment m o w = (Fail e, w).
Proof.
  intros Hne Hload Hex.
  unfold Enroll.EnsureEnrollment, bind, ret.
  unfold notEnrolled in Hne.
  pose proof (loadCredentials_world m w) as Hw0.
  destruct (Enroll.loadCredentials m w) as [stored w0]. simpl in Hw0, Hne. subst w0.
  assert (Hnone : match stored with
                  | Ok (c, p) => if negb (isEmpty (cred_DeviceToken c)) then Some (c, p)
                                 else None
                  | Fail _ => None
                  end = None).
  { destruct stored as [[c p]|e0]; [| reflexivity]. rewrite Hne. reflexivity. }
  cbv zeta. rewrite Hnone.
  pose proof (loadEnrollmentConfig_world m o w) as Hw1.
  destruct (Enroll.loadEnrollmentConfig m o w) as [config w1]. simpl in Hw1, Hload.
  subst w1 config. rewrite Hex. reflexivity.
Qed.

Lemma unusable_handoff_blocks_enrollment_witness :
  let m := sampleEnroll in
  let o := outside true in
  let w := hostWith {[ "/etc/evergreen/enroll.json" := Text "d7" ]} in
  let e := ErrMsg "enrollment config missing credentials" in
  (notEnrolled m w /\
   fst (Enroll.loadEnrollmentConfig m o w) = Fail e /\
   GoErrors.IsNotExist e = false) /\
  Enroll.EnrollDevice o (enrollRequest m laptop)
  = Ok (Enroll.mkEnrollDeviceResponse "d9" "t9" envelopeV2) /\
  Enroll.EnsureEnrollment m o w = (Fail e, w).
Proof.
  intros m o w e.
  assert (H1 : notEnrolled m w) by (vm_compute; exact I).
  assert (H2 : fst (Enroll.loadEnrollmentConfig m o w) = Fail e)
    by (vm_compute; reflexivity).
  assert (H3 : GoErrors.IsNotExist e = false) by reflexivity.
  split; [split; [exact H1 | split; [exact H2 | exact H3]] |].
  split; [reflexivity |].
  exact (unusable_handoff_blocks_enrollment m o w e H1 H2 H3).
Defined.

(** X25.  Enrollment with the backend.  On a device that is not
    enrolled and has no handoff file, [EnsureEnrollment] sends the
    hardware facts with the pre-shared key of the configuration.  If the
    backend refuses, the call fails with the wrapped error and the host
    is unchanged.  If it answers, the credentials are the device id and
    token of the answer with the version of its policy, and either they
    are written to the credentials file together with the policy and
    returned, or writing fails, the call fails and the credentials file
    is what it was. *)
Theorem backend_enrollment_is_persisted
    (m : Enroll.Manager) (o : Enroll.Outside) (w : World)
    (e : error) (facts : Enroll.HardwareFacts) :
  notEnrolled m w ->
  fst (Enroll.loadEnrollmentConfig m o w) = Fail e ->
  GoErrors.IsNotExist e = true ->
  Enroll.CollectHardwareFacts o = Ok facts ->
  match Enroll.EnrollDevice o (enrollRequest m facts) with
  | Fail err =>
      Enroll.EnsureEnrollment m o w = (Fail (ErrWrap "enroll device: " err EmptyString), w)
  | Ok resp =>
      let cred := mkCredentials (Enroll.resp_DeviceID resp) (Enroll.resp_DeviceToken resp)
                                (env_Version (Enroll.resp_Policy resp)) in
      exists r w',
        Enroll.EnsureEnrollment m o w = (r, w') /\
        match r with
        | Ok enrolled =>
            enrolled = (cred, Enroll.resp_Policy resp) /\
            contentAt (Enroll.credentialsPath m) w'
            = Some (Json (DocStored cred (Enroll.resp_Policy resp)))
        | Fail _ =>
            contentAt (Enroll.credentialsPath m) w'
            = contentAt (Enroll.credentialsPath m) w
        end
  end.
Proof.
  intros Hne Hload Hex Hfacts.
  assert (Hstep : Enroll.EnsureEnrollment m o w = Enroll.enrollWithBackend m o w).
  { unfold Enroll.EnsureEnrollment, bind, ret.
    unfold notEnrolled in Hne.
    pose proof (loadCredentials_world m w) as Hw0.
    destruct (Enroll.loadCredentials m w) as [stored w0]. simpl in Hw0, Hne. subst w0.
    assert (Hnone : match stored with
                    | Ok (c, p) => if negb (isEmpty (cred_DeviceToken c)) then Some (c, p)
                                   else None
                    | Fail _ => None
                    end = None).
    { destruct stored as [[c p]|e0]; [| reflexivity]. rewrite Hne. reflexivity. }
    cbv zeta. rewrite Hnone.
    pose proof (loadEnrollmentConfig_world m o w) as Hw1.
    destruct (Enroll.loadEnrollmentConfig m o w) as [config w1]. simpl in Hw1, Hload.
    subst w1 config. rewrite Hex. reflexivity. }
  rewrite Hstep. unfold Enroll.enrollWithBackend. rewrite Hfacts. cbv zeta.
  fold (enrollRequest m facts).
  destruct (Enroll.EnrollDevice o (enrollRequest m facts)) as [resp|err]; [| reflexivity].
  unfold bind, ret.
  destruct (saveCredentials_cases m
              (mkCredentials (Enroll.resp_DeviceID resp) (Enroll.resp_DeviceToken resp)
                             (env_Version (Enroll.resp_Policy resp)))
              (Enroll.resp_Policy resp) w) as [(e1 & w1 & -> & _ & Hs) | ->].
  - exists (Fail e1), w1. split; [reflexivity | exact Hs].
  - eexists (Ok _), _. split; [reflexivity |]. split; [reflexivity |].
    apply contentAt_replaced.
Qed.

Lemma backend_enrollment_is_persisted_witness :
  let m := sampleEnroll in
  let o := outside true in
  let w := hostWith ∅ in
  let e := ErrWrap "open: " ErrNotExist EmptyString in
  let cred := mkCredentials "d9" "t9" "v2" in
  (notEnrolled m w /\
   fst (Enroll.loadEnrollmentConfig m o w) = Fail e /\
   GoErrors.IsNotExist e = true /\
   Enroll.CollectHardwareFacts o = Ok laptop) /\
  Enroll.req_PreSharedKey (enrollRequest m laptop) = "secret" /\
  fst (Enroll.EnsureEnrollment m o w) = Ok (cred, envelopeV2) /\
  match Enroll.EnrollDevice o (enrollRequest m laptop) with
  | Fail err =>
      Enroll.EnsureEnrollment m o w = (Fail (ErrWrap "enroll device: " err EmptyString), w)
  | Ok resp =>
      let cred := mkCredentials (Enroll.resp_DeviceID resp) (Enroll.resp_DeviceToken resp)
                                (env_Version (Enroll.resp_Policy resp)) in
      exists r w',
        Enroll.EnsureEnrollment m o w = (r, w') /\
        match r with
        | Ok enrolled =>
            enrolled = (cred, Enroll.resp_Policy resp) /\
            contentAt (Enroll.credentialsPath m) w'
            = Some (Json (DocStored cred (Enroll.resp_Policy resp)))
        | Fail _ =>
            contentAt (Enroll.credentialsPath m) w'
            = contentAt (Enroll.credentialsPath m) w
        end
  end.
Proof.
  intros m o w e cred.
  assert (H1 : notEnrolled m w) by (vm_compute; exact I).
  assert (H2 : fst (Enroll.loadEnrollmentConfig m o w) = Fail e)
    by (vm_compute; reflexivity).
  assert (H3 : GoErrors.IsNotExist e = true) by reflexivity.
  assert (H4 : Enroll.CollectHardwareFacts o = Ok laptop) by reflexivity.
  split; [split; [exact H1 | split; [exact H2 | split; [exact H3 | exact H4]]] |].
  split; [reflexivity |]. split; [vm_compute; reflexivity |].
  exact (backend_enrollment_is_persisted m o w e laptop H1 H2 H3 H4).
Defined.

(** ** The state queue and the state report *)

Section StateQueue.

Context {S : Type} (codec : State.Codec S).

Lemma State_Load_content (q : State.Queue) (w : World) :
  Host.faulty OpRead (State.path q) w = false ->
  State.Load codec q w
  = (match contentAt (State.path q) w with
     | None => Ok []
     | Some data =>
         if Events.isZeroBytes data then Ok []
         else match State.unmarshal codec data with
              | Fail err => Fail (ErrWrap "decode state queue: " err EmptyString)
              | Ok states => Ok states
              end
     end, w).
Proof.
  intros Hf. unfold State.Load, State.readLocked, Host.ReadFile, bind, ret, contentAt.
  rewrite Hf. destruct (w_files w !! State.path q) as [d|]; [| reflexivity].
  destruct (Events.isZeroBytes d); [reflexivity |].
  destruct (State.unmarshal codec d); reflexivity.
Qed.

Lemma State_Load_world (q : State.Queue) (w : World) : snd (State.Load codec q w) = w.
Proof.
  unfold State.Load, State.readLocked, Host.ReadFile, bind, ret.
  destruct (Host.faulty _ _ _); [reflexivity |].
  destruct (w_files w !! State.path q) as [d|]; [| reflexivity].
  destruct (Events.isZeroBytes d); [reflexivity |].
  destruct (State.unmarshal codec d); reflexivity.
Qed.

Lemma State_Load_ok_readable (q : State.Queue) (w : World) (states : list S) :
  fst (State.Load codec q w) = Ok states -> Host.faulty OpRead (State.path q) w = false.
Proof.
  unfold State.Load, State.readLocked, Host.ReadFile, bind, ret.
  destruct (Host.faulty _ _ _); [discriminate | reflexivity].
Qed.

Lemma State_writeLocked_writeThenRename (q : State.Queue) (states : list S) :
  State.writeLocked codec q states
  = writeThenRename (State.path q) (State.marshal codec states)
      (fun err => ErrWrap "write state queue: " err EmptyString)
      (fun err => ErrWrap "commit state queue: " err EmptyString).
Proof. reflexivity. Qed.

(** A write either fails and leaves the queue as [Load] sees it, or
    succeeds and the queue is what was written. *)
Lemma State_writeLocked_cases (q : State.Queue) (states before : list S) (w : World) :
  faithful codec ->
  State.Load codec q w = (Ok before, w) ->
  exists r w',
    State.writeLocked codec q states w = (r, w') /\
    State.Load codec q w' = (Ok (match r with
                                 | None => states
                                 | Some _ => before
                                 end), w').
Proof.
  intros Hfaith HL.
  assert (Hf : Host.faulty OpRead (State.path q) w = false).
  { apply (State_Load_ok_readable q w before). rewrite HL. reflexivity. }
  rewrite State_writeLocked_writeThenRename.
  destruct (writeThenRename_cases (State.path q) (State.marshal codec states)
              (fun err => ErrWrap "write state queue: " err EmptyString)
              (fun err => ErrWrap "commit state queue: " err EmptyString) w)
    as [(e & w1 & -> & Hs) | ->].
  - exists (Some e), w1. split; [reflexivity |].
    rewrite State_Load_content
      by (rewrite (sameButTmp_faulty _ _ _ OpRead _ Hs); exact Hf).
    rewrite (sameButTmp_contentAt _ _ _ Hs).
    rewrite State_Load_content in HL by exact Hf. injection HL as ->. reflexivity.
  - eexists None, _. split; [reflexivity |].
    rewrite State_Load_content by exact Hf.
    rewrite contentAt_replaced. destruct (Hfaith states) as [-> ->]. reflexivity.
Qed.

Lemma drainStates_spec (a : Agent.Agent) (q : State.Queue)
      (report : string -> string -> S -> option error) :
  faithful codec ->
  forall (fuel : nat) (pending : list S) (w : World),
    State.Load codec q w = (Ok pending, w) ->
    (length pending < fuel)%nat ->
    exists r w' removed remaining,
      Agent.drainStates codec a q report fuel w = (Some r, w') /\
      pending = removed ++ remaining /\
      Forall (accepted a report) removed /\
      State.Load codec q w' = (Ok remaining, w') /\
      (r = None <-> remaining = []).
Proof.
  intros Hfaith. induction fuel as [|fuel IH]; intros pending w HL Hlen; [lia |].
  cbn [Agent.drainStates]. unfold bind at 1. rewrite HL.
  destruct pending as [|current rest].
  - exists None, w, [], []. unfold ret. repeat split; auto.
  - destruct (report _ _ current) as [e|] eqn:Hr.
    + exists (Some e), w, [], (current :: rest). unfold ret.
      split; [reflexivity |]. split; [reflexivity |]. split; [constructor |].
      split; [exact HL |]. split; discriminate.
    + unfold bind. unfold State.Replace.
      destruct (State_writeLocked_cases q rest (current :: rest) w Hfaith HL)
        as (r & w1 & -> & HL1).
      destruct r as [e|].
      * exists (Some e), w1, [], (current :: rest). unfold ret.
        split; [reflexivity |]. split; [reflexivity |]. split; [constructor |].
        split; [exact HL1 |]. split; discriminate.
      * simpl in Hlen.
        destruct (IH rest w1 HL1 ltac:(lia)) as (r & w' & removed & remaining & E & Hp & Hacc & HL' & Hiff).
        exists r, w', (current :: removed), remaining.
        split; [exact E |]. split; [simpl; congruence |].
        split; [constructor; [exact Hr | exact Hacc] |].
        split; [exact HL' | exact Hiff].
Qed.

End StateQueue.

(** X26.  The state report delivers in order and drops nothing.  With a
    codec that loses nothing and a readable state queue holding
    [pending], [reportState] returns (a number of passes above the length
    of the queue is enough), and when it does, the snapshots taken off the
    queue are a prefix of [pending] followed by the new snapshot, each of
    them was accepted by the backend, the rest is still in the queue in
    its order, and the report succeeded exactly when the queue is empty.
    Only when appending the new snapshot failed is that snapshot lost, and
    the queue is then as it was. *)
Theorem reportState_delivers_in_order
    {S : Type} (codec : State.Codec S) (a : Agent.Agent) (q : State.Queue)
    (Snapshot : M (result S)) (report : string -> string -> S -> option error)
    (fuel : nat) (w w0 : World) (snapshot : S) (pending : list S) :
  faithful codec ->
  Snapshot w = (Ok snapshot, w0) ->
  State.Load codec q w0 = (Ok pending, w0) ->
  (length pending + 1 < fuel)%nat ->
  exists r w' removed remaining,
    Agent.reportState codec a (Some q) Snapshot report fuel w = (Some r, w') /\
    Forall (accepted a report) removed /\
    State.Load codec q w' = (Ok remaining, w') /\
    (removed ++ remaining = pending ++ [snapshot] /\ (r = None <-> remaining = []) \/
     removed = [] /\ remaining = pending /\ r <> None).
Proof.
  intros Hfaith Hsnap HL Hlen.
  unfold Agent.reportState, bind at 1. rewrite Hsnap. cbv beta iota.
  unfold State.Append, bind.
  assert (HL0 : State.readLocked codec q w0 = (Ok pending, w0)) by exact HL.
  rewrite HL0.
  destruct (State_writeLocked_cases codec q (pending ++ [snapshot]) pending w0 Hfaith HL)
    as (r & w1 & -> & HL1).
  destruct r as [e|].
  - exists (Some (ErrWrap "persist state snapshot: " e EmptyString)), w1, [], pending.
    unfold ret. split; [reflexivity |]. split; [constructor |]. split; [exact HL1 |].
    right. split; [reflexivity |]. split; [reflexivity | discriminate].
  - destruct (drainStates_spec codec a q report Hfaith fuel (pending ++ [snapshot]) w1 HL1)
      as (r & w' & removed & remaining & E & Hp & Hacc & HL' & Hiff).
    { rewrite length_app. simpl. lia. }
    exists r, w', removed, remaining.
    split; [exact E |]. split; [exact Hacc |]. split; [exact HL' |].
    left. split; [congruence | exact Hiff].
Qed.

Lemma eventCodec_faithful : faithful eventCodec.
Proof. intros states. split; reflexivity. Qed.

(** The queue holds the snapshot [1]; the new snapshot is [2]; the
    backend takes [1] and is out of reach for [2], which stays queued. *)
Lemma reportState_delivers_in_order_witness :
  let w := hostWith {[ "/var/lib/evergreen/state.json" := Json (DocEvents [eventOne]) ]} in
  let a := rotatingAgent in
  let run := Agent.reportState eventCodec a (Some stateQueue) (ret (Ok eventTwo))
                               acceptsOne 3 w in
  (faithful eventCodec /\
   ret (Ok eventTwo) w = (Ok eventTwo, w) /\
   State.Load eventCodec stateQueue w = (Ok [eventOne], w) /\
   (length [eventOne] + 1 < 3)%nat) /\
  fst run = Some (Some timeout) /\
  fst (State.Load eventCodec stateQueue (snd run)) = Ok [eventTwo] /\
  exists r w' removed remaining,
    run = (Some r, w') /\
    Forall (accepted a acceptsOne) removed /\
    State.Load eventCodec stateQueue w' = (Ok remaining, w') /\
    (removed ++ remaining = [eventOne] ++ [eventTwo] /\ (r = None <-> remaining = []) \/
     removed = [] /\ remaining = [eventOne] /\ r <> None).
Proof.
  intros w a run.
  assert (H1 : faithful eventCodec) by exact eventCodec_faithful.
  assert (H2 : ret (Ok eventTwo) w = (Ok eventTwo, w)) by reflexivity.
  assert (H3 : State.Load eventCodec stateQueue w = (Ok [eventOne], w)).
  { rewrite State_Load_content by (vm_compute; reflexivity).
    apply (pair_eta1 (_, w) (Ok [eventOne])). vm_compute. reflexivity. }
  assert (H4 : (length [eventOne] + 1 < 3)%nat) by (simpl; lia).
  split; [split; [exact H1 | split; [exact H2 | split; [exact H3 | exact H4]]] |].
  split; [vm_compute; reflexivity |]. split; [vm_compute; reflexivity |].
  exact (reportState_delivers_in_order eventCodec a stateQueue (ret (Ok eventTwo))
           acceptsOne 3 w w eventTwo [eventOne] H1 H2 H3 H4).
Defined.

(** ** Restart *)

(** A tick that succeeded left the credentials of the agent, with the
    envelope, in the credentials file. *)
Lemma tick_persists_credentials (a a' : Agent.Agent) (envelope : PolicyEnvelope)
      (w w' : World) :
  (forall token version, Agent.PullPolicy (Agent.client a) token version = Ok envelope) ->
  Agent.pullAndApplyPolicy a w = (None, a', w') ->
  Agent.enrollManager a' = Agent.enrollManager a /\
  contentAt (Enroll.credentialsPath (Agent.enrollManager a)) w'
  = Some (Json (DocStored (Agent.credentials a') envelope)).
Proof.
  intros Hpull. unfold Agent.pullAndApplyPolicy, bind.
  match goal with
  | |- context [let '(x, y) := ?c w in _] => destruct (c w) as [version w0]
  end.
  rewrite Hpull.
  destruct (Policy.Apply (Agent.policyManager a) envelope w0) as [[[events err] pm] w1].
  destruct (Agent.appendEvents _ events w1) as [[] w2].
  destruct err as [e|]; [unfold ret; discriminate |].
  cbn [Agent.enrollManager Agent.set_credentials Agent.credentials].
  rewrite enrollManager_if. cbn [Agent.enrollManager Agent.set_policyManager].
  match goal with
  | |- context [Enroll.Persist ?m ?c ?e ?w3] =>
      destruct (Persist_cases m c e w3) as [(e0 & w4 & -> & _) | ->]
  end; unfold ret; intros H; [discriminate H |].
  injection H as <- <-.
  cbn [Agent.enrollManager Agent.set_credentials Agent.credentials].
  rewrite enrollManager_if. cbn [Agent.enrollManager Agent.set_policyManager].
  split; [reflexivity | apply contentAt_replaced].
Qed.

Lemma Events_Load_world (q : Events.Queue) (w : World) : snd (Events.Load q w) = w.
Proof. rewrite Load_readLocked. apply readLocked_world. Qed.

(** X27.  What a tick persisted survives a restart.  After a policy tick
    that succeeded, a new process with the same enrollment manager finds,
    in the credentials file, the credentials the agent ended the tick
    with -- a rotated token included -- and the applied envelope, without
    the backend; [Run] applies that envelope again before the loops start
    and either fails with the error of the reconcile, wrapped as the
    initial policy's, or hands the loops an agent with those credentials. *)
Theorem tick_survives_restart
    (a a' b : Agent.Agent) (o : Enroll.Outside) (envelope : PolicyEnvelope)
    (w w' : World) :
  (forall token version, Agent.PullPolicy (Agent.client a) token version = Ok envelope) ->
  Agent.pullAndApplyPolicy a w = (None, a', w') ->
  Host.faulty OpRead (Enroll.credentialsPath (Agent.enrollManager a)) w' = false ->
  cred_DeviceToken (Agent.credentials a') <> EmptyString ->
  Agent.enrollManager b = Agent.enrollManager a ->
  Enroll.EnsureEnrollment (Agent.enrollManager b) o w'
  = (Ok (Agent.credentials a', envelope), w') /\
  exists r w'',
    Agent.Run b o w' = (r, w'') /\
    match r with
    | Ok b' => Agent.credentials b' = Agent.credentials a'
    | Fail e => exists cause, e = ErrWrap "apply initial policy: " cause EmptyString
    end.
Proof.
  intros Hpull Htick Hread Htok Hb.
  destruct (tick_persists_credentials a a' envelope w w' Hpull Htick) as [_ Hc].
  assert (HE : Enroll.EnsureEnrollment (Agent.enrollManager b) o w'
               = (Ok (Agent.credentials a', envelope), w')).
  { rewrite Hb. apply EnsureEnrollment_stored; assumption. }
  split; [exact HE |].
  unfold Agent.Run, bind at 1. rewrite HE. cbv beta iota zeta.
  destruct (isEmpty (env_Version envelope)); cbn [negb].
  - unfold bind, ret.
    pose proof (Events_Load_world (Agent.eventQueue (Agent.set_credentials
                                                      (Agent.credentials a') b)) w') as Hw.
    destruct (Events.Load _ w') as [l w0]. simpl in Hw. subst w0.
    eexists (Ok _), _. split; [reflexivity | reflexivity].
  - unfold bind, ret.
    destruct (Policy.Apply _ envelope w') as [[[events err] pm] w1].
    destruct (Agent.appendEvents _ events w1) as [[] w2].
    destruct err as [e|].
    + eexists (Fail _), _. split; [reflexivity | eauto].
    + destruct (Events.Load _ w2) as [l w3].
      eexists (Ok _), _. split; [reflexivity | reflexivity].
Qed.

Lemma tick_survives_restart_witness :
  let a := rotatingAgent in
  let w := rebootPendingWorld in
  let a' := snd (fst (Agent.pullAndApplyPolicy a w)) in
  let w' := snd (Agent.pullAndApplyPolicy a w) in
  let b := rotatingAgent in
  let o := outside false in
  ((forall token version, Agent.PullPolicy (Agent.client a) token version = Ok envelopeV2) /\
   Agent.pullAndApplyPolicy a w = (None, a', w') /\
   Host.faulty OpRead (Enroll.credentialsPath (Agent.enrollManager a)) w' = false /\
   cred_DeviceToken (Agent.credentials a') <> EmptyString /\
   Agent.enrollManager b = Agent.enrollManager a) /\
  Agent.credentials a' = mkCredentials "d1" "t2" "v2" /\
  Enroll.EnsureEnrollment (Agent.enrollManager b) o w'
  = (Ok (Agent.credentials a', envelopeV2), w') /\
  exists r w'',
    Agent.Run b o w' = (r, w'') /\
    match r with
    | Ok b' => Agent.credentials b' = Agent.credentials a'
    | Fail e => exists cause, e = ErrWrap "apply initial policy: " cause EmptyString
    end.
Proof.
  intros a w a' w' b o.
  assert (H1 : forall token version,
             Agent.PullPolicy (Agent.client a) token version = Ok envelopeV2)
    by (intros; reflexivity).
  assert (H2 : Agent.pullAndApplyPolicy a w = (None, a', w'))
    by (apply (pair_eta_l (Agent.pullAndApplyPolicy a w) None); vm_compute; reflexivity).
  assert (H3 : Host.faulty OpRead (Enroll.credentialsPath (Agent.enrollManager a)) w'
               = false) by (vm_compute; reflexivity).
  assert (H4 : Agent.credentials a' = mkCredentials "d1" "t2" "v2")
    by (vm_compute; reflexivity).
  assert (H5 : cred_DeviceToken (Agent.credentials a') <> EmptyString)
    by (rewrite H4; discriminate).
  assert (H6 : Agent.enrollManager b = Agent.enrollManager a) by reflexivity.
  split; [split; [exact H1 | split; [exact H2 | split; [exact H3 | split;
           [exact H5 | exact H6]]]] |].
  split; [exact H4 |].
  exact (tick_survives_restart a a' b o envelopeV2 w w' H1 H2 H3 H5 H6).
Defined.

(** ** Attestation *)

Lemma hashPCRs_empty (t : Attestation.Tpm) : Attestation.hashPCRs t ∅ = EmptyString.
Proof. unfold Attestation.hashPCRs. rewrite bool_decide_eq_true_2; reflexivity. Qed.

(** X28.  An attestation is submitted only when the PCRs changed.  On a
    host with a TPM, when the manager is ready and the TPM delivers an
    attestation: if the digest of its PCRs is the digest last submitted,
    [Attest] submits nothing, returns no event and records the time of
    the attempt; otherwise it submits the evidence, and on acceptance
    records the digest and the time and returns
    [attestation.boot.success], while on refusal it returns the error
    with [attestation.boot.failure] and records nothing, so that the next
    call tries again.  An attestation without PCRs has the empty digest,
    which is the digest of a manager that never submitted: it is never
    submitted by a new manager. *)
Theorem Attest_submits_only_changes
    (m m1 : Attestation.Manager) (t : Attestation.Tpm)
    (boot : string -> Attestation.AttestBootRequest -> option error)
    (token deviceID akPublic nonce : string) (att : Attestation.PlatformParameters)
    (w : World) :
  Attestation.hasTPM w = (true, w) ->
  Attestation.ready m (fst (Host.Now w)) = (true, m1) ->
  Attestation.OpenTPM t = Attestation.Opened ->
  Attestation.NewAK t = Ok akPublic ->
  Attestation.rand_Read t = Ok nonce ->
  Attestation.AttestPlatform t nonce = Ok att ->
  let now := fst (Host.Now w) in
  (Attestation.att_PCRs att = [] -> digestOf t att = EmptyString) /\
  exists events err m' w',
    Attestation.Attest m t boot token deviceID w = (events, err, m', w') /\
    if String.eqb (digestOf t att) (Attestation.lastDigest m)
    then events = [] /\ err = None /\
         Attestation.lastDigest m' = Attestation.lastDigest m /\
         Attestation.lastAttempt m' = Some now
    else
      match boot token (attestRequest deviceID nonce akPublic att) with
      | Some e =>
          map describe events = [("attestation.boot.failure", [("error", GoErrors.Error e)])] /\
          err = Some e /\
          Attestation.lastDigest m' = Attestation.lastDigest m /\
          Attestation.lastAttempt m' = Attestation.lastAttempt m
      | None =>
          map describe events
          = [("attestation.boot.success",
              [("nonce", nonce);
               ("quote_count", Itoa (Z.of_nat (length (Attestation.att_Quotes att))))])] /\
          err = None /\
          Attestation.lastDigest m' = digestOf t att /\
          Attestation.lastAttempt m' = Some now
      end.
Proof.
  intros Htpm Hready Hopen Hak Hrand Hatt now.
  split.
  { intros Hp. unfold digestOf. rewrite Hp. apply hashPCRs_empty. }
  assert (Hm1 : Attestation.lastDigest m1 = Attestation.lastDigest m /\
                Attestation.lastAttempt m1 = Attestation.lastAttempt m).
  { unfold Attestation.ready in Hready.
    destruct (Attestation.lastAttempt m) as [last|] eqn:El.
    - cbv zeta in Hready. destruct (Attestation.minInterval m <=? 0);
        injection Hready as _ <-; simpl; auto.
    - injection Hready as <-. auto. }
  destruct Hm1 as [Hd Hl].
  unfold Attestation.Attest, bind at 1. rewrite Htpm. cbn [negb]. cbv beta iota.
  unfold bind at 1. unfold Host.Now at 1. cbv beta iota.
  unfold Host.Now in Hready. simpl fst in Hready.
  rewrite Hready. cbn [negb]. cbv beta iota.
  rewrite Hopen, Hak, Hrand, Hatt. cbv zeta.
  fold (digestOf t att). fold (attestRequest deviceID nonce akPublic att).
  rewrite Hd.
  destruct (String.eqb (digestOf t att) (Attestation.lastDigest m)).
  - unfold ret. eexists _, _, _, _. split; [reflexivity |]. simpl. auto.
  - destruct (boot token (attestRequest deviceID nonce akPublic att)) as [e|].
    + unfold bind, ret. rewrite NewEvent_spec.
      eexists _, _, _, _. split; [reflexivity |]. simpl. auto.
    + unfold bind, ret. rewrite NewEvent_spec.
      eexists _, _, _, _. split; [reflexivity |]. simpl. auto.
Qed.

Lemma Attest_submits_only_changes_witness :
  let m := Attestation.NewManager in
  let t := tpmWith bootPCRs in
  let boot : string -> Attestation.AttestBootRequest -> option error :=
    fun _ _ => None in
  let att := Attestation.mkPlatformParameters bootPCRs
               [Attestation.mkQuote "2.0" "cQ==" "cw=="] in
  let now := fst (Host.Now tpmWorld) in
  (Attestation.hasTPM tpmWorld = (true, tpmWorld) /\
   Attestation.ready m now = (true, m) /\
   Attestation.OpenTPM t = Attestation.Opened /\
   Attestation.NewAK t = Ok "YWs=" /\
   Attestation.rand_Read t = Ok "bm9uY2U=" /\
   Attestation.AttestPlatform t "bm9uY2U=" = Ok att) /\
  digestOf t att = "0=00;7=aa;" /\
  (Attestation.att_PCRs att = [] -> digestOf t att = EmptyString) /\
  exists events err m' w',
    Attestation.Attest m t boot "t1" "d1" tpmWorld = (events, err, m', w') /\
    if String.eqb (digestOf t att) (Attestation.lastDigest m)
    then events = [] /\ err = None /\
         Attestation.lastDigest m' = Attestation.lastDigest m /\
         Attestation.lastAttempt m' = Some now
    else
      match boot "t1" (attestRequest "d1" "bm9uY2U=" "YWs=" att) with
      | Some e =>
          map describe events = [("attestation.boot.failure", [("error", GoErrors.Error e)])] /\
          err = Some e /\
          Attestation.lastDigest m' = Attestation.lastDigest m /\
          Attestation.lastAttempt m' = Attestation.lastAttempt m
      | None =>
          map describe events
          = [("attestation.boot.success",
              [("nonce", "bm9uY2U=");
               ("quote_count", Itoa (Z.of_nat (length (Attestation.att_Quotes att))))])] /\
          err = None /\
          Attestation.lastDigest m' = digestOf t att /\
          Attestation.lastAttempt m' = Some now
      end.
Proof.
  intros m t boot att now.
  assert (H1 : Attestation.hasTPM tpmWorld = (true, tpmWorld))
    by (apply (pair_eta1 (Attestation.hasTPM tpmWorld) true); vm_compute; reflexivity).
  assert (H2 : Attestation.ready m now = (true, m)) by reflexivity.
  assert (H3 : Attestation.OpenTPM t = Attestation.Opened) by reflexivity.
  assert (H4 : Attestation.NewAK t = Ok "YWs=") by reflexivity.
  assert (H5 : Attestation.rand_Read t = Ok "bm9uY2U=") by reflexivity.
  assert (H6 : Attestation.AttestPlatform t "bm9uY2U=" = Ok att) by reflexivity.
  split; [split; [exact H1 | split; [exact H2 | split; [exact H3 | split; [exact H4 |
           split; [exact H5 | exact H6]]]]] |].
  split; [vm_compute; reflexivity |].
  exact (Attest_submits_only_changes m m t boot "t1" "d1" "YWs=" "bm9uY2U=" att tpmWorld
           H1 H2 H3 H4 H5 H6).
Defined.

(** X29.  Attempts are spaced.  On a host with a TPM, a manager that
    recorded an attempt less than its minimum interval ago does nothing:
    [Attest] returns no event and no error and leaves the manager as it
    is, whatever the TPM and the backend would answer.  An interval that
    is not positive counts as one hour. *)
Theorem Attest_waits_for_interval
    (m : Attestation.Manager) (t : Attestation.Tpm)
    (boot : string -> Attestation.AttestBootRequest -> option error)
    (token deviceID : string) (last : Time) (w : World) :
  Attestation.hasTPM w = (true, w) ->
  Attestation.lastAttempt m = Some last ->
  Attestation.Sub (fst (Host.Now w)) last
  < (if Attestation.minInterval m <=? 0 then GoTime.Hour else Attestation.minInterval m) ->
  exists m',
    Attestation.Attest m t boot token deviceID w = ([], None, m', snd (Host.Now w)) /\
    Attestation.lastDigest m' = Attestation.lastDigest m /\
    Attestation.lastAttempt m' = Attestation.lastAttempt m /\
    Attestation.minInterval m'
    = (if Attestation.minInterval m <=? 0 then GoTime.Hour else Attestation.minInterval m).
Proof.
  intros Htpm Hlast Hsoon.
  unfold Attestation.Attest, bind at 1. rewrite Htpm. cbn [negb]. cbv beta iota.
  unfold bind at 1. unfold Host.Now at 1. cbv beta iota.
  unfold Host.Now in Hsoon. simpl fst in Hsoon.
  unfold Attestation.ready. rewrite Hlast. cbv zeta.
  destruct (Attestation.minInterval m <=? 0) eqn:Ei.
  - cbn [Attestation.minInterval].
    assert (Hn : (GoTime.Hour <=? Attestation.Sub (mkTime (w_clock w (w_ticks w)) (w_zone w))
                                                  last) = false)
      by (apply Z.leb_gt; exact Hsoon).
    rewrite Hn. cbn [negb]. unfold ret.
    eexists. split; [reflexivity |]. simpl. auto.
  - assert (Hn : (Attestation.minInterval m
                  <=? Attestation.Sub (mkTime (w_clock w (w_ticks w)) (w_zone w)) last)
                 = false)
      by (apply Z.leb_gt; exact Hsoon).
    rewrite Hn. cbn [negb]. unfold ret.
    eexists. split; [reflexivity |]. auto.
Qed.

Lemma Attest_waits_for_interval_witness :
  let last := GoTime.Date 2024 1 1 3 30 0 in
  let m := Attestation.mkManager "0=00;7=aa;" (Some last) 0 in
  let boot : string -> Attestation.AttestBootRequest -> option error :=
    fun _ _ => None in
  (Attestation.hasTPM tpmWorld = (true, tpmWorld) /\
   Attestation.lastAttempt m = Some last /\
   Attestation.Sub (fst (Host.Now tpmWorld)) last
   < (if Attestation.minInterval m <=? 0 then GoTime.Hour else Attestation.minInterval m)) /\
  Attestation.Sub (fst (Host.Now tpmWorld)) last = 30 * GoTime.Minute /\
  exists m',
    Attestation.Attest m (tpmWith []) boot "t1" "d1" tpmWorld
    = ([], None, m', snd (Host.Now tpmWorld)) /\
    Attestation.lastDigest m' = Attestation.lastDigest m /\
    Attestation.lastAttempt m' = Attestation.lastAttempt m /\
    Attestation.minInterval m'
    = (if Attestation.minInterval m <=? 0 then GoTime.Hour else Attestation.minInterval m).
Proof.
  intros last m boot.
  assert (H1 : Attestation.hasTPM tpmWorld = (true, tpmWorld))
    by (apply (pair_eta1 (Attestation.hasTPM tpmWorld) true); vm_compute; reflexivity).
  assert (H2 : Attestation.lastAttempt m = Some last) by reflexivity.
  assert (H3 : Attestation.Sub (fst (Host.Now tpmWorld)) last
               < (if Attestation.minInterval m <=? 0 then GoTime.Hour
                  else Attestation.minInterval m)) by (vm_compute; reflexivity).
  split; [split; [exact H1 | split; [exact H2 | exact H3]] |].
  split; [vm_compute; reflexivity |].
  exact (Attest_waits_for_interval m (tpmWith []) boot "t1" "d1" last tpmWorld H1 H2 H3).
Defined.

(** ** The application reconciler *)

Lemma find_snoc {A : Type} (p : A -> bool) (l : list A) (a : A) :
  List.find p (l ++ [a])
  = match List.find p l with
    | Some d => Some d
    | None => if p a then Some a else None
    end.
Proof.
  induction l as [|x l IH]; simpl; [reflexivity |].
  destruct (p x); [reflexivity | exact IH].
Qed.

(** A Go map filled from a list by [m[key(v)] = v]: the entry of [id] is
    the last element of the list with that key. *)
Lemma index_lookup {V : Type} (key : V -> string) (l : list V)
    (m : gmap string V) (id : string) :
  foldl (fun m v => <[key v := v]> m) m l !! id
  = match List.find (fun v => String.eqb (key v) id) (rev l) with
    | Some v => Some v
    | None => m !! id
    end.
Proof.
  revert m. induction l as [|a l IH]; intros m; simpl; [reflexivity |].
  rewrite IH, find_snoc.
  destruct (List.find _ (rev l)); [reflexivity |].
  destruct (String.eqb (key a) id) eqn:E.
  - apply String.eqb_eq in E. subst id. apply lookup_insert_eq.
  - apply String.eqb_neq in E. apply lookup_insert_ne. exact E.
Qed.

Lemma index_lookup_empty {V : Type} (key : V -> string) (l : list V) (id : string) :
  foldl (fun m v => <[key v := v]> m) (∅ : gmap string V) l !! id
  = List.find (fun v => String.eqb (key v) id) (rev l).
Proof.
  rewrite index_lookup. destruct (List.find _ _); [reflexivity | apply lookup_empty].
Qed.

Lemma index_key {V : Type} (key : V -> string) (l : list V) (id : string) (v : V) :
  foldl (fun m v => <[key v := v]> m) (∅ : gmap string V) l !! id = Some v ->
  key v = id.
Proof.
  rewrite index_lookup_empty. intros H.
  apply List.find_some in H. destruct H as [_ H].
  apply String.eqb_eq in H. exact H.
Qed.

Lemma absent_iff {V : Type} (m : gmap string V) (id : string) :
  absent m id = true <-> m !! id = None.
Proof. unfold absent. destruct (m !! id); split; congruence. Qed.

Lemma absent_index {V : Type} (key : V -> string) (l : list V) (id : string) :
  absent (foldl (fun m v => <[key v := v]> m) (∅ : gmap string V) l) id = true
  <-> id ∉ map key l.
Proof.
  rewrite absent_iff, index_lookup_empty. split.
  - intros Hn Hin. apply list_elem_of_In in Hin. apply List.in_map_iff in Hin.
    destruct Hin as (v & Hk & Hv).
    apply List.in_rev in Hv.
    pose proof (List.find_none _ _ Hn v Hv) as Hf.
    apply String.eqb_neq in Hf. contradiction.
  - intros Hn. destruct (List.find _ _) as [v|] eqn:Ef; [| reflexivity].
    exfalso. apply Hn. apply List.find_some in Ef. destruct Ef as [Hin He].
    apply String.eqb_eq in He. apply list_elem_of_In. apply List.in_map_iff.
    exists v. split; [exact He | apply List.in_rev; exact Hin].
Qed.

Lemma NoDup_map_filter {A B : Type} (f : A -> B) (p : A -> bool) (l : list A) :
  NoDup (map f l) -> NoDup (map f (List.filter p l)).
Proof.
  induction l as [|a l IH]; simpl; intros H; [exact H |].
  inversion H as [| ? ? Hn Hd]; subst.
  destruct (p a); simpl; [| exact (IH Hd)].
  constructor; [| exact (IH Hd)].
  intros Hin. apply Hn.
  apply list_elem_of_In in Hin. apply list_elem_of_In.
  apply List.in_map_iff in Hin. destruct Hin as (x & Hx & Hin).
  apply List.filter_In in Hin. destruct Hin as [Hin _].
  apply List.in_map_iff. exists x. split; assumption.
Qed.

Lemma NoDup_list_filter {A : Type} (p : A -> bool) (l : list A) :
  NoDup l -> NoDup (List.filter p l).
Proof.
  intros H. rewrite <- (List.map_id (List.filter p l)).
  apply NoDup_map_filter. rewrite List.map_id. exact H.
Qed.

Lemma ListInstalled_ok (w : World) (installed : list Apps.InstalledApp) :
  fst (Apps.ListInstalled w) = (installed, None) ->
  "flatpak" ∈ w_bins w /\
  Apps.ListInstalled w
  = (installed, None, set_trace (w_trace w ++ [EffExec Apps.listArgv]) w).
Proof.
  unfold Apps.ListInstalled, bind, Host.LookPath.
  destruct (bool_decide ("flatpak" ∈ w_bins w)) eqn:E; [| simpl; discriminate].
  apply bool_decide_eq_true in E. unfold Host.Run. cbv beta iota.
  destruct (cr_err _); [simpl; discriminate |].
  destruct (Apps.scanLines _) as [lines err]. unfold ret. simpl.
  intros H. split; [exact E |]. rewrite H. reflexivity.
Qed.

Lemma installFlatpak_cases (def : AppDefinition) (w : World) :
  "flatpak" ∈ w_bins w ->
  exists r,
    Apps.installFlatpak def w
    = (r, if named def then set_trace (w_trace w ++ [installCmd def]) w else w).
Proof.
  intros Hb. unfold Apps.installFlatpak, named.
  destruct (isEmpty (app_ID def)); simpl; [eexists; reflexivity |].
  unfold bind, Host.LookPath. rewrite (bool_decide_eq_true_2 _ Hb).
  unfold Host.Run. cbv beta iota.
  destruct (cr_err _); eexists; reflexivity.
Qed.

Lemma removeFlatpak_cases (id : string) (w : World) :
  "flatpak" ∈ w_bins w ->
  exists r,
    Apps.removeFlatpak id w = (r, set_trace (w_trace w ++ [uninstallCmd id]) w).
Proof.
  intros Hb. unfold Apps.removeFlatpak.
  unfold bind, Host.LookPath. rewrite (bool_decide_eq_true_2 _ Hb).
  unfold Host.Run. cbv beta iota.
  destruct (cr_err _); eexists; reflexivity.
Qed.

Lemma installMissing_spec (installedSet : gmap string Apps.InstalledApp)
    (entries : list (string * AppDefinition)) :
  List.Forall (fun kv => app_ID (snd kv) = fst kv) entries ->
  forall generated w, "flatpak" ∈ w_bins w ->
  exists evs w',
    Apps.installMissing installedSet entries generated w = (generated ++ evs, w') /\
    map appOf evs
    = map fst (List.filter (fun kv => absent installedSet (fst kv)) entries) /\
    w_trace w'
    = w_trace w
      ++ map installCmd
           (List.filter named
              (map snd (List.filter (fun kv => absent installedSet (fst kv)) entries))) /\
    w_bins w' = w_bins w /\ w_files w' = w_files w.
Proof.
  induction entries as [| [id def] rest IH]; intros Hinv generated w Hb.
  - exists [], w. simpl. unfold ret. rewrite !app_nil_r. auto.
  - inversion Hinv as [| ? ? Hid Hrest]; subst. simpl in Hid.
    cbn [Apps.installMissing List.filter fst].
    destruct (installedSet !! id) eqn:Ei.
    + assert (Ha : absent installedSet id = false) by (unfold absent; rewrite Ei; reflexivity).
      rewrite Ha. exact (IH Hrest generated w Hb).
    + assert (Ha' : absent installedSet id = true) by (unfold absent; rewrite Ei; reflexivity).
      rewrite Ha'. cbn [map fst snd]. unfold bind at 1.
      destruct (installFlatpak_cases def w Hb) as [r Hr]. rewrite Hr.
      set (w1 := if named def then set_trace (w_trace w ++ [installCmd def]) w else w).
      assert (Hb1 : "flatpak" ∈ w_bins w1) by (unfold w1; destruct (named def); exact Hb).
      assert (Hf1 : w_files w1 = w_files w) by (unfold w1; destruct (named def); reflexivity).
      assert (Hbb : w_bins w1 = w_bins w) by (unfold w1; destruct (named def); reflexivity).
      assert (Ht1 : forall tail,
                 w_trace w1 ++ map installCmd (List.filter named tail)
                 = w_trace w
                   ++ map installCmd (List.filter named (def :: tail))).
      { intros tail. unfold w1. cbn [List.filter]. destruct (named def); simpl.
        - rewrite <- app_assoc. reflexivity.
        - reflexivity. }
      assert (Hstep : forall ty pl,
                 appOf (fst (Events.NewEvent ty (("app", id) :: pl) w1)) = id)
        by (intros; rewrite NewEvent_spec; reflexivity).
      destruct r as [err |]; cbv beta iota; unfold bind at 1.
      * pose proof (Hstep "app.install.failure" [("error", GoErrors.Error err)]) as Ha.
        rewrite NewEvent_spec in *. cbn [fst] in Ha.
        match goal with
        | |- context [Apps.installMissing _ _ (generated ++ [?ev]) ?w2] =>
            destruct (IH Hrest (generated ++ [ev]) w2) as (evs & w' & He & Hm & Ht & Hbw & Hfw);
              [exact Hb1 |];
              exists (ev :: evs), w'
        end.
        rewrite He, <- app_assoc. split; [reflexivity |].
        cbn [map]. rewrite Ha, Hm. split; [reflexivity |].
        rewrite Ht. cbn [w_trace set_ticks]. rewrite Ht1.
        split; [reflexivity |]. rewrite Hbw, Hfw. auto.
      * pose proof (Hstep "app.install.success" []) as Ha.
        rewrite NewEvent_spec in *. cbn [fst] in Ha.
        match goal with
        | |- context [Apps.installMissing _ _ (generated ++ [?ev]) ?w2] =>
            destruct (IH Hrest (generated ++ [ev]) w2) as (evs & w' & He & Hm & Ht & Hbw & Hfw);
              [exact Hb1 |];
              exists (ev :: evs), w'
        end.
        rewrite He, <- app_assoc. split; [reflexivity |].
        cbn [map]. rewrite Ha, Hm. split; [reflexivity |].
        rewrite Ht. cbn [w_trace set_ticks]. rewrite Ht1.
        split; [reflexivity |]. rewrite Hbw, Hfw. auto.
Qed.

Lemma removeExtra_spec (desired : gmap string AppDefinition) (ids : list string) :
  forall generated w, "flatpak" ∈ w_bins w ->
  exists evs w',
    Apps.removeExtra desired ids generated w = (generated ++ evs, w') /\
    map appOf evs = List.filter (absent desired) ids /\
    w_trace w' = w_trace w ++ map uninstallCmd (List.filter (absent desired) ids) /\
    w_bins w' = w_bins w /\ w_files w' = w_files w.
Proof.
  induction ids as [| id rest IH]; intros generated w Hb.
  - exists [], w. simpl. unfold ret. rewrite !app_nil_r. auto.
  - cbn [Apps.removeExtra List.filter].
    destruct (desired !! id) eqn:Ei.
    + assert (Ha : absent desired id = false) by (unfold absent; rewrite Ei; reflexivity).
      rewrite Ha. exact (IH generated w Hb).
    + assert (Ha' : absent desired id = true) by (unfold absent; rewrite Ei; reflexivity).
      rewrite Ha'. cbn [map]. unfold bind at 1.
      destruct (removeFlatpak_cases id w Hb) as [r Hr]. rewrite Hr.
      set (w1 := set_trace (w_trace w ++ [uninstallCmd id]) w).
      assert (Hstep : forall ty pl,
                 appOf (fst (Events.NewEvent ty (("app", id) :: pl) w1)) = id)
        by (intros; rewrite NewEvent_spec; reflexivity).
      destruct r as [err |]; cbv beta iota; unfold bind at 1.
      * pose proof (Hstep "app.remove.failure" [("error", GoErrors.Error err)]) as Ha.
        rewrite NewEvent_spec in *. cbn [fst] in Ha.
        match goal with
        | |- context [Apps.removeExtra _ _ (generated ++ [?ev]) ?w2] =>
            destruct (IH (generated ++ [ev]) w2) as (evs & w' & He & Hm & Ht & Hbw & Hfw);
              [exact Hb |];
              exists (ev :: evs), w'
        end.
        rewrite He, <- app_assoc. split; [reflexivity |].
        cbn [map]. rewrite Ha, Hm. split; [reflexivity |].
        rewrite Ht. cbn [w_trace set_ticks set_trace w1]. rewrite <- app_assoc.
        split; [reflexivity |]. rewrite Hbw, Hfw. auto.
      * pose proof (Hstep "app.remove.success" []) as Ha.
        rewrite NewEvent_spec in *. cbn [fst] in Ha.
        match goal with
        | |- context [Apps.removeExtra _ _ (generated ++ [?ev]) ?w2] =>
            destruct (IH (generated ++ [ev]) w2) as (evs & w' & He & Hm & Ht & Hbw & Hfw);
              [exact Hb |];
              exists (ev :: evs), w'
        end.
        rewrite He, <- app_assoc. split; [reflexivity |].
        cbn [map]. rewrite Ha, Hm. split; [reflexivity |].
        rewrite Ht. cbn [w_trace set_ticks set_trace w1]. rewrite <- app_assoc.
        split; [reflexivity |]. rewrite Hbw, Hfw. auto.
Qed.

(** X30.  When the listing of the installed applications succeeds,
    [Apps.Apply] returns no error, whatever the commands it runs answer
    and in whatever order the runtime visits its maps.  After the listing
    it asks Flatpak to install the required applications that are not
    installed and then to uninstall the installed applications that are
    not required, each once and nothing else; for a required application
    without id it runs no command.  Of several entries for one
    application the last counts.  There is one event for each of these
    applications, in the order of the commands, and no file changes. *)
Theorem Apps_Apply_reconciles
    (order : forall V : Type, list (string * V) -> list (string * V))
    (policy : AppsPolicy) (installed : list Apps.InstalledApp) (w : World) :
  (forall (V : Type) (l : list (string * V)), order V l ≡ₚ l) ->
  fst (Apps.ListInstalled w) = (installed, None) ->
  exists (missing : list AppDefinition) (extra : list string)
         (evs : list Event) (w' : World),
    Apps.Apply order policy w = (evs, None, w') /\
    NoDup (map app_ID missing) /\
    NoDup extra /\
    (forall d, d ∈ missing <->
       requiredAs policy (app_ID d) = Some d /\
       (app_ID d ∉ map Apps.ia_ID installed)) /\
    (forall id, id ∈ extra <->
       id ∈ map Apps.ia_ID installed /\ requiredAs policy id = None) /\
    map appOf evs = map app_ID missing ++ extra /\
    w_trace w'
    = w_trace w
      ++ EffExec Apps.listArgv
         :: map installCmd (List.filter named missing) ++ map uninstallCmd extra /\
    w_files w' = w_files w.
Proof.
  intros Hperm Hlist.
  destruct (ListInstalled_ok w installed Hlist) as [Hb Hl].
  pose (desired := foldl (fun m app => <[app_ID app := app]> m)
                         (∅ : gmap string AppDefinition) (Required policy)).
  pose (installedSet := foldl (fun m app => <[Apps.ia_ID app := app]> m)
                              (∅ : gmap string Apps.InstalledApp) installed).
  pose (es := order _ (map_to_list desired)).
  pose (ids := map fst (order _ (map_to_list installedSet))).
  assert (Hes : forall id d, In (id, d) es <-> desired !! id = Some d).
  { intros id d. unfold es. rewrite <- list_elem_of_In, (Hperm _ _).
    apply elem_of_map_to_list. }
  assert (Hinv : List.Forall (fun kv => app_ID (snd kv) = fst kv) es).
  { apply List.Forall_forall. intros [id d] Hin. apply Hes in Hin.
    exact (index_key app_ID _ _ _ Hin). }
  assert (Hids : forall id, In id ids <-> absent installedSet id = false).
  { intros id. unfold ids. rewrite List.in_map_iff. split.
    - intros ([id' v] & Hk & Hin). simpl in Hk. subst id'.
      apply list_elem_of_In in Hin. rewrite (Hperm _ _) in Hin.
      apply elem_of_map_to_list in Hin. unfold absent. rewrite Hin. reflexivity.
    - unfold absent. destruct (installedSet !! id) as [v |] eqn:Ev; [| discriminate].
      intros _. exists (id, v). split; [reflexivity |].
      apply list_elem_of_In. rewrite (Hperm _ _). apply elem_of_map_to_list. exact Ev. }
  assert (Hw1 : "flatpak" ∈ w_bins (set_trace (w_trace w ++ [EffExec Apps.listArgv]) w))
    by exact Hb.
  destruct (installMissing_spec installedSet es Hinv [] _ Hw1)
    as (evs1 & w2 & He1 & Hm1 & Ht1 & Hb1 & Hf1).
  assert (Hw2 : "flatpak" ∈ w_bins w2) by (rewrite Hb1; exact Hb).
  destruct (removeExtra_spec desired ids ([] ++ evs1) w2 Hw2)
    as (evs2 & w3 & He2 & Hm2 & Ht2 & Hb2 & Hf2).
  exists (map snd (List.filter (fun kv => absent installedSet (fst kv)) es)),
         (List.filter (absent desired) ids), (evs1 ++ evs2), w3.
  assert (Hfst : map app_ID (map snd (List.filter (fun kv => absent installedSet (fst kv)) es))
                 = map fst (List.filter (fun kv => absent installedSet (fst kv)) es)).
  { rewrite List.map_map. apply List.map_ext_in. intros kv Hin.
    apply List.filter_In in Hin. destruct Hin as [Hin _].
    exact (proj1 (List.Forall_forall _ _) Hinv kv Hin). }
  split.
  { unfold Apps.Apply, bind at 1. rewrite Hl. cbv beta iota zeta.
    unfold bind at 1. fold desired. fold installedSet. fold es. fold ids.
    rewrite He1. cbv beta iota. unfold bind at 1. rewrite He2. reflexivity. }
  split.
  { rewrite Hfst. apply NoDup_map_filter.
    unfold es. rewrite (Hperm _ (map_to_list desired)).
    exact (NoDup_fst_map_to_list desired). }
  split.
  { apply NoDup_list_filter. unfold ids.
    rewrite (Hperm _ (map_to_list installedSet)).
    exact (NoDup_fst_map_to_list installedSet). }
  split.
  { intros d. rewrite <- (absent_index Apps.ia_ID installed (app_ID d)).
    fold installedSet. unfold requiredAs.
    rewrite <- (index_lookup_empty app_ID (Required policy) (app_ID d)).
    fold desired. rewrite list_elem_of_In, List.in_map_iff. split.
    - intros ([id d'] & Hd & Hin). simpl in Hd. subst d'.
      apply List.filter_In in Hin. destruct Hin as [Hin Ha]. simpl in Ha.
      apply Hes in Hin. pose proof (index_key app_ID _ _ _ Hin) as Hk.
      rewrite Hk. split; assumption.
    - intros [Hd Ha]. exists (app_ID d, d). split; [reflexivity |].
      apply List.filter_In. split; [apply Hes; exact Hd | exact Ha]. }
  split.
  { intros id. rewrite (list_elem_of_In (List.filter (absent desired) ids)), List.filter_In, Hids.
    rewrite absent_iff. unfold requiredAs.
    rewrite <- (index_lookup_empty app_ID (Required policy) id). fold desired.
    pose proof (absent_index Apps.ia_ID installed id) as Hai. fold installedSet in Hai.
    split; intros [H1 H2]; (split; [| exact H2]).
    - destruct (decide (id ∈ map Apps.ia_ID installed)) as [Hin | Hn]; [exact Hin |].
      apply Hai in Hn. congruence.
    - destruct (absent installedSet id) eqn:Ea; [| reflexivity].
      exfalso. exact (proj1 Hai eq_refl H1). }
  split.
  { rewrite List.map_app, Hm1, Hm2, Hfst. reflexivity. }
  split.
  { rewrite Ht2, Ht1. cbn [w_trace set_trace]. rewrite <- !app_assoc. reflexivity. }
  rewrite Hf2, Hf1. reflexivity.
Qed.

Lemma Apps_Apply_reconciles_witness :
  let w := flatpakWorld listingAB in
  let installed := [Apps.mkInstalledApp "org.a" "abc" "stable";
                    Apps.mkInstalledApp "org.b" "def" "stable"] in
  ((forall (V : Type) (l : list (string * V)), inListingOrder V l ≡ₚ l) /\
   fst (Apps.ListInstalled w) = (installed, None)) /\
  w_trace (snd (Apps.Apply inListingOrder wantedApps w))
  = [EffExec Apps.listArgv;
     EffExec ["flatpak"; "install"; "-y"; "flathub"; "org.c"];
     EffExec ["flatpak"; "uninstall"; "-y"; "org.b"]] /\
  exists (missing : list AppDefinition) (extra : list string)
         (evs : list Event) (w' : World),
    Apps.Apply inListingOrder wantedApps w = (evs, None, w') /\
    NoDup (map app_ID missing) /\
    NoDup extra /\
    (forall d, d ∈ missing <->
       requiredAs wantedApps (app_ID d) = Some d /\
       (app_ID d ∉ map Apps.ia_ID installed)) /\
    (forall id, id ∈ extra <->
       id ∈ map Apps.ia_ID installed /\ requiredAs wantedApps id = None) /\
    map appOf evs = map app_ID missing ++ extra /\
    w_trace w'
    = w_trace w
      ++ EffExec Apps.listArgv
         :: map installCmd (List.filter named missing) ++ map uninstallCmd extra /\
    w_files w' = w_files w.
Proof.
  intros w installed.
  assert (H1 : forall (V : Type) (l : list (string * V)), inListingOrder V l ≡ₚ l)
    by (intros V l; reflexivity).
  assert (H2 : fst (Apps.ListInstalled w) = (installed, None))
    by (vm_compute; reflexivity).
  split; [split; [exact H1 | exact H2] |].
  split; [vm_compute; reflexivity |].
  exact (Apps_Apply_reconciles inListingOrder wantedApps installed w H1 H2).
Defined.
